(** * Idempotent exercise-session ingest: a shallow embedding

    The development follows the TypeScript sources

      - [src/types.ts]               the documents and the request,
      - [src/validators.ts]          [validatePayload],
      - [src/metrics.ts]             [logMetrics], [getMetricsDashboard],
      - [src/idempotencyService.ts]  [processWithIdempotency],
      - [src/ingestHandler.ts]       [createNewSession], [updateSessionMetrics],
                                     [processEvent], [ingestExerciseEvent].

    Conventions of the embedding.

      - A JavaScript [number] that carries a measurement (calories, distance,
        heart rate, durations) is an exact rational [Qc]; IEEE rounding is not
        modelled.  Counters and sequence numbers, which the validator forces
        to be integers, are [Z].
      - A [Date] and a Firestore [Timestamp] are the instant they denote, in
        milliseconds since the epoch ([Z]).  The ISO string of a request is
        represented by the instant [new Date(payload.timestamp)] yields.
      - An optional field [f?: t] is an [option]; JavaScript truthiness is
        written out where the source relies on it ([a || b], [a && b],
        [a ? b : c]).
      - The Firestore database is a record of collections, each a [gmap] from
        document id to document.  [runTransaction] is serialised: its callback
        reads the current collections, buffers its writes, and the writes are
        applied together when the callback returns; nothing is written when it
        throws.
      - Asynchronous code is a state-and-exception monad [M] over the
        database and the wall clock. *)

From Stdlib Require Import ZArith QArith Qcanon Lia.
From stdpp Require Import base decidable option numbers strings list gmap sorting.

Open Scope Z_scope.

(** ** JavaScript values and operators *)

Module Js.

(** Integer literal as a measurement. *)
Definition num (z : Z) : Qc := Qc_of_Z z.

(** [Math.max(a, b)] on measurements and on integers. *)
Definition max (a b : Qc) : Qc := if bool_decide (a ≤ b)%Qc then b else a.
Definition maxZ (a b : Z) : Z := Z.max a b.

(** Truthiness of an optional number: [undefined] and [0] are falsy. *)
Definition truthyNum (o : option Qc) : bool :=
  match o with
  | Some x => bool_decide (x ≠ 0%Qc)
  | None => false
  end.

Definition truthyInt (o : option Z) : bool :=
  match o with
  | Some x => bool_decide (x ≠ 0)
  | None => false
  end.

(** Truthiness of an optional boolean: only [true] is truthy. *)
Definition truthyBool (o : option bool) : bool :=
  match o with
  | Some b => b
  | None => false
  end.

(** [o || d] where [o] is an optional number. *)
Definition orNum (o : option Qc) (d : Qc) : Qc :=
  match o with
  | Some x => if bool_decide (x ≠ 0%Qc) then x else d
  | None => d
  end.

Definition orInt (o : option Z) (d : Z) : Z :=
  match o with
  | Some x => if bool_decide (x ≠ 0) then x else d
  | None => d
  end.

(** A value of type [any], as far as responses need one. *)
Inductive value : Type :=
| Null
| Bool (b : bool)
| Number (n : Qc)
| Str (s : string)
| Object (fields : list (string * string)).

#[export] Instance value_eq_dec : EqDecision value.
Proof. solve_decision. Defined.

(** The values a condition accepts. *)
Class Truthy (T : Type) := truthy : T → bool.

#[export] Instance value_truthy : Truthy value := λ v,
  match v with
  | Null => false
  | Bool b => b
  | Number n => bool_decide (n ≠ 0%Qc)
  | Str s => bool_decide (s ≠ "")
  | Object _ => true
  end.

End Js.

Export Js(Truthy, truthy).
#[export] Existing Instance Js.value_truthy.
#[export] Existing Instance Js.value_eq_dec.

(** ** Documents ([src/types.ts]) *)

Inductive EventType := start | update | end_.

#[export] Instance EventType_eq_dec : EqDecision EventType.
Proof. solve_decision. Defined.

Inductive SessionStatus := active | completed | abandoned.

Inductive ReconciliationReason := clock_drift | out_of_order | manual.

#[export] Instance ReconciliationReason_eq_dec : EqDecision ReconciliationReason.
Proof. solve_decision. Defined.

(** A field written with [FieldValue.serverTimestamp()] holds a sentinel
    until the write is committed; the store then replaces it by the commit
    time. *)
Inductive DateField :=
| DateAt (ms : Z)
| ServerTimestamp.

Definition resolveDate (commitTime : Z) (d : DateField) : DateField :=
  match d with
  | DateAt ms => DateAt ms
  | ServerTimestamp => DateAt commitTime
  end.

(** [metrics?: { calories?, distance?, heartRate?, duration? }] *)
Module EventMetrics.
Record t := mk {
  calories : option Qc;
  distance : option Qc;
  heartRate : option Qc;
  duration : option Qc
}.
End EventMetrics.

Module IngestRequest.
Record t := mk {
  idempotencyKey : string;
  sessionId : string;
  userId : string;
  eventId : string;
  eventType : EventType;
  timestamp : Z;
  metrics : option EventMetrics.t;
  eventSequence : option Z;
  _requiresReconciliation : option bool;
  _clockDriftDetected : option bool
}.

Definition set_flags (rr cd : option bool) (p : t) : t :=
  mk (idempotencyKey p) (sessionId p) (userId p) (eventId p) (eventType p)
     (timestamp p) (metrics p) (eventSequence p) rr cd.
End IngestRequest.

Module SessionMetrics.
Record t := mk {
  totalDuration : Qc;
  caloriesBurned : Qc;
  distance : option Qc;
  heartRateAvg : option Qc;
  heartRateDataPoints : option Qc
}.

Definition set_totalDuration (v : Qc) (m : t) : t :=
  mk v (caloriesBurned m) (distance m) (heartRateAvg m) (heartRateDataPoints m).
Definition set_caloriesBurned (v : Qc) (m : t) : t :=
  mk (totalDuration m) v (distance m) (heartRateAvg m) (heartRateDataPoints m).
Definition set_distance (v : option Qc) (m : t) : t :=
  mk (totalDuration m) (caloriesBurned m) v (heartRateAvg m) (heartRateDataPoints m).
Definition set_heartRate (avg points : option Qc) (m : t) : t :=
  mk (totalDuration m) (caloriesBurned m) (distance m) avg points.
End SessionMetrics.

Module ExerciseSession.
Record t := mk {
  sessionId : string;
  userId : string;
  startTime : Z;
  endTime : option Z;
  lastUpdated : DateField;
  lastReconciled : option Z;
  lastEventTime : option Z;
  lastEventSequence : option Z;
  version : Z;
  metrics : SessionMetrics.t;
  status : SessionStatus;
  requiresReconciliation : option bool;
  reconciliationReason : option ReconciliationReason
}.

Definition set_startTime (v : Z) (s : t) : t :=
  mk (sessionId s) (userId s) v (endTime s) (lastUpdated s) (lastReconciled s)
     (lastEventTime s) (lastEventSequence s) (version s) (metrics s) (status s)
     (requiresReconciliation s) (reconciliationReason s).
Definition set_endTime (v : option Z) (s : t) : t :=
  mk (sessionId s) (userId s) (startTime s) v (lastUpdated s) (lastReconciled s)
     (lastEventTime s) (lastEventSequence s) (version s) (metrics s) (status s)
     (requiresReconciliation s) (reconciliationReason s).
Definition set_lastUpdated (v : DateField) (s : t) : t :=
  mk (sessionId s) (userId s) (startTime s) (endTime s) v (lastReconciled s)
     (lastEventTime s) (lastEventSequence s) (version s) (metrics s) (status s)
     (requiresReconciliation s) (reconciliationReason s).
Definition set_lastEventTime (v : option Z) (s : t) : t :=
  mk (sessionId s) (userId s) (startTime s) (endTime s) (lastUpdated s)
     (lastReconciled s) v (lastEventSequence s) (version s) (metrics s) (status s)
     (requiresReconciliation s) (reconciliationReason s).
Definition set_lastEventSequence (v : option Z) (s : t) : t :=
  mk (sessionId s) (userId s) (startTime s) (endTime s) (lastUpdated s)
     (lastReconciled s) (lastEventTime s) v (version s) (metrics s) (status s)
     (requiresReconciliation s) (reconciliationReason s).
Definition set_version (v : Z) (s : t) : t :=
  mk (sessionId s) (userId s) (startTime s) (endTime s) (lastUpdated s)
     (lastReconciled s) (lastEventTime s) (lastEventSequence s) v (metrics s)
     (status s) (requiresReconciliation s) (reconciliationReason s).
Definition set_metrics (v : SessionMetrics.t) (s : t) : t :=
  mk (sessionId s) (userId s) (startTime s) (endTime s) (lastUpdated s)
     (lastReconciled s) (lastEventTime s) (lastEventSequence s) (version s) v
     (status s) (requiresReconciliation s) (reconciliationReason s).
Definition set_status (v : SessionStatus) (s : t) : t :=
  mk (sessionId s) (userId s) (startTime s) (endTime s) (lastUpdated s)
     (lastReconciled s) (lastEventTime s) (lastEventSequence s) (version s)
     (metrics s) v (requiresReconciliation s) (reconciliationReason s).
(** [session.requiresReconciliation = true; session.reconciliationReason = r] *)
Definition flag (r : ReconciliationReason) (s : t) : t :=
  mk (sessionId s) (userId s) (startTime s) (endTime s) (lastUpdated s)
     (lastReconciled s) (lastEventTime s) (lastEventSequence s) (version s)
     (metrics s) (status s) (Some true) (Some r).

(** What the store keeps of a session once the write is committed. *)
Definition resolve (commitTime : Z) (s : t) : t :=
  set_lastUpdated (resolveDate commitTime (lastUpdated s)) s.
End ExerciseSession.

Module ExerciseEvent.
Record t := mk {
  eventId : string;
  sessionId : string;
  userId : string;
  timestamp : Z;
  type : EventType;
  metrics : option EventMetrics.t;
  clientTimestamp : Z;
  serverTimestamp : DateField;
  eventSequence : Z;
  schemaVersion : Z;
  outOfOrder : option bool;
  clockDriftDetected : option bool
}.

Definition resolve (commitTime : Z) (e : t) : t :=
  mk (eventId e) (sessionId e) (userId e) (timestamp e) (type e) (metrics e)
     (clientTimestamp e) (resolveDate commitTime (serverTimestamp e))
     (eventSequence e) (schemaVersion e) (outOfOrder e) (clockDriftDetected e).
End ExerciseEvent.

(** Documents are compared field by field. *)
#[export] Instance SessionStatus_eq_dec : EqDecision SessionStatus.
Proof. solve_decision. Defined.
#[export] Instance DateField_eq_dec : EqDecision DateField.
Proof. solve_decision. Defined.
#[export] Instance EventMetrics_eq_dec : EqDecision EventMetrics.t.
Proof. solve_decision. Defined.
#[export] Instance IngestRequest_eq_dec : EqDecision IngestRequest.t.
Proof. solve_decision. Defined.
#[export] Instance SessionMetrics_eq_dec : EqDecision SessionMetrics.t.
Proof. solve_decision. Defined.
#[export] Instance ExerciseSession_eq_dec : EqDecision ExerciseSession.t.
Proof. solve_decision. Defined.
#[export] Instance ExerciseEvent_eq_dec : EqDecision ExerciseEvent.t.
Proof. solve_decision. Defined.

Inductive IdempotencyStatus := St_processing | St_completed | St_failed.

#[export] Instance IdempotencyStatus_eq_dec : EqDecision IdempotencyStatus.
Proof. solve_decision. Defined.

(** [request: any] and [response?: any] are type parameters; [completedAt] and
    [failedAt] are the fields the two [update] calls of the service add. *)
Module IdempotencyRecord.
Record t (R T : Type) := mk {
  key : string;
  request : R;
  response : option T;
  status : IdempotencyStatus;
  error : option string;
  createdAt : Z;
  processingStartedAt : option Z;
  expiresAt : Z;
  completedAt : option Z;
  failedAt : option Z
}.
Arguments mk {R T}.
Arguments key {R T}.
Arguments request {R T}.
Arguments response {R T}.
Arguments status {R T}.
Arguments error {R T}.
Arguments createdAt {R T}.
Arguments processingStartedAt {R T}.
Arguments expiresAt {R T}.
Arguments completedAt {R T}.
Arguments failedAt {R T}.
End IdempotencyRecord.

#[export] Instance IdempotencyRecord_eq_dec {R T} `{EqDecision R, EqDecision T} :
  EqDecision (IdempotencyRecord.t R T).
Proof. solve_decision. Defined.

(** ** The observability sink ([src/metrics.ts]) *)

(** [logMetrics(eventName, data)] with the two payloads the ingest path
    sends.  The sharded counter documents are abstracted to the sequence of
    emitted signals. *)
Inductive Metric :=
| event_ingested (sessionId userId : string) (eventType : EventType)
    (isDuplicate : bool) (eventSequence : Z) (clockDriftDetected : bool)
| duplicate_event (sessionId eventId : string) (eventType : EventType).

(** ** The database and the effect monad *)

(** The collections [idempotency], [sessions] and [events], the signals sent
    to the sink, and the wall clock: [clock n] is the [n]-th reading any
    modelled code makes of [Date.now()], [Timestamp.now()] or the server
    time, and [tick] counts the readings made so far. *)
Record World (R T : Type) := mkWorld {
  idempotency : gmap string (IdempotencyRecord.t R T);
  sessions : gmap string ExerciseSession.t;
  events : gmap string ExerciseEvent.t;
  metricsLog : list Metric;
  clock : nat → Z;
  tick : nat
}.
Arguments mkWorld {R T}.
Arguments idempotency {R T}.
Arguments sessions {R T}.
Arguments events {R T}.
Arguments metricsLog {R T}.
Arguments clock {R T}.
Arguments tick {R T}.

(** Outcome of an awaited computation: a value, or a thrown [Error] with its
    [message]. *)
Inductive Result (A : Type) :=
| Ok (a : A)
| Throw (message : string).
Arguments Ok {A}.
Arguments Throw {A}.

#[export] Instance Result_eq_dec {A} `{EqDecision A} : EqDecision (Result A).
Proof. solve_decision. Defined.

Definition M (R T A : Type) : Type := World R T → Result A * World R T.

Section Monad.
Context {R T : Type}.

Definition ret {A} (a : A) : M R T A := λ w, (Ok a, w).

Definition bind {A B} (c : M R T A) (k : A → M R T B) : M R T B := λ w,
  match c w with
  | (Ok a, w') => k a w'
  | (Throw e, w') => (Throw e, w')
  end.

Definition throw {A} (message : string) : M R T A := λ w, (Throw message, w).

(** [try { c } catch (error) { handler(error.message) }] *)
Definition tryCatch {A} (c : M R T A) (handler : string → M R T A) : M R T A := λ w,
  match c w with
  | (Ok a, w') => (Ok a, w')
  | (Throw e, w') => handler e w'
  end.

(** One reading of the wall clock. *)
Definition now : M R T Z := λ w,
  (Ok (clock w (tick w)),
   mkWorld (idempotency w) (sessions w) (events w) (metricsLog w) (clock w) (S (tick w))).

Definition getIdempotency (id : string) : M R T (option (IdempotencyRecord.t R T)) :=
  λ w, (Ok (idempotency w !! id), w).
Definition getSession (id : string) : M R T (option ExerciseSession.t) :=
  λ w, (Ok (sessions w !! id), w).
Definition getEvent (id : string) : M R T (option ExerciseEvent.t) :=
  λ w, (Ok (events w !! id), w).

Definition logMetrics (m : Metric) : M R T () := λ w,
  (Ok (),
   mkWorld (idempotency w) (sessions w) (events w) (metricsLog w ++ [m]) (clock w) (tick w)).
End Monad.

Notation "x <- c ;; k" := (bind c (λ x, k))
  (at level 62, c at next level, right associativity).

(** *** Transactions *)

(** A write buffered by [transaction.set].  The buffer keeps the object it
    was given, not a copy, and serialises it at commit. *)
Inductive Write (R T : Type) :=
| SetSession (id : string) (data : ExerciseSession.t) (mergeFalse : bool)
| SetEvent (id : string) (data : ExerciseEvent.t)
| SetIdempotency (id : string) (data : IdempotencyRecord.t R T).
Arguments SetSession {R T}.
Arguments SetEvent {R T}.
Arguments SetIdempotency {R T}.

Section Transactions.
Context {R T : Type}.

(** One buffered write applied at [commitTime].  A [set] with
    [{ merge: false }] is refused when the document exists; server
    timestamps are resolved. *)
Definition applyWrite (commitTime : Z) (wr : Write R T) (w : World R T)
  : Result (World R T) :=
  match wr with
  | SetSession id data mergeFalse =>
      if mergeFalse && bool_decide (is_Some (sessions w !! id))
      then Throw "Document already exists"
      else Ok (mkWorld (idempotency w)
                 (<[id := ExerciseSession.resolve commitTime data]> (sessions w))
                 (events w) (metricsLog w) (clock w) (tick w))
  | SetEvent id data =>
      Ok (mkWorld (idempotency w) (sessions w)
            (<[id := ExerciseEvent.resolve commitTime data]> (events w))
            (metricsLog w) (clock w) (tick w))
  | SetIdempotency id data =>
      Ok (mkWorld (<[id := data]> (idempotency w)) (sessions w) (events w)
            (metricsLog w) (clock w) (tick w))
  end.

Fixpoint applyWrites (commitTime : Z) (ws : list (Write R T)) (w : World R T)
  : Result (World R T) :=
  match ws with
  | [] => Ok w
  | wr :: ws' =>
      match applyWrite commitTime wr w with
      | Ok w' => applyWrites commitTime ws' w'
      | Throw e => Throw e
      end
  end.

(** [db.runTransaction(callback)]: the callback returns its result and the
    writes it buffered; they are applied together at the commit time, and
    none is applied when the callback or the commit throws. *)
Definition runTransaction {A} (callback : M R T (A * list (Write R T))) : M R T A :=
  r <- callback ;;
  commitTime <- now ;;
  λ w, match applyWrites commitTime (snd r) w with
       | Ok w' => (Ok (fst r), w')
       | Throw e => (Throw e, w)
       end.
End Transactions.

(** ** Validation ([src/validators.ts]) *)

Definition oneHour : Z := 60 * 60 * 1000.
Definition oneWeek : Z := 7 * 24 * 60 * 60 * 1000.

(** Range checks of the [metrics] object; the [typeof] tests hold by typing. *)
Definition validateMetrics (m : EventMetrics.t) : option string :=
  let outside (o : option Qc) (lo hi : Z) : bool :=
    match o with
    | Some x => bool_decide (x < Js.num lo)%Qc || bool_decide (Js.num hi < x)%Qc
    | None => false
    end in
  if outside (EventMetrics.calories m) 0 1000 then Some "Invalid calories (0-1000)"
  else if outside (EventMetrics.distance m) 0 100000 then Some "Invalid distance (0-100km)"
  else if outside (EventMetrics.heartRate m) 30 250 then Some "Invalid heart rate (30-250)"
  else if outside (EventMetrics.duration m) 0 14400 then Some "Invalid duration (0-4 hours)"
  else None.

(** [validatePayload(payload)] on a well-typed payload.  It returns the error
    (or [None]) and the payload, on which it may have set the two drift
    flags. *)
Definition validatePayload {R T} (payload : IngestRequest.t)
  : M R T (option string * IngestRequest.t) :=
  if bool_decide (IngestRequest.idempotencyKey payload = "")
  then ret (Some "Missing or invalid idempotency key", payload)
  else if bool_decide (128 < String.length (IngestRequest.idempotencyKey payload))%nat
  then ret (Some "Idempotency key too long (max 128 chars)", payload)
  else if bool_decide (IngestRequest.sessionId payload = "")
  then ret (Some "Missing or invalid session ID", payload)
  else if bool_decide (IngestRequest.userId payload = "")
  then ret (Some "Missing or invalid user ID", payload)
  else if bool_decide (IngestRequest.eventId payload = "")
  then ret (Some "Missing or invalid event ID", payload)
  else
    nowMs <- now ;;
    let timestamp := IngestRequest.timestamp payload in
    if timestamp <? nowMs - oneWeek
    then ret (Some "Timestamp too old (max 1 week)", payload)
    else if timestamp >? nowMs + oneHour
    then ret (Some "Timestamp too far in future (max 1 hour)", payload)
    else
      let payload :=
        if timestamp <? nowMs - oneHour
        then IngestRequest.set_flags (Some true) (Some true) payload
        else payload in
      match
        match IngestRequest.metrics payload with
        | Some m => validateMetrics m
        | None => None
        end
      with
      | Some e => ret (Some e, payload)
      | None =>
          match IngestRequest.eventSequence payload with
          | Some n => if n <? 0 then ret (Some "Invalid event sequence", payload)
                      else ret (None, payload)
          | None => ret (None, payload)
          end
      end.

(** ** The metric aggregator ([src/ingestHandler.ts]) *)

(** [createNewSession(payload)].  [payload.metrics?.f] is [undefined] when
    there is no [metrics] object. *)
Definition createNewSession (payload : IngestRequest.t) : ExerciseSession.t :=
  let eventTime := IngestRequest.timestamp payload in
  let metric (f : EventMetrics.t → option Qc) : option Qc :=
    match IngestRequest.metrics payload with
    | Some m => f m
    | None => None
    end in
  ExerciseSession.mk
    (IngestRequest.sessionId payload)
    (IngestRequest.userId payload)
    eventTime
    None
    ServerTimestamp
    None
    (Some eventTime)
    (Some (Js.orInt (IngestRequest.eventSequence payload) 0))
    1
    (SessionMetrics.mk
       0%Qc
       (Js.orNum (metric EventMetrics.calories) 0%Qc)
       (Some (Js.orNum (metric EventMetrics.distance) 0%Qc))
       (metric EventMetrics.heartRate)
       (Some (if Js.truthyNum (metric EventMetrics.heartRate)
              then Js.max (Js.orNum (metric EventMetrics.duration) 1%Qc) 1%Qc
              else 0%Qc)))
    active
    None
    None.

(** The three aggregation rules of [updateSessionMetrics], in source order. *)

(** Calories: delta values, accumulated. *)
Definition addCalories (m : EventMetrics.t) (sm : SessionMetrics.t) : SessionMetrics.t :=
  match EventMetrics.calories m with
  | Some c =>
      if bool_decide (0 ≤ c)%Qc
      then SessionMetrics.set_caloriesBurned (SessionMetrics.caloriesBurned sm + c)%Qc sm
      else sm
  | None => sm
  end.

(** Distance: absolute value, monotonic maximum. *)
Definition maxDistance (m : EventMetrics.t) (sm : SessionMetrics.t) : SessionMetrics.t :=
  match EventMetrics.distance m with
  | Some d =>
      if bool_decide (0 ≤ d)%Qc
      then SessionMetrics.set_distance
             (Some (Js.max (Js.orNum (SessionMetrics.distance sm) 0%Qc) d)) sm
      else sm
  | None => sm
  end.

(** Heart rate: weighted average with guards. *)
Definition foldHeartRate (m : EventMetrics.t) (sm : SessionMetrics.t) : SessionMetrics.t :=
  match EventMetrics.heartRate m with
  | Some heartRate =>
      if bool_decide (0 < heartRate)%Qc && bool_decide (heartRate ≤ Js.num 250)%Qc
      then
        let duration := Js.max (Js.orNum (EventMetrics.duration m) 1%Qc) 1%Qc in
        let currentWeight := Js.orNum (SessionMetrics.heartRateDataPoints sm) 0%Qc in
        let currentAvg := Js.orNum (SessionMetrics.heartRateAvg sm) heartRate in
        let totalWeight := (currentWeight + duration)%Qc in
        if bool_decide (0 < totalWeight)%Qc
        then SessionMetrics.set_heartRate
               (Some ((currentAvg * currentWeight + heartRate * duration) / totalWeight)%Qc)
               (Some totalWeight) sm
        else sm
      else sm
  | None => sm
  end.

(** [updateSessionMetrics(session, payload)].  The session object is mutated
    in place and returned; here each assignment yields the next value of the
    object.  [startTime] is a required [Date], hence truthy. *)
Definition updateSessionMetrics {R T} (session : ExerciseSession.t)
    (payload : IngestRequest.t) : M R T ExerciseSession.t :=
  let eventTime := IngestRequest.timestamp payload in
  (* Handle start events *)
  let session :=
    if bool_decide (IngestRequest.eventType payload = start)
    then if eventTime <? ExerciseSession.startTime session
         then ExerciseSession.set_startTime eventTime session
         else session
    else session in
  (* Handle end events *)
  let session :=
    if bool_decide (IngestRequest.eventType payload = end_)
    then ExerciseSession.set_status completed
           match ExerciseSession.endTime session with
           | None => ExerciseSession.set_endTime (Some eventTime) session
           | Some endTime =>
               if eventTime >? endTime
               then ExerciseSession.set_endTime (Some eventTime) session
               else session
           end
    else session in
  (* Safe metric aggregation *)
  let session :=
    match IngestRequest.metrics payload with
    | Some m =>
        ExerciseSession.set_metrics
          (foldHeartRate m (maxDistance m (addCalories m (ExerciseSession.metrics session))))
          session
    | None => session
    end in
  (* Recalculate duration *)
  totalDuration <-
    match ExerciseSession.endTime session with
    | Some endTime =>
        ret (Js.num (endTime - ExerciseSession.startTime session) / Js.num 1000)%Qc
    | None =>
        dateNow <- now ;;
        ret (Js.num (dateNow - ExerciseSession.startTime session) / Js.num 1000)%Qc
    end ;;
  let session :=
    ExerciseSession.set_metrics
      (SessionMetrics.set_totalDuration totalDuration (ExerciseSession.metrics session))
      session in
  let session := ExerciseSession.set_lastUpdated ServerTimestamp session in
  ret (ExerciseSession.set_version (ExerciseSession.version session + 1) session).

(** ** The session merge engine ([processEvent]) *)

Module CurrentMetrics.
Record t := mk {
  duration : Qc;
  calories : Qc;
  distance : option Qc;
  avgHeartRate : option Qc
}.
End CurrentMetrics.

(** The two objects [processEvent] returns. *)
Inductive IngestResponse :=
| already_processed (sessionId : string) (warning : string)
| success (sessionId : string) (sessionStatus : SessionStatus)
    (currentMetrics : CurrentMetrics.t) (requiresReconciliation : option bool)
    (outOfOrder : bool).

#[export] Instance CurrentMetrics_eq_dec : EqDecision CurrentMetrics.t.
Proof. solve_decision. Defined.
#[export] Instance IngestResponse_eq_dec : EqDecision IngestResponse.
Proof. solve_decision. Defined.

(** Every response is an object, hence truthy. *)
#[export] Instance IngestResponse_truthy : Truthy IngestResponse := λ _, true.

Section Merge.
Context {R T : Type}.

(** Sequence-based out-of-order detection (lines 112-113). *)
Definition sequenceOutOfOrder (payload : IngestRequest.t) (session : ExerciseSession.t)
  : bool :=
  Js.truthyInt (IngestRequest.eventSequence payload)
  && Js.truthyInt (ExerciseSession.lastEventSequence session)
  && match IngestRequest.eventSequence payload,
           ExerciseSession.lastEventSequence session with
     | Some eventSequence, Some lastEventSequence => eventSequence <=? lastEventSequence
     | _, _ => false
     end.

(** Time-based out-of-order detection (line 122). *)
Definition timeOutOfOrder (payload : IngestRequest.t) (session : ExerciseSession.t)
  : bool :=
  match ExerciseSession.lastEventTime session with
  | Some lastEventTime => IngestRequest.timestamp payload <? lastEventTime
  | None => false
  end.

(** Lines 134-142: always update tracking fields. *)
Definition updateTracking (session : ExerciseSession.t) (payload : IngestRequest.t)
  : ExerciseSession.t :=
  let eventTime := IngestRequest.timestamp payload in
  let session :=
    ExerciseSession.set_lastEventSequence
      (Some (Js.maxZ (Js.orInt (ExerciseSession.lastEventSequence session) 0)
                     (Js.orInt (IngestRequest.eventSequence payload) 0)))
      session in
  match ExerciseSession.lastEventTime session with
  | None => ExerciseSession.set_lastEventTime (Some eventTime) session
  | Some lastEventTime =>
      if eventTime >? lastEventTime
      then ExerciseSession.set_lastEventTime (Some eventTime) session
      else session
  end.

(** The [else] branch of lines 105-145: the merge into a session that
    exists.  It returns the session object and [outOfOrder]. *)
Definition mergeIntoSession (session : ExerciseSession.t) (payload : IngestRequest.t)
  : M R T (ExerciseSession.t * bool) :=
  let bySequence := sequenceOutOfOrder payload session in
  let session :=
    if bySequence then ExerciseSession.flag out_of_order session else session in
  let byTime := timeOutOfOrder payload session in
  let session :=
    if byTime then ExerciseSession.flag out_of_order session else session in
  let outOfOrder := bySequence || byTime in
  (* Update metrics only if not out of order *)
  session <- (if outOfOrder then ret session else updateSessionMetrics session payload) ;;
  ret (updateTracking session payload, outOfOrder).

(** Lines 147-151: mark for reconciliation if clock drift was detected. *)
Definition markClockDrift (payload : IngestRequest.t) (session : ExerciseSession.t)
  : ExerciseSession.t :=
  if Js.truthyBool (IngestRequest._requiresReconciliation payload)
     && negb (Js.truthyBool (ExerciseSession.requiresReconciliation session))
  then ExerciseSession.flag clock_drift session
  else session.

(** Lines 154-167: the event record. *)
Definition eventRecord (payload : IngestRequest.t) (outOfOrder : bool) : ExerciseEvent.t :=
  ExerciseEvent.mk
    (IngestRequest.eventId payload)
    (IngestRequest.sessionId payload)
    (IngestRequest.userId payload)
    (IngestRequest.timestamp payload)
    (IngestRequest.eventType payload)
    (IngestRequest.metrics payload)
    (IngestRequest.timestamp payload)
    ServerTimestamp
    (Js.orInt (IngestRequest.eventSequence payload) 0)
    1
    (Some outOfOrder)
    (IngestRequest._clockDriftDetected payload).

(** Lines 171-183: the success payload. *)
Definition successResponse (session : ExerciseSession.t) (outOfOrder : bool)
  : IngestResponse :=
  success
    (ExerciseSession.sessionId session)
    (ExerciseSession.status session)
    (CurrentMetrics.mk
       (SessionMetrics.totalDuration (ExerciseSession.metrics session))
       (SessionMetrics.caloriesBurned (ExerciseSession.metrics session))
       (SessionMetrics.distance (ExerciseSession.metrics session))
       (SessionMetrics.heartRateAvg (ExerciseSession.metrics session)))
    (ExerciseSession.requiresReconciliation session)
    outOfOrder.

(** The transaction callback of [processEvent].  [transaction.set(sessionRef,
    session)] buffers the session object itself, so the assignment of
    lines 148-151, made to the same object after the call, is part of what
    the commit writes. *)
Definition processEventCallback (payload : IngestRequest.t)
  : M R T (IngestResponse * list (Write R T)) :=
  let sessionId := IngestRequest.sessionId payload in
  let eventId := IngestRequest.eventId payload in
  (* Check if event already exists *)
  eventDoc <- getEvent eventId ;;
  match eventDoc with
  | Some _ =>
      _ <- logMetrics (duplicate_event sessionId eventId (IngestRequest.eventType payload)) ;;
      ret (already_processed sessionId
             "Event already processed with different idempotency key", [])
  | None =>
      sessionDoc <- getSession sessionId ;;
      r <- match sessionDoc with
           | None =>
               if bool_decide (IngestRequest.eventType payload ≠ start)
               then throw "Cannot create session without start event"
               else ret (createNewSession payload, false, true)
           | Some session =>
               m <- mergeIntoSession session payload ;;
               ret (fst m, snd m, false)
           end ;;
      let session := markClockDrift payload (fst (fst r)) in
      let outOfOrder := snd (fst r) in
      let mergeFalse := snd r in
      ret (successResponse session outOfOrder,
           [SetSession sessionId session mergeFalse;
            SetEvent eventId (eventRecord payload outOfOrder)])
  end.

Definition processEvent (payload : IngestRequest.t) : M R T IngestResponse :=
  runTransaction (processEventCallback payload).
End Merge.

(** ** The idempotency guard ([src/idempotencyService.ts]) *)

Definition EXPIRY_HOURS : Z := 24.
Definition PROCESSING_TIMEOUT_MS : Z := 2 * 60 * 1000.

(** What the claim transaction returns: [{ isNew: false, response, fromCache:
    true }] or [{ shouldProcess: true }]. *)
Inductive ClaimResult (T : Type) :=
| fromCache (response : T)
| shouldProcess.
Arguments fromCache {T}.
Arguments shouldProcess {T}.

Section Idempotency.
Context {R T : Type} `{Truthy T}.

(** [data.status === 'completed' && data.response], with the response it
    guards. *)
Definition cachedResponse (data : IdempotencyRecord.t R T) : option T :=
  if bool_decide (IdempotencyRecord.status data = St_completed)
  then match IdempotencyRecord.response data with
       | Some response => if truthy response then Some response else None
       | None => None
       end
  else None.

(** The record written by a claim at time [nowTs]. *)
Definition processingRecord (key : string) (request : R) (nowTs : Z)
  : IdempotencyRecord.t R T :=
  IdempotencyRecord.mk key request None St_processing None nowTs (Some nowTs)
    (nowTs + EXPIRY_HOURS * 60 * 60 * 1000) None None.

(** The callback of the claim transaction (lines 19-69). *)
Definition claimCallback (key : string) (request : R)
  : M R T (ClaimResult T * list (Write R T)) :=
  doc <- getIdempotency key ;;
  cached <-
    match doc with
    | Some data =>
        nowTs <- now ;;
        (* Check expiry *)
        if nowTs <? IdempotencyRecord.expiresAt data
        then
          match cachedResponse data with
          | Some response => ret (Some response)
          | None =>
              if bool_decide (IdempotencyRecord.status data = St_processing)
              then
                (* Check if processing is stale *)
                let processingAge :=
                  match IdempotencyRecord.processingStartedAt data with
                  | Some startedAt => nowTs - startedAt
                  | None => nowTs - IdempotencyRecord.createdAt data
                  end in
                if processingAge >? PROCESSING_TIMEOUT_MS
                then ret None
                else throw "CONCURRENT_REQUEST"
              else if bool_decide (IdempotencyRecord.status data = St_failed)
              then throw ("PREVIOUS_FAILED: " +:+
                          default "undefined" (IdempotencyRecord.error data))
              else ret None
          end
        else ret None
    | None => ret None
    end ;;
  match cached with
  | Some response => ret (fromCache response, [])
  | None =>
      (* Create idempotency record atomically *)
      nowTs <- now ;;
      ret (shouldProcess, [SetIdempotency key (processingRecord key request nowTs)])
  end.

(** [docRef.update(fields)]: the fields are merged into the stored
    document; the call throws when there is none. *)
Definition docUpdate (key : string)
    (fields : IdempotencyRecord.t R T → IdempotencyRecord.t R T) : M R T () := λ w,
  match idempotency w !! key with
  | Some data =>
      (Ok (), mkWorld (<[key := fields data]> (idempotency w)) (sessions w) (events w)
                (metricsLog w) (clock w) (tick w))
  | None => (Throw "Document does not exist", w)
  end.

(** [{ response, status: 'completed', completedAt }] *)
Definition completedFields (response : T) (completedAt : Z)
    (d : IdempotencyRecord.t R T) : IdempotencyRecord.t R T :=
  IdempotencyRecord.mk (IdempotencyRecord.key d) (IdempotencyRecord.request d)
    (Some response) St_completed (IdempotencyRecord.error d)
    (IdempotencyRecord.createdAt d) (IdempotencyRecord.processingStartedAt d)
    (IdempotencyRecord.expiresAt d) (Some completedAt) (IdempotencyRecord.failedAt d).

(** [{ status: 'failed', error, failedAt }] *)
Definition failedFields (error : string) (failedAt : Z)
    (d : IdempotencyRecord.t R T) : IdempotencyRecord.t R T :=
  IdempotencyRecord.mk (IdempotencyRecord.key d) (IdempotencyRecord.request d)
    (IdempotencyRecord.response d) St_failed (Some error)
    (IdempotencyRecord.createdAt d) (IdempotencyRecord.processingStartedAt d)
    (IdempotencyRecord.expiresAt d) (IdempotencyRecord.completedAt d) (Some failedAt).

(** Lines 81-85 and 90-94. *)
Definition updateCompleted (key : string) (response : T) : M R T () :=
  completedAt <- now ;;
  docUpdate key (completedFields response completedAt).

Definition updateFailed (key : string) (error : string) : M R T () :=
  failedAt <- now ;;
  docUpdate key (failedFields error failedAt).

(** Lines 97-108: fail closed.  [closedMessage] is the message of the
    error the outer [catch] throws. *)
Definition closedMessage (error : string) : string :=
  if bool_decide (error = "CONCURRENT_REQUEST")
  then "Request is already being processed"
  else if String.prefix "PREVIOUS_FAILED" error
  then "Previous request failed, please retry with new idempotency key"
  else error.

Definition failClosed {A} (error : string) : M R T A :=
  throw (closedMessage error).

(** Lines 77-96: process the request outside the transaction. *)
Definition processOutsideTransaction (key : string) (processor : M R T T)
  : M R T (bool * T) :=
  tryCatch
    (response <- processor ;;
     _ <- updateCompleted key response ;;
     ret (true, response))
    (λ error,
       _ <- updateFailed key error ;;
       throw error).

(** [processWithIdempotency(key, request, processor)]; the result is the
    pair [(isNew, response)]. *)
Definition processWithIdempotency (key : string) (request : R) (processor : M R T T)
  : M R T (bool * T) :=
  tryCatch
    (result <- runTransaction (claimCallback key request) ;;
     match result with
     | fromCache response => ret (false, response)
     | shouldProcess => processOutsideTransaction key processor
     end)
    failClosed.
End Idempotency.

(** ** The ingest endpoint ([ingestExerciseEvent]) *)

Inductive Body :=
| errorBody (error : string)
| jsonBody (response : IngestResponse).

Record HttpResponse := mkHttp { statusCode : Z; body : Body }.

#[export] Instance Body_eq_dec : EqDecision Body.
Proof. solve_decision. Defined.
#[export] Instance HttpResponse_eq_dec : EqDecision HttpResponse.
Proof. solve_decision. Defined.

Abbreviation Db := (World IngestRequest.t IngestResponse).
Abbreviation Handler := (M IngestRequest.t IngestResponse).

(** The handler on a request with method [method] and a well-typed body. *)
Definition ingestExerciseEvent (method : string) (payload : IngestRequest.t)
  : Handler HttpResponse :=
  tryCatch
    (if bool_decide (method ≠ "POST")
     then ret (mkHttp 405 (errorBody "Method not allowed"))
     else
       (* Validate request *)
       v <- validatePayload payload ;;
       match fst v with
       | Some validationError => ret (mkHttp 400 (errorBody validationError))
       | None =>
           let payload := snd v in
           (* Process with idempotency (fail-closed) *)
           tryCatch
             (result <- processWithIdempotency (IngestRequest.idempotencyKey payload)
                          payload (processEvent payload) ;;
              _ <- logMetrics
                     (event_ingested
                        (IngestRequest.sessionId payload)
                        (IngestRequest.userId payload)
                        (IngestRequest.eventType payload)
                        (negb (fst result))
                        (Js.orInt (IngestRequest.eventSequence payload) 0)
                        (Js.truthyBool (IngestRequest._clockDriftDetected payload))) ;;
              ret (mkHttp 200 (jsonBody (snd result))))
             (λ error,
                if bool_decide (error = "Request is already being processed")
                then ret (mkHttp 409 (errorBody error))
                else ret (mkHttp 500 (errorBody "Processing failed")))
       end)
    (λ _, ret (mkHttp 500 (errorBody "Internal server error"))).

(** ** Concurrent calls of [processWithIdempotency]

    Calls that run concurrently interleave at their [await]s.  A call is at
    one of the program points below; the claim transaction and each
    [docRef.update] are atomic steps on the shared database, and the
    processor is a step that may leave any database behind as long as the
    [idempotency] collection and the clock are those it found. *)

Module Concurrent.

Inductive Call (T : Type) :=
| AtClaim                           (* before the transaction of line 19 *)
| AtProcessor                       (* claimed; before line 78 *)
| AtCompleted (response : T)        (* processor returned; before line 81 *)
| AtCatch (error : string)          (* in the catch of line 88; before line 90 *)
| Returned (isNew : bool) (response : T)
| Thrown (error : string).
Arguments AtClaim {T}.
Arguments AtProcessor {T}.
Arguments AtCompleted {T}.
Arguments AtCatch {T}.
Arguments Returned {T}.
Arguments Thrown {T}.

(** The shared database, the calls, and the number of times the processor
    has been invoked. *)
Record Config (R T : Type) := mkConfig {
  world : World R T;
  calls : list (Call T);
  executions : nat
}.
Arguments mkConfig {R T}.
Arguments world {R T}.
Arguments calls {R T}.
Arguments executions {R T}.

Section Steps.
Context {R T : Type} `{Truthy T}.
Variables (key : string) (request : R).

(** Where a call stands once its claim transaction has finished. *)
Definition afterClaim (out : Result (ClaimResult T)) : Call T :=
  match out with
  | Ok (fromCache response) => Returned false response
  | Ok shouldProcess => AtProcessor
  | Throw e => Thrown (closedMessage e)
  end.

Definition afterProcessor (out : Result T) : Call T :=
  match out with
  | Ok response => AtCompleted response
  | Throw e => AtCatch e
  end.

Definition afterCompleted (response : T) (out : Result ()) : Call T :=
  match out with
  | Ok _ => Returned true response
  | Throw e => AtCatch e
  end.

Definition afterCatch (error : string) (out : Result ()) : Call T :=
  match out with
  | Ok _ => Thrown (closedMessage error)
  | Throw e => Thrown (closedMessage e)
  end.

Inductive step (c : Config R T) : Config R T → Prop :=
| step_claim i :
    calls c !! i = Some AtClaim →
    let out := runTransaction (claimCallback key request) (world c) in
    step c (mkConfig (snd out) (<[i := afterClaim (fst out)]> (calls c)) (executions c))
| step_processor i (outcome : Result T) (w' : World R T) :
    calls c !! i = Some AtProcessor →
    idempotency w' = idempotency (world c) →
    clock w' = clock (world c) →
    step c (mkConfig w' (<[i := afterProcessor outcome]> (calls c)) (S (executions c)))
| step_completed i response :
    calls c !! i = Some (AtCompleted response) →
    let out := updateCompleted key response (world c) in
    step c (mkConfig (snd out) (<[i := afterCompleted response (fst out)]> (calls c))
              (executions c))
| step_catch i error :
    calls c !! i = Some (AtCatch error) →
    let out := updateFailed key error (world c) in
    step c (mkConfig (snd out) (<[i := afterCatch error (fst out)]> (calls c))
              (executions c)).

(** [n] calls about to start on a database [w]. *)
Definition initial (w : World R T) (n : nat) : Config R T :=
  mkConfig w (replicate n AtClaim) 0.


End Steps.


End Concurrent.

(** ** Validation of the body as it is received

    [validatePayload(payload: any)] is written for any value.  Here the body
    is a JSON value; a string is the sequence of its code units, and the
    parser behind [new Date(string)] is a parameter. *)

Module Json.
Unset Elimination Schemes.
Inductive t :=
| JNull
| JBool (b : bool)
| JNumber (n : Qc)
| JString (s : string)
| JArray (items : list t)
| JObject (fields : gmap string t).
Set Elimination Schemes.

(** The value as a condition: [null], [false], [0] and [''] are falsy. *)
Definition truthy (v : t) : bool :=
  match v with
  | JNull => false
  | JBool b => b
  | JNumber n => bool_decide (n ≠ 0%Qc)
  | JString s => bool_decide (s ≠ "")
  | JArray _ | JObject _ => true
  end.

(** [typeof v] *)
Definition typeof (v : t) : string :=
  match v with
  | JNull | JArray _ | JObject _ => "object"
  | JBool _ => "boolean"
  | JNumber _ => "number"
  | JString _ => "string"
  end.

(** [v.k], for the names the validator reads; [None] is [undefined].  An
    array has none of these names. *)
Definition get (k : string) (v : t) : option t :=
  match v with
  | JObject fields => fields !! k
  | _ => None
  end.

(** [k in v], for an object or an array. *)
Definition has (k : string) (v : t) : bool := bool_decide (is_Some (get k v)).

(** [v.k = x] on an object. *)
Definition set (k : string) (x : t) (v : t) : t :=
  match v with
  | JObject fields => JObject (<[k := x]> fields)
  | _ => v
  end.

(** A property read as a condition, and its [typeof]. *)
Definition truthyOpt (o : option t) : bool :=
  match o with
  | Some v => truthy v
  | None => false
  end.

Definition typeofOpt (o : option t) : string :=
  match o with
  | Some v => typeof v
  | None => "undefined"
  end.

(** [Number.isInteger(n)] *)
Definition isInteger (n : Qc) : bool := bool_decide (Qden (this n) = 1%positive).
End Json.

Module Raw.
Import Json.

(** [!payload.f || typeof payload.f !== 'string'] *)
Definition notAString (o : option Json.t) : bool :=
  negb (truthyOpt o) || bool_decide (typeofOpt o ≠ "string").

(** [payload.idempotencyKey.length > 128], the key being a string. *)
Definition tooLong (o : option Json.t) : bool :=
  match o with
  | Some (JString s) => bool_decide (128 < String.length s)%nat
  | _ => false
  end.

(** [['start', 'update', 'end'].includes(payload.eventType)] *)
Definition eventTypeOf (o : option Json.t) : option EventType :=
  match o with
  | Some (JString s) =>
      if bool_decide (s = "start") then Some start
      else if bool_decide (s = "update") then Some update
      else if bool_decide (s = "end") then Some end_
      else None
  | _ => None
  end.

(** [typeof x !== 'number' || x < lo || x > hi] *)
Definition notANumberWithin (o : option Json.t) (lo hi : Z) : bool :=
  match o with
  | Some (JNumber x) => bool_decide (x < Js.num lo)%Qc || bool_decide (Js.num hi < x)%Qc
  | _ => true
  end.

(** [typeof x !== 'number' || x < 0 || !Number.isInteger(x)] *)
Definition notASequence (o : option Json.t) : bool :=
  match o with
  | Some (JNumber x) => bool_decide (x < 0)%Qc || negb (isInteger x)
  | _ => true
  end.

(** Lines 64-100, [metrics] being what [payload.metrics] reads. *)
Definition validateMetrics (metrics : option Json.t) : option string :=
  match metrics with
  | Some m =>
      if truthy m
      then
        if bool_decide (typeof m ≠ "object") then Some "Invalid metrics format"
        else if has "calories" m && notANumberWithin (get "calories" m) 0 1000
        then Some "Invalid calories (0-1000)"
        else if has "distance" m && notANumberWithin (get "distance" m) 0 100000
        then Some "Invalid distance (0-100km)"
        else if has "heartRate" m && notANumberWithin (get "heartRate" m) 30 250
        then Some "Invalid heart rate (30-250)"
        else if has "duration" m && notANumberWithin (get "duration" m) 0 14400
        then Some "Invalid duration (0-4 hours)"
        else None
      else None
  | None => None
  end.

Section Validate.
Context {R T : Type}.
(** [new Date(s).getTime()]; [None] is [NaN]. *)
Variable parseDate : string → option Z.

(** [validatePayload(payload)]: the error, or [None] for [null], and the
    payload, on which the two drift flags may have been set. *)
Definition validatePayload (payload : Json.t) : M R T (option string * Json.t) :=
  if negb (truthy payload) || bool_decide (typeof payload ≠ "object")
  then ret (Some "Invalid request body", payload)
  else if notAString (get "idempotencyKey" payload)
  then ret (Some "Missing or invalid idempotency key", payload)
  else if tooLong (get "idempotencyKey" payload)
  then ret (Some "Idempotency key too long (max 128 chars)", payload)
  else if notAString (get "sessionId" payload)
  then ret (Some "Missing or invalid session ID", payload)
  else if notAString (get "userId" payload)
  then ret (Some "Missing or invalid user ID", payload)
  else if notAString (get "eventId" payload)
  then ret (Some "Missing or invalid event ID", payload)
  else if bool_decide (eventTypeOf (get "eventType" payload) = None)
  then ret (Some "Invalid event type", payload)
  else if notAString (get "timestamp" payload)
  then ret (Some "Missing or invalid timestamp", payload)
  else
    match
      match get "timestamp" payload with
      | Some (JString s) => parseDate s
      | _ => None
      end
    with
    | None => ret (Some "Invalid timestamp format", payload)
    | Some timestamp =>
        nowMs <- now ;;
        if timestamp <? nowMs - oneWeek
        then ret (Some "Timestamp too old (max 1 week)", payload)
        else if timestamp >? nowMs + oneHour
        then ret (Some "Timestamp too far in future (max 1 hour)", payload)
        else
          let payload :=
            if timestamp <? nowMs - oneHour
            then set "_clockDriftDetected" (JBool true)
                   (set "_requiresReconciliation" (JBool true) payload)
            else payload in
          match validateMetrics (get "metrics" payload) with
          | Some e => ret (Some e, payload)
          | None =>
              if has "eventSequence" payload
                 && notASequence (get "eventSequence" payload)
              then ret (Some "Invalid event sequence", payload)
              else ret (None, payload)
          end
    end.
End Validate.
End Raw.

(** *** Bodies and typed requests *)

Module Wire.
Import Json.

(** How the handler's code reads the fields of a body: a string, a number,
    an integer, and a flag, which counts by its truthiness. *)
Definition stringOf (o : option Json.t) : option string :=
  match o with
  | Some (JString s) => Some s
  | _ => None
  end.

Definition numberOf (o : option Json.t) : option Qc :=
  match o with
  | Some (JNumber x) => Some x
  | _ => None
  end.

Definition integerOf (o : option Json.t) : option Z :=
  match o with
  | Some (JNumber x) => if isInteger x then Some (Qnum (this x)) else None
  | _ => None
  end.

Definition flagOf (o : option Json.t) : option bool := truthy <$> o.

(** [payload.metrics], when it is truthy, with its four readings. *)
Definition metricsOf (o : option Json.t) : option EventMetrics.t :=
  match o with
  | Some m =>
      if truthy m
      then Some (EventMetrics.mk (numberOf (get "calories" m)) (numberOf (get "distance" m))
                   (numberOf (get "heartRate" m)) (numberOf (get "duration" m)))
      else None
  | None => None
  end.

(** The typed request a body stands for, if it is one. *)
Definition decode (parseDate : string → option Z) (payload : Json.t)
  : option IngestRequest.t :=
  idempotencyKey ← stringOf (get "idempotencyKey" payload);
  sessionId ← stringOf (get "sessionId" payload);
  userId ← stringOf (get "userId" payload);
  eventId ← stringOf (get "eventId" payload);
  eventType ← Raw.eventTypeOf (get "eventType" payload);
  timestamp ← stringOf (get "timestamp" payload) ≫= parseDate;
  Some (IngestRequest.mk idempotencyKey sessionId userId eventId eventType timestamp
          (metricsOf (get "metrics" payload))
          (integerOf (get "eventSequence" payload))
          (flagOf (get "_requiresReconciliation" payload))
          (flagOf (get "_clockDriftDetected" payload))).

(** Nothing is lost in [decode]: every reading that is present is a number,
    and so is the sequence number. *)
Definition numeric (payload : Json.t) : Prop :=
  (∀ m, get "metrics" payload = Some m → truthy m = true →
        ∀ k, k ∈ ["calories"; "distance"; "heartRate"; "duration"] →
             ∀ v, get k m = Some v → ∃ x, v = JNumber x) ∧
  (∀ v, get "eventSequence" payload = Some v → ∃ n : Z, v = JNumber (Js.num n)).

(** The body a typed request is sent as, [timestamp] being its ISO
    string. *)
Definition optional (k : string) (o : option Json.t) (fields : gmap string Json.t)
  : gmap string Json.t :=
  match o with
  | Some v => <[k := v]> fields
  | None => fields
  end.

Definition eventTypeName (eventType : EventType) : string :=
  match eventType with
  | start => "start"
  | update => "update"
  | end_ => "end"
  end.

Definition encodeMetrics (m : EventMetrics.t) : Json.t :=
  JObject
    (optional "calories" (JNumber <$> EventMetrics.calories m)
       (optional "distance" (JNumber <$> EventMetrics.distance m)
          (optional "heartRate" (JNumber <$> EventMetrics.heartRate m)
             (optional "duration" (JNumber <$> EventMetrics.duration m) ∅)))).

Definition encode (timestamp : string) (p : IngestRequest.t) : Json.t :=
  let required : gmap string Json.t :=
    <["idempotencyKey" := JString (IngestRequest.idempotencyKey p)]>
      (<["sessionId" := JString (IngestRequest.sessionId p)]>
         (<["userId" := JString (IngestRequest.userId p)]>
            (<["eventId" := JString (IngestRequest.eventId p)]>
               (<["eventType" := JString (eventTypeName (IngestRequest.eventType p))]>
                  {["timestamp" := JString timestamp]})))) in
  JObject
    (optional "_clockDriftDetected" (JBool <$> IngestRequest._clockDriftDetected p)
       (optional "_requiresReconciliation"
          (JBool <$> IngestRequest._requiresReconciliation p)
          (optional "eventSequence"
             (JNumber ∘ Js.num <$> IngestRequest.eventSequence p)
             (optional "metrics" (encodeMetrics <$> IngestRequest.metrics p)
                required)))).
End Wire.

(** ** The counter documents and the dashboard ([src/metrics.ts])

    For an [event_ingested] signal [logMetrics] writes the document of the
    day, [metrics/daily_<date>], and the document of the day and the user
    beneath it; for a [duplicate_event] signal it adds a document to the
    day's [duplicates].  [set(data, { merge: true })] creates the document
    when there is none and otherwise writes the fields of [data] only;
    [FieldValue.increment(n)] adds [n] to a field that holds a number and
    writes [n] to a field that is absent.  The day of the wall clock,
    [new Date().toISOString().split('T')[0]], and the commit time of the
    write are parameters; the writes are taken to succeed. *)

Module Counters.

Record Totals := mkTotals {
  requests : option Z;
  duplicates : option Z;
  clockDrift : option Z;
  outOfOrder : option Z;
}.

Record Daily := mkDaily {
  date : string;
  lastUpdated : Z;
  totals : option Totals;
  byEventType : option (gmap string Z);
}.

Record UserDoc := mkUserDoc {
  userId : string;
  userRequests : option Z;
  lastEventType : EventType;
  lastSeen : Z;
}.

Record DuplicateDoc := mkDuplicateDoc {
  sessionId : string;
  eventId : string;
  eventType : EventType;
  timestamp : Z;
}.

(** The [metrics] collection: the daily documents by their date, the user
    documents by the date of their parent and their user id, and the
    duplicate documents, whose ids are generated, in the order of their
    creation. *)
Record Sink := mkSink {
  daily : gmap string Daily;
  users : gmap (string * string) UserDoc;
  duplicateDocs : list (string * DuplicateDoc);
}.

Definition empty : Sink := mkSink ∅ ∅ [].

(** [FieldValue.increment(n)] *)
Definition increment (n : Z) (field : option Z) : option Z :=
  Some (default 0 field + n).

(** [flag ? 1 : 0] *)
Definition oneIf (flag : option bool) : Z :=
  if Js.truthyBool flag then 1 else 0.

(** [data.outOfOrder]: neither signal of the ingest path has the field. *)
Definition outOfOrderOf (m : Metric) : option bool := None.

Section Store.
Variables (today : string) (commitTime : Z).

(** Lines 24-36 *)
Definition setDaily (isDuplicate clockDriftDetected flagged : option bool)
    (type : string) (doc : option Daily) : Daily :=
  let old := doc ≫= totals in
  let types := default ∅ (doc ≫= byEventType) in
  mkDaily today commitTime
    (Some (mkTotals
             (increment 1 (old ≫= requests))
             (increment (oneIf isDuplicate) (old ≫= duplicates))
             (increment (oneIf clockDriftDetected) (old ≫= clockDrift))
             (increment (oneIf flagged) (old ≫= outOfOrder))))
    (Some (<[type := default 0 (increment 1 (types !! type))]> types)).

(** Lines 39-45 *)
Definition setUser (user : string) (type : EventType) (doc : option UserDoc)
  : UserDoc :=
  mkUserDoc user (increment 1 (doc ≫= userRequests)) type commitTime.

(** The writes of [logMetrics] (lines 19-60). *)
Definition store (m : Metric) (s : Sink) : Sink :=
  match m with
  | event_ingested _ user type isDuplicate _ clockDriftDetected =>
      mkSink
        (<[today := setDaily (Some isDuplicate) (Some clockDriftDetected)
                      (outOfOrderOf m) (Wire.eventTypeName type) (daily s !! today)]>
           (daily s))
        (<[(today, user) := setUser user type (users s !! (today, user))]> (users s))
        (duplicateDocs s)
  | duplicate_event session event type =>
      mkSink (daily s) (users s)
        (duplicateDocs s ++ [(today, mkDuplicateDoc session event type commitTime)])
  end.
End Store.

(** A signal with the day and the instant it is logged at. *)
Definition Logged : Type := string * Z * Metric.

Definition storeAll (signals : list Logged) (s : Sink) : Sink :=
  foldl (λ s l, store l.1.1 l.1.2 l.2 s) s signals.

(** *** [getMetricsDashboard] *)

Record DailyMetric := mkDailyMetric {
  dmDate : string;
  totalRequests : Z;
  uniqueUsers : nat;
  duplicateRate : Qc;
  clockDriftRate : Qc;
  outOfOrderRate : Qc;
  eventTypes : gmap string Z;
}.

Record Alerts := mkAlerts {
  highDuplicateRate : bool;
  highClockDrift : bool;
  highOutOfOrder : bool;
  reconciliationBacklog : bool;
}.

Record Dashboard := mkDashboard {
  dailyMetrics : list DailyMetric;
  activeSessions : nat;
  pendingReconciliation : nat;
  healthLastUpdated : Z;
  alerts : Alerts;
}.

(** [data.totals?.requests > 0 ? ((data.totals?.f || 0) / data.totals.requests * 100) : 0] *)
Definition rate (data : Daily) (f : Totals → option Z) : Qc :=
  match totals data ≫= requests with
  | Some total =>
      if bool_decide (0 < total)
      then (Js.num (Js.orInt (totals data ≫= f) 0) / Js.num total * Js.num 100)%Qc
      else 0%Qc
  | None => 0%Qc
  end.

(** [doc.ref.collection('users').count()] *)
Definition userCount (s : Sink) (day : string) : nat :=
  size (filter (λ entry, entry.1.1 = day) (users s)).

(** Lines 97-111 *)
Definition dailyMetric (s : Sink) (doc : string * Daily) : DailyMetric :=
  let data := doc.2 in
  mkDailyMetric
    (date data)
    (Js.orInt (totals data ≫= requests) 0)
    (userCount s doc.1)
    (rate data duplicates)
    (rate data clockDrift)
    (rate data outOfOrder)
    (default ∅ (byEventType data)).

(** The order of the query: [orderBy('date', 'desc')] on strings. *)
Definition laterDate (a b : string * Daily) : Prop :=
  String.leb (date b.2) (date a.2).

(** Lines 83-89: the documents with [startDate <= date <= endDate], latest
    first, thirty at most. *)
Definition metricsQuery (startDate endDate : string) (s : Sink)
  : list (string * Daily) :=
  take 30
    (merge_sort laterDate
       (filter (λ doc, String.leb startDate (date doc.2) ∧ String.leb (date doc.2) endDate)
          (map_to_list (daily s)))).

(** [metrics.some(m => rate(m) > limit)] *)
Definition some (limit : Z) (f : DailyMetric → Qc) (metrics : list DailyMetric) : bool :=
  existsb (λ m, bool_decide (Js.num limit < f m)%Qc) metrics.

Definition getMetricsDashboard {R T} (startDate endDate : string) (s : Sink)
    (w : World R T) : Dashboard :=
  let metrics := dailyMetric s <$> metricsQuery startDate endDate s in
  let activeSessionsCount :=
    size (filter (λ doc, ExerciseSession.status doc.2 = active) (sessions w)) in
  let pendingReconciliation :=
    size (filter (λ doc, ExerciseSession.requiresReconciliation doc.2 = Some true)
            (sessions w)) in
  mkDashboard metrics activeSessionsCount pendingReconciliation (clock w (tick w))
    (mkAlerts
       (some 10 duplicateRate metrics)
       (some 5 clockDriftRate metrics)
       (some 15 outOfOrderRate metrics)
       (bool_decide (100 < pendingReconciliation)%nat)).

End Counters.

(** ** Auxiliary definitions for the statements *)

(** The database after [n] more readings of the clock and nothing else. *)
Definition elapse {R T} (n : nat) (w : World R T) : World R T :=
  mkWorld (idempotency w) (sessions w) (events w) (metricsLog w) (clock w) (n + tick w).

(** [w'] differs from [w] by clock readings only. *)
Definition ticked {R T} (w w' : World R T) : Prop :=
  idempotency w' = idempotency w ∧ sessions w' = sessions w ∧ events w' = events w ∧
  metricsLog w' = metricsLog w ∧ clock w' = clock w ∧ (tick w ≤ tick w')%nat.

(** What an event's metrics make of a session's aggregate, before the
    duration is recomputed. *)
Definition foldMetrics (payload : IngestRequest.t) (sm : SessionMetrics.t)
  : SessionMetrics.t :=
  match IngestRequest.metrics payload with
  | Some m => foldHeartRate m (maxDistance m (addCalories m sm))
  | None => sm
  end.

(** The value of an outcome, if it is one. *)
Definition returned {A} (r : Result A) : option A :=
  match r with
  | Ok a => Some a
  | Throw _ => None
  end.

(** One request after another. *)
Definition andThen (first second : Handler HttpResponse)
  : Handler (HttpResponse * HttpResponse) :=
  a <- first ;; b <- second ;; ret (a, b).

(** [payload.metrics?.f] *)
Definition metricOf (payload : IngestRequest.t) (f : EventMetrics.t → option Qc)
  : option Qc :=
  match IngestRequest.metrics payload with
  | Some m => f m
  | None => None
  end.

(** The watermark the merge leaves, whatever the out-of-order verdict. *)
Definition watermarkSequence (session : ExerciseSession.t) (payload : IngestRequest.t)
  : Z :=
  Z.max (default 0 (ExerciseSession.lastEventSequence session))
        (default 0 (IngestRequest.eventSequence payload)).

Definition watermarkTime (session : ExerciseSession.t) (payload : IngestRequest.t) : Z :=
  match ExerciseSession.lastEventTime session with
  | Some lastEventTime => Z.max lastEventTime (IngestRequest.timestamp payload)
  | None => IngestRequest.timestamp payload
  end.

Definition isOutOfOrder (payload : IngestRequest.t) (session : ExerciseSession.t) : bool :=
  sequenceOutOfOrder payload session || timeOutOfOrder payload session.

(** What the commit at time [t] stores for a merge that ends with the session
    object [session] and the verdict [outOfOrder]. *)
Definition committed {R T} (w : World R T) (payload : IngestRequest.t)
    (session : ExerciseSession.t) (outOfOrder : bool) (readings : nat) : World R T :=
  let t := clock w readings in
  mkWorld (idempotency w)
    (<[IngestRequest.sessionId payload := ExerciseSession.resolve t session]> (sessions w))
    (<[IngestRequest.eventId payload := ExerciseEvent.resolve t (eventRecord payload outOfOrder)]>
       (events w))
    (metricsLog w) (clock w) (S readings).

(** What [mergeIntoSession] makes of [session]: the watermark is raised in
    both cases; a flagged event changes nothing else than the reconciliation
    fields, an accepted one goes through the aggregator. *)
Definition mergeFacts (payload : IngestRequest.t) (session merged : ExerciseSession.t)
  : Prop :=
  ExerciseSession.lastEventSequence merged = Some (watermarkSequence session payload) ∧
  ExerciseSession.lastEventTime merged = Some (watermarkTime session payload) ∧
  ExerciseSession.sessionId merged = ExerciseSession.sessionId session ∧
  if isOutOfOrder payload session
  then
    ExerciseSession.requiresReconciliation merged = Some true ∧
    ExerciseSession.reconciliationReason merged = Some out_of_order ∧
    ExerciseSession.version merged = ExerciseSession.version session ∧
    ExerciseSession.lastUpdated merged = ExerciseSession.lastUpdated session ∧
    ExerciseSession.metrics merged = ExerciseSession.metrics session
  else
    ExerciseSession.requiresReconciliation merged
    = ExerciseSession.requiresReconciliation session ∧
    ExerciseSession.reconciliationReason merged
    = ExerciseSession.reconciliationReason session ∧
    ExerciseSession.version merged = ExerciseSession.version session + 1 ∧
    ExerciseSession.lastUpdated merged = ServerTimestamp ∧
    ∃ totalDuration,
      ExerciseSession.metrics merged
      = SessionMetrics.set_totalDuration totalDuration
          (foldMetrics payload (ExerciseSession.metrics session)).

(** The database a successful claim leaves when the record is stamped with
    the [readings]-th next reading of the clock; the commit takes one more
    reading. *)
Definition claimedWorld {R T} (key : string) (request : R) (w : World R T)
    (readings : nat) : World R T :=
  mkWorld (<[key := processingRecord key request (clock w (pred readings + tick w))]>
             (idempotency w))
    (sessions w) (events w) (metricsLog w) (clock w) (S readings + tick w).

(** The database after [docRef.update] has completed the record [data] of
    [key] with [response]. *)
Definition completedWorld {R T} (key : string) (response : T)
    (data : IdempotencyRecord.t R T) (w : World R T) : World R T :=
  mkWorld (<[key := completedFields response (clock w (tick w)) data]> (idempotency w))
    (sessions w) (events w) (metricsLog w) (clock w) (S (tick w)).

(** The database after [docRef.update] has marked the record [data] of [key]
    as failed with [error]. *)
Definition failedWorld {R T} (key : string) (error : string)
    (data : IdempotencyRecord.t R T) (w : World R T) : World R T :=
  mkWorld (<[key := failedFields error (clock w (tick w)) data]> (idempotency w))
    (sessions w) (events w) (metricsLog w) (clock w) (S (tick w)).

(** [w'] holds the sessions and events of [w], and its idempotency records
    except possibly that of [key]. *)
Definition touchesOnly {R T} (key : string) (w w' : World R T) : Prop :=
  sessions w' = sessions w ∧ events w' = events w ∧
  ∀ k, k ≠ key → idempotency w' !! k = idempotency w !! k.

(** *** The invariant of concurrent calls on one key *)

(** The instant from which a [processing] record ages: [processingStartedAt],
    or [createdAt] without one (lines 36-38). *)
Definition startedOrCreated {R T} (data : IdempotencyRecord.t R T) : Z :=
  match IdempotencyRecord.processingStartedAt data with
  | Some startedAt => startedAt
  | None => IdempotencyRecord.createdAt data
  end.





(** The messages [validatePayload] returns for a well-typed body. *)
Definition validationErrors : list string :=
  ["Missing or invalid idempotency key";
   "Idempotency key too long (max 128 chars)";
   "Missing or invalid session ID";
   "Missing or invalid user ID";
   "Missing or invalid event ID";
   "Timestamp too old (max 1 week)";
   "Timestamp too far in future (max 1 hour)";
   "Invalid calories (0-1000)";
   "Invalid distance (0-100km)";
   "Invalid heart rate (30-250)";
   "Invalid duration (0-4 hours)";
   "Invalid event sequence"].

(** The signal [processEvent] sends when the Event document exists. *)
Definition duplicateSignals {R T} (payload : IngestRequest.t) (w : World R T)
  : list Metric :=
  match events w !! IngestRequest.eventId payload with
  | Some _ => [duplicate_event (IngestRequest.sessionId payload)
                 (IngestRequest.eventId payload) (IngestRequest.eventType payload)]
  | None => []
  end.

(** The signal the endpoint sends after a guarded call that returned
    (lines 40-47). *)
Definition ingestedSignal (payload : IngestRequest.t) (isNew : bool) : Metric :=
  event_ingested
    (IngestRequest.sessionId payload)
    (IngestRequest.userId payload)
    (IngestRequest.eventType payload)
    (negb isNew)
    (Js.orInt (IngestRequest.eventSequence payload) 0)
    (Js.truthyBool (IngestRequest._clockDriftDetected payload)).

(** The two payloads agree on every field the client is meant to send. *)
Definition sameBut_flags (p q : IngestRequest.t) : Prop :=
  q = IngestRequest.set_flags (IngestRequest._requiresReconciliation q)
        (IngestRequest._clockDriftDetected q) p.

(** [endTime] after an [end] event at [eventTime] (lines 225-227). *)
Definition laterEnd (endTime : option Z) (eventTime : Z) : Z :=
  match endTime with
  | Some e => Z.max e eventTime
  | None => eventTime
  end.

(** The instants of a session are in order: it started no later than it
    ended, and it ended no later than its last event. *)
Definition wellTimed (session : ExerciseSession.t) : Prop :=
  ∃ lastEventTime,
    ExerciseSession.lastEventTime session = Some lastEventTime ∧
    ExerciseSession.startTime session ≤ lastEventTime ∧
    match ExerciseSession.endTime session with
    | Some endTime => ExerciseSession.startTime session ≤ endTime ≤ lastEventTime
    | None => True
    end.

(** An event that is merged and not flagged out-of-order. *)
Definition accepted (payload : IngestRequest.t) (session : ExerciseSession.t) : bool :=
  negb (isOutOfOrder payload session).

(** What a merge makes of the life cycle of [session], [nowMs] being the
    reading of the clock the aggregator makes: a flagged event changes
    nothing of it; an accepted one goes through lines 216-229 and 264-271. *)
Definition lifecycleFacts (payload : IngestRequest.t) (session merged : ExerciseSession.t)
    (nowMs : Z) : Prop :=
  let eventTime := IngestRequest.timestamp payload in
  ExerciseSession.userId merged = ExerciseSession.userId session ∧
  ExerciseSession.startTime merged
  = (if accepted payload session && bool_decide (IngestRequest.eventType payload = start)
     then Z.min (ExerciseSession.startTime session) eventTime
     else ExerciseSession.startTime session) ∧
  ExerciseSession.endTime merged
  = (if accepted payload session && bool_decide (IngestRequest.eventType payload = end_)
     then Some (laterEnd (ExerciseSession.endTime session) eventTime)
     else ExerciseSession.endTime session) ∧
  ExerciseSession.status merged
  = (if accepted payload session && bool_decide (IngestRequest.eventType payload = end_)
     then completed
     else ExerciseSession.status session) ∧
  (accepted payload session = true →
   SessionMetrics.totalDuration (ExerciseSession.metrics merged)
   = (Js.num (match ExerciseSession.endTime merged with
              | Some endTime => endTime
              | None => nowMs
              end - ExerciseSession.startTime merged) / Js.num 1000)%Qc).

(** Every session of the database has its instants in order. *)
Definition wellTimedDb {R T} (w : World R T) : Prop :=
  ∀ id session, sessions w !! id = Some session → wellTimed session.

(** An optional measurement is absent or within [lo, hi]. *)
Definition within (o : option Qc) (lo hi : Z) : Prop :=
  ∀ x, o = Some x → (Js.num lo ≤ x)%Qc ∧ (x ≤ Js.num hi)%Qc.

(** What [validatePayload] asks of a well-typed payload at time [nowMs]. *)
Definition acceptable (payload : IngestRequest.t) (nowMs : Z) : Prop :=
  IngestRequest.idempotencyKey payload ≠ "" ∧
  (String.length (IngestRequest.idempotencyKey payload) ≤ 128)%nat ∧
  IngestRequest.sessionId payload ≠ "" ∧
  IngestRequest.userId payload ≠ "" ∧
  IngestRequest.eventId payload ≠ "" ∧
  nowMs - oneWeek ≤ IngestRequest.timestamp payload ≤ nowMs + oneHour ∧
  within (metricOf payload EventMetrics.calories) 0 1000 ∧
  within (metricOf payload EventMetrics.distance) 0 100000 ∧
  within (metricOf payload EventMetrics.heartRate) 30 250 ∧
  within (metricOf payload EventMetrics.duration) 0 14400 ∧
  (∀ n, IngestRequest.eventSequence payload = Some n → 0 ≤ n).

(** The payload as the validator hands it on: with both drift flags set
    when its timestamp is more than an hour old, and as received
    otherwise (lines 59-62). *)
Definition driftFlagged (payload : IngestRequest.t) (nowMs : Z) : IngestRequest.t :=
  if IngestRequest.timestamp payload <? nowMs - oneHour
  then IngestRequest.set_flags (Some true) (Some true) payload
  else payload.




(** The database after a sequence of requests, each with its method. *)
Fixpoint serve (requests : list (string * IngestRequest.t)) (w : Db) : Db :=
  match requests with
  | [] => w
  | (method, payload) :: rest =>
      serve rest (snd (ingestExerciseEvent method payload w))
  end.

(** The Event documents of session [id] that were merged without being
    flagged out-of-order. *)
Definition acceptedEvent (id : string) (entry : string * ExerciseEvent.t) : Prop :=
  ExerciseEvent.sessionId entry.2 = id ∧ ExerciseEvent.outOfOrder entry.2 = Some false.

#[export] Instance acceptedEvent_dec id entry : Decision (acceptedEvent id entry).
Proof. unfold acceptedEvent. apply _. Defined.

Definition acceptedEvents {R T} (id : string) (w : World R T) : nat :=
  size (filter (acceptedEvent id) (events w)).

(** Every Event document carries its own id and belongs to a session of the
    database, and the version of every session counts its accepted
    events. *)
Definition accounted {R T} (w : World R T) : Prop :=
  (∀ id event, events w !! id = Some event →
               ExerciseEvent.eventId event = id ∧
               is_Some (sessions w !! ExerciseEvent.sessionId event)) ∧
  (∀ id session, sessions w !! id = Some session →
                 ExerciseSession.version session = Z.of_nat (acceptedEvents id w)).

(** The counters of a day are consistent: the document is filed under its
    own date; it has counted [r ≥ 1] requests, of which between 0 and [r]
    were duplicates and between 0 and [r] had a drifting clock, and none was
    out of order; the three event types add up to [r]; and between 1 and [r]
    users were seen that day. *)
Definition countedDay (s : Counters.Sink) (day : string) (doc : Counters.Daily) : Prop :=
  Counters.date doc = day ∧
  ∃ r dup drift types,
    Counters.totals doc = Some (Counters.mkTotals (Some r) (Some dup) (Some drift) (Some 0)) ∧
    0 ≤ dup ≤ r ∧ 0 ≤ drift ≤ r ∧
    Counters.byEventType doc = Some types ∧
    (∀ type n, types !! type = Some n → 1 ≤ n ∧ type ∈ ["start"; "update"; "end"]) ∧
    default 0 (types !! "start") + default 0 (types !! "update")
    + default 0 (types !! "end") = r ∧
    (1 ≤ Counters.userCount s day)%nat ∧ Z.of_nat (Counters.userCount s day) ≤ r.

Definition counted (s : Counters.Sink) : Prop :=
  (∀ day doc, Counters.daily s !! day = Some doc → countedDay s day doc) ∧
  (∀ day user doc, Counters.users s !! (day, user) = Some doc →
                   is_Some (Counters.daily s !! day)).

(** The signals that reach the counters. *)
Definition isIngested (l : Counters.Logged) : Prop :=
  match l.2 with
  | event_ingested _ _ _ _ _ _ => True
  | duplicate_event _ _ _ => False
  end.

#[export] Instance isIngested_dec l : Decision (isIngested l).
Proof. unfold isIngested. destruct l.2; apply _. Defined.

(** ** Concrete data for the examples *)

Module Ex.

(** *** Clocks *)

(** A clock that advances by one second per reading. *)
Definition clock (n : nat) : Z := 1700000000000 + 1000 * Z.of_nat n.


(** *** Requests *)

Definition metrics : EventMetrics.t :=
  EventMetrics.mk (Some (Js.num 10)) (Some (Js.num 100)) (Some (Js.num 120))
    (Some (Js.num 60)).

(** An [update] for session-1 stamped at the first clock reading. *)
Definition request (key eventId : string) (eventSequence : option Z) : IngestRequest.t :=
  IngestRequest.mk key "session-1" "user-1" eventId update 1700000000000
    (Some metrics) eventSequence None None.

(** Sequence 6 follows the session's watermark 5; sequences 2 and 0 do
    not. *)
Definition next : IngestRequest.t := request "key-next" "event-next" (Some 6).
Definition late : IngestRequest.t := request "key-late" "event-late" (Some 2).
Definition zero : IngestRequest.t := request "key-zero" "event-zero" (Some 0).

(** The event of [next] once more, under another idempotency key. *)
Definition retry : IngestRequest.t := request "key-retry" "event-next" (Some 6).


(** A [start] event whose heart-rate reading is 0, with 60 seconds of
    reported duration. *)
Definition startAtRest : IngestRequest.t :=
  IngestRequest.mk "key-start" "session-2" "user-1" "event-start" start 1700000000000
    (Some (EventMetrics.mk None None (Some 0%Qc) (Some (Js.num 60)))) (Some 1) None None.

(** The requests of the repository's tests ([createTestRequest]): the
    default metrics, user "test-user", stamped [ago] milliseconds before the
    clock starts. *)
Definition createTestRequest (key sessionId eventId : string) (eventType : EventType)
    (ago eventSequence : Z) : IngestRequest.t :=
  IngestRequest.mk key sessionId "test-user" eventId eventType (1700000000000 - ago)
    (Some metrics) (Some eventSequence) None None.

(** *** Sessions *)

Definition sessionMetrics : SessionMetrics.t :=
  SessionMetrics.mk (Js.num 5) (Js.num 500) (Some (Js.num 1000)) (Some (Js.num 100))
    (Some (Js.num 60)).

(** session-1 after five events, the last one five seconds before the
    clock starts. *)
Definition session : ExerciseSession.t :=
  ExerciseSession.mk "session-1" "user-1" 1699999990000 None (DateAt 1699999995000)
    None (Some 1699999995000) (Some 5) 3 sessionMetrics active None None.

(** The same session, already marked for clock drift. *)
Definition drifted : ExerciseSession.t := ExerciseSession.flag clock_drift session.


(** The same session without heart-rate data yet. *)
Definition fresh : ExerciseSession.t :=
  ExerciseSession.set_metrics
    (SessionMetrics.mk 0%Qc 0%Qc (Some 0%Qc) None (Some 0%Qc)) session.

(** *** Idempotency records *)

(** "key-next" claimed five seconds before the clock starts, and the
    response it is completed with one second later. *)
Definition claimed : IdempotencyRecord.t IngestRequest.t IngestResponse :=
  processingRecord "key-next" next 1699999995000.
Definition reply : IngestResponse := already_processed "session-1" "cached".

(** The guard around a processor whose response is of type [any]: a
    completed record that holds the response [null]. *)
Definition completedNull : IdempotencyRecord.t string Js.value :=
  completedFields Js.Null 1699999996000 (processingRecord "key-1" "request" 1699999995000).

(** *** Databases *)

Definition empty : Db := mkWorld ∅ ∅ ∅ [] clock 0.
Definition db : Db := mkWorld ∅ {["session-1" := session]} ∅ [] clock 0.
Definition dbDrifted : Db := mkWorld ∅ {["session-1" := drifted]} ∅ [] clock 0.
Definition dbClaimed : Db :=
  mkWorld {["key-next" := claimed]} {["session-1" := session]} ∅ [] clock 0.
Definition dbCompleted : Db :=
  mkWorld {["key-next" := completedFields reply 1699999996000 claimed]}
    {["session-1" := session]} ∅ [] clock 0.
Definition dbNull : World string Js.value :=
  mkWorld {["key-1" := completedNull]} ∅ ∅ [] clock 0.

(** *** Runs *)

(** The update with sequence 6 submitted under "key-next", and then the same
    event under "key-retry". *)
Definition merged : Result (bool * IngestResponse) * Db :=
  processWithIdempotency "key-next" next (processEvent next) db.
Definition retried : Result (bool * IngestResponse) * Db :=
  processWithIdempotency "key-retry" retry (processEvent retry) (snd merged).

End Ex.

(** Further data: stale, expired and failed keys, retries, the end of a
    session, a drifting clock and a body as received. *)
Module Scenario.

(** A clock that starts two days after the records of [Ex] were written. *)
Definition later (n : nat) : Z := 1700172800000 + 1000 * Z.of_nat n.

(** "key-next" was claimed and never finished; the clock has moved on by
    five minutes, and by two days. *)
Definition dbStale : Db :=
  mkWorld {["key-next" := Ex.claimed]} {["session-1" := Ex.session]} ∅ []
    (λ n, 1700000295000 + 1000 * Z.of_nat n) 0.
Definition dbExpired : Db :=
  mkWorld {["key-next" := Ex.claimed]} {["session-1" := Ex.session]} ∅ [] later 0.

(** "key-next" failed one second after it was claimed. *)
Definition failed : IdempotencyRecord.t IngestRequest.t IngestResponse :=
  failedFields "Cannot create session without start event" 1699999996000 Ex.claimed.
Definition dbFailed : Db :=
  mkWorld {["key-next" := failed]} {["session-1" := Ex.session]} ∅ [] Ex.clock 0.

(** A request that shares its idempotency key with [Ex.next] and nothing
    else. *)
Definition other : IngestRequest.t :=
  IngestRequest.mk "key-next" "session-9" "user-9" "event-9" end_ 1700000000000
    None None None None.

(** [Ex.next] sent to a database in which its key is completed. *)
Definition replayed : Result HttpResponse * Db :=
  ingestExerciseEvent "POST" Ex.next Ex.dbCompleted.

(** An update for a session nobody has started. *)
Definition orphan : IngestRequest.t :=
  IngestRequest.mk "key-1" "missing-session" "user-1" "event-1" update 1700000000000
    (Some Ex.metrics) (Some 1) None None.

(** The event that ends session-1. *)
Definition finish : IngestRequest.t :=
  IngestRequest.mk "key-end" "session-1" "user-1" "event-end" end_ 1700000000000
    (Some Ex.metrics) (Some 6) None None.

(** A [start] event stamped two hours before the clock starts. *)
Definition old : IngestRequest.t :=
  Ex.createTestRequest "key-1" "clock-drift-test" "event-1" start (2 * oneHour) 1.

(** A parser that knows one date, and the body of [Ex.next] with it. *)
Definition iso : string := "2023-11-14T22:13:20.000Z".
Definition parse (s : string) : option Z :=
  if bool_decide (s = iso) then Some 1700000000000 else None.
Definition body : Json.t := Wire.encode iso Ex.next.

(** Three signals of one day: a request, its replay, and a business-level
    duplicate. *)
Definition signals : list Counters.Logged :=
  [("2023-11-14", 1700000000000, event_ingested "session-1" "user-1" start false 1 false);
   ("2023-11-14", 1700000001000, event_ingested "session-1" "user-1" start true 1 false);
   ("2023-11-14", 1700000002000, duplicate_event "session-1" "event-1" start)].

(** A database that holds the event of [Ex.next]. *)
Definition dbStored : Db :=
  mkWorld ∅ {["session-1" := Ex.session]}
    {["event-next" := ExerciseEvent.resolve 1699999990000 (eventRecord Ex.next false)]}
    [] Ex.clock 0.

End Scenario.

(** * Properties *)

(** ** Numbers *)


Lemma orNum_zero (o : option Qc) : Js.orNum o 0%Qc = default 0%Qc o.
Proof.
  destruct o as [x|]; simpl; [|done].
  case_bool_decide as Hx; [done|].
  destruct (decide (x = 0%Qc)) as [->|Hne]; [done|by destruct Hx].
Qed.

Lemma orInt_zero (o : option Z) : Js.orInt o 0 = default 0 o.
Proof.
  destruct o as [x|]; simpl; [|done].
  case_bool_decide; lia.
Qed.



(** [Math.max(duration || 1, 1)] is [max(duration, 1)], and [1] without a
    reported duration. *)
Lemma duration_floor (o : option Qc) :
  Js.max (Js.orNum o 1%Qc) 1%Qc = Js.max (default 1%Qc o) 1%Qc.
Proof.
  destruct o as [d|]; simpl; [|done].
  case_bool_decide as Hd; [done|].
  destruct (decide (d = 0%Qc)) as [->|Hne]; [done|by destruct Hd].
Qed.


(** ** The aggregator *)




Lemma ticked_refl {R T} (w : World R T) : ticked w w.
Proof. by repeat split. Qed.

Lemma ticked_now {R T} (w : World R T) : ticked w (snd (now w)).
Proof. repeat split; simpl; lia. Qed.

(** [updateSessionMetrics] always returns; it reads the clock at most once,
    bumps the version, requests a server timestamp, folds the metrics and
    leaves the reconciliation and tracking fields alone. *)
Lemma updateSessionMetrics_run {R T} session payload (w : World R T) :
  ∃ session' w',
    updateSessionMetrics session payload w = (Ok session', w') ∧
    ticked w w' ∧
    ExerciseSession.version session' = ExerciseSession.version session + 1 ∧
    ExerciseSession.lastUpdated session' = ServerTimestamp ∧
    ExerciseSession.requiresReconciliation session'
    = ExerciseSession.requiresReconciliation session ∧
    ExerciseSession.reconciliationReason session'
    = ExerciseSession.reconciliationReason session ∧
    ExerciseSession.lastEventSequence session'
    = ExerciseSession.lastEventSequence session ∧
    ExerciseSession.lastEventTime session' = ExerciseSession.lastEventTime session ∧
    ExerciseSession.sessionId session' = ExerciseSession.sessionId session ∧
    ∃ totalDuration,
      ExerciseSession.metrics session'
      = SessionMetrics.set_totalDuration totalDuration
          (foldMetrics payload (ExerciseSession.metrics session)).
Proof.
  unfold updateSessionMetrics, foldMetrics.
  set (s1 := if bool_decide (IngestRequest.eventType payload = start) then _ else _).
  set (s2 := if bool_decide (IngestRequest.eventType payload = end_) then _ else _).
  set (s3 := match IngestRequest.metrics payload with Some _ => _ | None => _ end).
  assert (Hfields :
    ExerciseSession.version s3 = ExerciseSession.version session ∧
    ExerciseSession.requiresReconciliation s3
    = ExerciseSession.requiresReconciliation session ∧
    ExerciseSession.reconciliationReason s3
    = ExerciseSession.reconciliationReason session ∧
    ExerciseSession.lastEventSequence s3 = ExerciseSession.lastEventSequence session ∧
    ExerciseSession.lastEventTime s3 = ExerciseSession.lastEventTime session ∧
    ExerciseSession.sessionId s3 = ExerciseSession.sessionId session ∧
    ExerciseSession.metrics s3
    = match IngestRequest.metrics payload with
      | Some m => foldHeartRate m (maxDistance m (addCalories m (ExerciseSession.metrics session)))
      | None => ExerciseSession.metrics session
      end).
  { subst s3 s2 s1.
    destruct (IngestRequest.metrics payload);
      repeat case_bool_decide; repeat case_match; simpl; done. }
  destruct Hfields as (Hv & Hrr & Hreason & Hseq & Htime & Hid & Hm).
  destruct (ExerciseSession.endTime s3) as [endTime|] eqn:Hend.
  - eexists _, _. split; [reflexivity|]. split; [apply ticked_refl|].
    simpl. rewrite Hv, Hrr, Hreason, Hseq, Htime, Hid, Hm. eauto 10.
  - eexists _, _. split; [reflexivity|]. split; [apply (ticked_now w)|].
    simpl. rewrite Hv, Hrr, Hreason, Hseq, Htime, Hid, Hm. eauto 10.
Qed.

(** ** The merge into an existing session *)

Lemma tracking_fields session payload :
  let s2 := updateTracking session payload in
  ExerciseSession.lastEventSequence s2 = Some (watermarkSequence session payload) ∧
  ExerciseSession.lastEventTime s2 = Some (watermarkTime session payload) ∧
  ExerciseSession.sessionId s2 = ExerciseSession.sessionId session ∧
  ExerciseSession.requiresReconciliation s2 = ExerciseSession.requiresReconciliation session ∧
  ExerciseSession.reconciliationReason s2 = ExerciseSession.reconciliationReason session ∧
  ExerciseSession.version s2 = ExerciseSession.version session ∧
  ExerciseSession.lastUpdated s2 = ExerciseSession.lastUpdated session ∧
  ExerciseSession.metrics s2 = ExerciseSession.metrics session.
Proof.
  unfold updateTracking, watermarkSequence, watermarkTime, Js.maxZ.
  rewrite !orInt_zero.
  destruct session as [? ? ? ? ? ? lastEventTime ? ? ? ? ? ?]; simpl.
  destruct lastEventTime as [t|]; simpl; [|done].
  destruct (Z.gtb_spec (IngestRequest.timestamp payload) t); simpl;
    repeat split; f_equal; lia.
Qed.

(** The merge always returns, and its verdict is [isOutOfOrder]. *)
Lemma mergeIntoSession_run {R T} session payload (w : World R T) :
  ∃ merged w',
    mergeIntoSession session payload w = (Ok (merged, isOutOfOrder payload session), w') ∧
    ticked w w' ∧
    mergeFacts payload session merged.
Proof.
  unfold mergeFacts, isOutOfOrder, mergeIntoSession.
  set (bySequence := sequenceOutOfOrder payload session).
  set (s1 := if bySequence then _ else session).
  assert (Hbt : timeOutOfOrder payload s1 = timeOutOfOrder payload session).
  { subst s1. by destruct bySequence. }
  rewrite Hbt. set (byTime := timeOutOfOrder payload session).
  set (s2 := if byTime then _ else s1).
  destruct (bySequence || byTime) eqn:Hooo.
  - (* flagged: the aggregator is skipped *)
    assert (Hs2 : s2 = ExerciseSession.flag out_of_order session).
    { subst s2 s1. destruct bySequence, byTime; try done. }
    unfold bind, ret.
    pose proof (tracking_fields s2 payload) as Htr. cbv zeta in Htr.
    destruct Htr as (Hseq & Htime & Hid & Hrr & Hreason & Hv & Hlu & Hm).
    eexists _, _. split; [reflexivity|]. split; [apply ticked_refl|].
    rewrite Hseq, Htime, Hid, Hrr, Hreason, Hv, Hlu, Hm, Hs2. done.
  - (* accepted *)
    assert (Hs2 : s2 = session).
    { subst s2 s1. apply orb_false_elim in Hooo as [-> ->]. done. }
    rewrite Hs2. unfold bind.
    destruct (updateSessionMetrics_run session payload w)
      as (s3 & w' & Hrun & Hticked & Hv & Hlu & Hrr & Hreason & Hseq & Htime & Hid & Hm).
    rewrite Hrun. unfold ret.
    pose proof (tracking_fields s3 payload) as Htr. cbv zeta in Htr.
    destruct Htr as (Hseq' & Htime' & Hid' & Hrr' & Hreason' & Hv' & Hlu' & Hm').
    eexists _, _. split; [reflexivity|]. split; [done|].
    rewrite Hseq', Htime', Hid', Hrr', Hreason', Hv', Hlu', Hm'.
    unfold watermarkSequence, watermarkTime.
    rewrite Hseq, Htime, Hid, Hrr, Hreason, Hv, Hlu. done.
Qed.

(** ** [processEvent], case by case *)

(** A business-level duplicate: nothing is buffered, the sink gets the
    [duplicate_event] signal. *)
Lemma processEvent_duplicate {R T} payload (w : World R T) existing :
  events w !! IngestRequest.eventId payload = Some existing →
  processEvent payload w
  = (Ok (already_processed (IngestRequest.sessionId payload)
           "Event already processed with different idempotency key"),
     mkWorld (idempotency w) (sessions w) (events w)
       (metricsLog w ++ [duplicate_event (IngestRequest.sessionId payload)
                           (IngestRequest.eventId payload)
                           (IngestRequest.eventType payload)])
       (clock w) (S (tick w))).
Proof.
  intros Hev.
  unfold processEvent, runTransaction, processEventCallback, bind, getEvent.
  rewrite Hev. done.
Qed.

(** A new event for a session that exists. *)
Lemma processEvent_existing {R T} payload (w : World R T) session :
  events w !! IngestRequest.eventId payload = None →
  sessions w !! IngestRequest.sessionId payload = Some session →
  ∃ merged w1,
    mergeFacts payload session merged ∧
    ticked w w1 ∧
    processEvent payload w
    = (Ok (successResponse (markClockDrift payload merged) (isOutOfOrder payload session)),
       committed w payload (markClockDrift payload merged)
         (isOutOfOrder payload session) (tick w1)).
Proof.
  intros Hev Hsess.
  destruct (mergeIntoSession_run session payload w)
    as (merged & w1 & Hrun & Hticked & Hfacts).
  exists merged, w1. split; [done|]. split; [done|].
  unfold processEvent, runTransaction, processEventCallback, bind, getEvent, getSession.
  rewrite Hev, Hsess, Hrun.
  destruct Hticked as (Hi & Hs & He & Hm & Hc & _).
  unfold committed. simpl. rewrite Hi, Hs, He, Hm, Hc. done.
Qed.

(** A [start] event for a session that does not exist yet. *)
Lemma processEvent_new {R T} payload (w : World R T) :
  events w !! IngestRequest.eventId payload = None →
  sessions w !! IngestRequest.sessionId payload = None →
  IngestRequest.eventType payload = start →
  processEvent payload w
  = (Ok (successResponse (markClockDrift payload (createNewSession payload)) false),
     committed w payload (markClockDrift payload (createNewSession payload)) false (tick w)).
Proof.
  intros Hev Hsess Hstart.
  unfold processEvent, runTransaction, processEventCallback, bind, getEvent, getSession.
  rewrite Hev, Hsess, Hstart. simpl. rewrite Hsess. done.
Qed.

(** Any other event for a session that does not exist. *)
Lemma processEvent_missing {R T} payload (w : World R T) :
  events w !! IngestRequest.eventId payload = None →
  sessions w !! IngestRequest.sessionId payload = None →
  IngestRequest.eventType payload ≠ start →
  processEvent payload w = (Throw "Cannot create session without start event", w).
Proof.
  intros Hev Hsess Hstart.
  unfold processEvent, runTransaction, processEventCallback, bind, getEvent, getSession.
  rewrite Hev, Hsess. by rewrite bool_decide_eq_true_2.
Qed.

(** [processEvent] never touches the [idempotency] collection nor the clock. *)
Lemma processEvent_frame {R T} payload (w : World R T) :
  idempotency (snd (processEvent payload w)) = idempotency w ∧
  clock (snd (processEvent payload w)) = clock w.
Proof.
  destruct (events w !! IngestRequest.eventId payload) as [e|] eqn:Hev.
  { by rewrite (processEvent_duplicate _ _ _ Hev). }
  destruct (sessions w !! IngestRequest.sessionId payload) as [s|] eqn:Hsess.
  { destruct (processEvent_existing _ _ _ Hev Hsess) as (m & w1 & _ & _ & ->). done. }
  destruct (decide (IngestRequest.eventType payload = start)) as [Hst|Hst].
  - by rewrite (processEvent_new _ _ Hev Hsess Hst).
  - by rewrite (processEvent_missing _ _ Hev Hsess Hst).
Qed.

Lemma markClockDrift_fields payload session :
  let marked := markClockDrift payload session in
  ExerciseSession.version marked = ExerciseSession.version session ∧
  ExerciseSession.lastUpdated marked = ExerciseSession.lastUpdated session ∧
  ExerciseSession.lastEventSequence marked = ExerciseSession.lastEventSequence session ∧
  ExerciseSession.lastEventTime marked = ExerciseSession.lastEventTime session ∧
  ExerciseSession.metrics marked = ExerciseSession.metrics session ∧
  ExerciseSession.reconciliationReason marked
  = (if Js.truthyBool (IngestRequest._requiresReconciliation payload)
        && negb (Js.truthyBool (ExerciseSession.requiresReconciliation session))
     then Some clock_drift
     else ExerciseSession.reconciliationReason session).
Proof. unfold markClockDrift. by case_match. Qed.

Lemma markClockDrift_flagged payload session :
  ExerciseSession.requiresReconciliation session = Some true →
  markClockDrift payload session = session.
Proof.
  intros Hrr. unfold markClockDrift. rewrite Hrr. simpl.
  by rewrite andb_false_r.
Qed.

(** Computation on concrete data, with equalities decided rather than
    compared syntactically (a [Qc] carries a proof of canonicity). *)
Ltac by_compute :=
  cbv zeta; repeat apply conj;
  (apply (bool_decide_eq_true_1 _); vm_compute; reflexivity).

(** ** The repository's tests, replayed

    Four scenarios of [__tests__/ingestHandler.test.ts] on the model of the
    endpoint. *)

(** "should reject non-start events for missing sessions" *)
Example test_missing_session :
  fst (ingestExerciseEvent "POST"
         (Ex.createTestRequest "key-1" "missing-session" "event-1" update 0 1) Ex.empty)
  = Ok (mkHttp 500 (errorBody "Processing failed")).
Proof. by_compute. Qed.

(** "should detect and flag sequence-based out-of-order events" *)
Example test_out_of_order :
  let out :=
    andThen
      (ingestExerciseEvent "POST"
         (Ex.createTestRequest "key-1" "ooo-sequence-test" "event-1" start 0 3))
      (ingestExerciseEvent "POST"
         (Ex.createTestRequest "ooo-2" "ooo-sequence-test" "event-ooo-2" update 0 2))
      Ex.empty in
  snd <$> returned (fst out)
  = Some (mkHttp 200
            (jsonBody
               (success "ooo-sequence-test" active
                  (CurrentMetrics.mk 0%Qc (Js.num 10) (Some (Js.num 100))
                     (Some (Js.num 120)))
                  (Some true) true))) ∧
  ExerciseSession.reconciliationReason <$> sessions (snd out) !! "ooo-sequence-test"
  = Some (Some out_of_order).
Proof. by_compute. Qed.

(** "should accept and flag old timestamps": the event is two hours old. *)
Example test_clock_drift :
  fst (ingestExerciseEvent "POST"
         (Ex.createTestRequest "key-1" "clock-drift-test" "event-1" start (2 * oneHour) 1)
         Ex.empty)
  = Ok (mkHttp 200
          (jsonBody
             (success "clock-drift-test" active
                (CurrentMetrics.mk 0%Qc (Js.num 10) (Some (Js.num 100))
                   (Some (Js.num 120)))
                (Some true) false))).
Proof. by_compute. Qed.

(** "should handle same eventId with different idempotencyKey" *)
Example test_duplicate_event :
  let out :=
    andThen
      (ingestExerciseEvent "POST"
         (Ex.createTestRequest "key-1" "dup-event-test" "same-event-123" start 0 1))
      (ingestExerciseEvent "POST"
         (Ex.createTestRequest "key-2" "dup-event-test" "same-event-123" start 0 1))
      Ex.empty in
  snd <$> returned (fst out)
  = Some (mkHttp 200
            (jsonBody
               (already_processed "dup-event-test"
                  "Event already processed with different idempotency key"))) ∧
  size (events (snd out)) = 1%nat.
Proof. by_compute. Qed.

(** ** Out-of-order events (C5) *)

(** C5, as stated, fails: the session stands at [lastEventSequence = 5] and
    the event carries [eventSequence = 0]; both are present and [0 ≤ 5], yet
    the event is stored with [outOfOrder = false], the session is not marked
    for reconciliation, and the event's 10 calories are added to the 500 of
    the aggregate. *)
Lemma C5_counterexample :
  events Ex.db !! "event-zero" = None ∧
  sessions Ex.db !! "session-1" = Some Ex.session ∧
  IngestRequest.eventSequence Ex.zero = Some 0 ∧
  ExerciseSession.lastEventSequence Ex.session = Some 5 ∧
  0 ≤ 5 ∧
  let w' := snd (processEvent Ex.zero Ex.db) in
  ExerciseEvent.outOfOrder <$> events w' !! "event-zero" = Some (Some false) ∧
  ExerciseSession.requiresReconciliation <$> sessions w' !! "session-1" = Some None ∧
  SessionMetrics.caloriesBurned ∘ ExerciseSession.metrics <$> sessions w' !! "session-1"
  = Some (Js.num 510).
Proof. by_compute. Qed.

(** C5, amended: when both sequence numbers are present and non-zero and the
    event's is not above the session's, the event is stored with
    [outOfOrder = true], the session is marked for reconciliation with reason
    [out_of_order], and its metrics are left as they were. *)
Theorem C5_sequence_out_of_order {R T} payload (w : World R T) session
    (eventSequence lastEventSequence : Z) :
  events w !! IngestRequest.eventId payload = None →
  sessions w !! IngestRequest.sessionId payload = Some session →
  IngestRequest.eventSequence payload = Some eventSequence →
  ExerciseSession.lastEventSequence session = Some lastEventSequence →
  eventSequence ≠ 0 → lastEventSequence ≠ 0 →
  eventSequence ≤ lastEventSequence →
  ∃ sessionId sessionStatus currentMetrics w' event session',
    processEvent payload w
    = (Ok (success sessionId sessionStatus currentMetrics (Some true) true), w') ∧
    events w' !! IngestRequest.eventId payload = Some event ∧
    ExerciseEvent.outOfOrder event = Some true ∧
    sessions w' !! IngestRequest.sessionId payload = Some session' ∧
    ExerciseSession.requiresReconciliation session' = Some true ∧
    ExerciseSession.reconciliationReason session' = Some out_of_order ∧
    ExerciseSession.metrics session' = ExerciseSession.metrics session.
Proof.
  intros Hev Hsess Hes Hls Hes0 Hls0 Hle.
  assert (Hooo : isOutOfOrder payload session = true).
  { unfold isOutOfOrder, sequenceOutOfOrder, Js.truthyInt. rewrite Hes, Hls.
    rewrite !bool_decide_eq_true_2 by done.
    apply Z.leb_le in Hle. by rewrite Hle. }
  destruct (processEvent_existing payload w session Hev Hsess)
    as (merged & w1 & Hfacts & _ & Hrun).
  destruct Hfacts as (_ & _ & _ & Hfacts). rewrite Hooo in Hfacts, Hrun.
  destruct Hfacts as (Hrr & Hreason & _ & _ & Hm).
  rewrite (markClockDrift_flagged _ _ Hrr) in Hrun.
  eexists _, _, _, _, _, _. split.
  { rewrite Hrun. unfold successResponse. rewrite Hrr. reflexivity. }
  unfold committed. simpl. rewrite !lookup_insert_eq.
  repeat split; done.
Qed.

Lemma C5_sequence_out_of_order_witness :
  ∃ sessionId sessionStatus currentMetrics w' event session',
    processEvent Ex.late Ex.db
    = (Ok (success sessionId sessionStatus currentMetrics (Some true) true), w') ∧
    events w' !! "event-late" = Some event ∧
    ExerciseEvent.outOfOrder event = Some true ∧
    sessions w' !! "session-1" = Some session' ∧
    ExerciseSession.requiresReconciliation session' = Some true ∧
    ExerciseSession.reconciliationReason session' = Some out_of_order ∧
    ExerciseSession.metrics session' = ExerciseSession.metrics Ex.session.
Proof.
  apply (C5_sequence_out_of_order Ex.late Ex.db Ex.session 2 5);
    [reflexivity | reflexivity | reflexivity | reflexivity | lia | lia | lia].
Defined.

(** ** The reconciliation reason (C6) *)

(** C6, as stated, fails: the session already carries
    [reconciliationReason = clock_drift]; the event with sequence 2 arrives
    behind the watermark 5, and the merge stores [out_of_order] in its
    place. *)
Lemma C6_counterexample :
  events Ex.dbDrifted !! "event-late" = None ∧
  sessions Ex.dbDrifted !! "session-1" = Some Ex.drifted ∧
  ExerciseSession.reconciliationReason Ex.drifted = Some clock_drift ∧
  let w' := snd (processEvent Ex.late Ex.dbDrifted) in
  ExerciseSession.reconciliationReason <$> sessions w' !! "session-1"
  = Some (Some out_of_order).
Proof. by_compute. Qed.

(** C6, amended: a merge flagged out-of-order always stores the reason
    [out_of_order], whatever reason was there; a merge that is not flagged
    stores [clock_drift] only when the event carries the clock-drift
    indicator and [requiresReconciliation] is not already true, and leaves
    the reason as it was otherwise. *)
Theorem C6_reconciliation_reason {R T} payload (w : World R T) session :
  events w !! IngestRequest.eventId payload = None →
  sessions w !! IngestRequest.sessionId payload = Some session →
  ∃ response w' session',
    processEvent payload w = (Ok response, w') ∧
    sessions w' !! IngestRequest.sessionId payload = Some session' ∧
    ExerciseSession.reconciliationReason session'
    = (if isOutOfOrder payload session then Some out_of_order
       else if Js.truthyBool (IngestRequest._requiresReconciliation payload)
               && negb (Js.truthyBool (ExerciseSession.requiresReconciliation session))
       then Some clock_drift
       else ExerciseSession.reconciliationReason session).
Proof.
  intros Hev Hsess.
  destruct (processEvent_existing payload w session Hev Hsess)
    as (merged & w1 & Hfacts & _ & Hrun).
  eexists _, _, _. split; [exact Hrun|].
  unfold committed. simpl. rewrite lookup_insert_eq. split; [reflexivity|].
  simpl. destruct Hfacts as (_ & _ & _ & Hfacts).
  destruct (isOutOfOrder payload session).
  - destruct Hfacts as (Hrr & Hreason & _).
    by rewrite (markClockDrift_flagged _ _ Hrr).
  - destruct Hfacts as (Hrr & Hreason & _).
    destruct (markClockDrift_fields payload merged) as (_ & _ & _ & _ & _ & ->).
    by rewrite Hrr, Hreason.
Qed.

Lemma C6_reconciliation_reason_witness :
  ∃ response w' session',
    processEvent Ex.next Ex.dbDrifted = (Ok response, w') ∧
    sessions w' !! "session-1" = Some session' ∧
    ExerciseSession.reconciliationReason session' = Some clock_drift.
Proof.
  apply (C6_reconciliation_reason Ex.next Ex.dbDrifted Ex.drifted); reflexivity.
Defined.

(** ** The version counter (C7) *)

(** C7, as stated, fails: the event with sequence 2 is merged into the
    session at version 3 and flagged out-of-order; the stored session is
    still at version 3 and [lastUpdated] is still the old instant, not the
    commit time. *)
Lemma C7_counterexample :
  events Ex.db !! "event-late" = None ∧
  sessions Ex.db !! "session-1" = Some Ex.session ∧
  ExerciseSession.version Ex.session = 3 ∧
  ExerciseSession.lastUpdated Ex.session = DateAt 1699999995000 ∧
  let out := processEvent Ex.late Ex.db in
  (∃ sessionId sessionStatus currentMetrics requiresReconciliation,
     fst out = Ok (success sessionId sessionStatus currentMetrics
                     requiresReconciliation true)) ∧
  ExerciseSession.version <$> sessions (snd out) !! "session-1" = Some 3 ∧
  ExerciseSession.lastUpdated <$> sessions (snd out) !! "session-1"
  = Some (DateAt 1699999995000) ∧
  clock (snd out) (pred (tick (snd out))) = 1700000000000.
Proof.
  cbv zeta. repeat apply conj; try by_compute.
  eexists _, _, _, _. vm_compute. reflexivity.
Qed.

(** C7, amended: a merge of a non-duplicate event into an existing session
    that is not flagged out-of-order increments [version] by one and sets
    [lastUpdated] to the commit time, the last clock reading of the
    transaction; a merge that is flagged leaves [version] and the stored
    [lastUpdated] as they were. *)
Theorem C7_version_bump {R T} payload (w : World R T) session :
  events w !! IngestRequest.eventId payload = None →
  sessions w !! IngestRequest.sessionId payload = Some session →
  ∃ response w' session',
    processEvent payload w = (Ok response, w') ∧
    sessions w' !! IngestRequest.sessionId payload = Some session' ∧
    if isOutOfOrder payload session
    then
      ExerciseSession.version session' = ExerciseSession.version session ∧
      ∀ ms, ExerciseSession.lastUpdated session = DateAt ms →
            ExerciseSession.lastUpdated session' = DateAt ms
    else
      ExerciseSession.version session' = ExerciseSession.version session + 1 ∧
      ExerciseSession.lastUpdated session' = DateAt (clock w' (pred (tick w'))).
Proof.
  intros Hev Hsess.
  destruct (processEvent_existing payload w session Hev Hsess)
    as (merged & w1 & Hfacts & _ & Hrun).
  eexists _, _, _. split; [exact Hrun|].
  unfold committed. simpl. rewrite lookup_insert_eq. split; [reflexivity|].
  simpl. destruct Hfacts as (_ & _ & _ & Hfacts).
  destruct (markClockDrift_fields payload merged) as (-> & -> & _).
  destruct (isOutOfOrder payload session).
  - destruct Hfacts as (_ & _ & -> & -> & _). split; [done|].
    by intros ms ->.
  - destruct Hfacts as (_ & _ & -> & -> & _). done.
Qed.

Lemma C7_version_bump_witness :
  ∃ response w' session',
    processEvent Ex.next Ex.db = (Ok response, w') ∧
    sessions w' !! "session-1" = Some session' ∧
    ExerciseSession.version session' = 3 + 1 ∧
    ExerciseSession.lastUpdated session' = DateAt (clock w' (pred (tick w'))).
Proof.
  apply (C7_version_bump Ex.next Ex.db Ex.session); reflexivity.
Defined.

(** ** The watermark (C8) *)

(** C8: every merge of a non-duplicate event into an existing session,
    flagged out-of-order or not, stores [lastEventSequence = max(previous,
    event.eventSequence)] and [lastEventTime = max(previous,
    event.timestamp)], an absent sequence number counting as 0 and an absent
    previous time as none; neither watermark decreases. *)
Theorem C8_watermark {R T} payload (w : World R T) session :
  events w !! IngestRequest.eventId payload = None →
  sessions w !! IngestRequest.sessionId payload = Some session →
  ∃ response w' session',
    processEvent payload w = (Ok response, w') ∧
    sessions w' !! IngestRequest.sessionId payload = Some session' ∧
    ExerciseSession.lastEventSequence session'
    = Some (Z.max (default 0 (ExerciseSession.lastEventSequence session))
                  (default 0 (IngestRequest.eventSequence payload))) ∧
    ExerciseSession.lastEventTime session'
    = Some (match ExerciseSession.lastEventTime session with
            | Some previous => Z.max previous (IngestRequest.timestamp payload)
            | None => IngestRequest.timestamp payload
            end) ∧
    (∀ previous eventSequence,
       ExerciseSession.lastEventSequence session = Some previous →
       IngestRequest.eventSequence payload = Some eventSequence →
       ExerciseSession.lastEventSequence session' = Some (Z.max previous eventSequence)) ∧
    (∀ previous,
       ExerciseSession.lastEventSequence session = Some previous →
       ∃ current, ExerciseSession.lastEventSequence session' = Some current ∧
                  previous ≤ current) ∧
    (∀ previous,
       ExerciseSession.lastEventTime session = Some previous →
       ∃ current, ExerciseSession.lastEventTime session' = Some current ∧
                  previous ≤ current).
Proof.
  intros Hev Hsess.
  destruct (processEvent_existing payload w session Hev Hsess)
    as (merged & w1 & Hfacts & _ & Hrun).
  eexists _, _, _. split; [exact Hrun|].
  unfold committed. simpl. rewrite lookup_insert_eq. split; [reflexivity|].
  simpl. destruct Hfacts as (Hseq & Htime & _).
  destruct (markClockDrift_fields payload merged) as (_ & _ & -> & -> & _).
  rewrite Hseq, Htime. unfold watermarkSequence, watermarkTime.
  repeat split.
  - intros previous eventSequence -> ->. done.
  - intros previous ->. eexists. split; [reflexivity|]. simpl. lia.
  - intros previous ->. eexists. split; [reflexivity|]. lia.
Qed.

Lemma C8_watermark_witness :
  ∃ response w' session',
    processEvent Ex.late Ex.db = (Ok response, w') ∧
    sessions w' !! "session-1" = Some session' ∧
    ExerciseSession.lastEventSequence session' = Some (Z.max 5 2) ∧
    ExerciseSession.lastEventTime session'
    = Some (Z.max 1699999995000 1700000000000).
Proof.
  destruct (C8_watermark Ex.late Ex.db Ex.session)
    as (response & w' & session' & Hrun & Hsess & Hseq & Htime & _);
    [reflexivity | reflexivity |].
  exists response, w', session'. repeat split; assumption.
Defined.

(** ** The seed of a new session (C10) *)

(** C10, as stated, fails: the [start] event carries [heartRate = 0] and
    [duration = 60]; the heart rate is present, yet the seed has
    [heartRateDataPoints = 0], not [max(60, 1) = 60]. *)
Lemma C10_counterexample :
  metricOf Ex.startAtRest EventMetrics.heartRate = Some 0%Qc ∧
  metricOf Ex.startAtRest EventMetrics.duration = Some (Js.num 60) ∧
  SessionMetrics.heartRateDataPoints (ExerciseSession.metrics (createNewSession Ex.startAtRest))
  = Some 0%Qc ∧
  Js.max (Js.num 60) 1%Qc = Js.num 60 ∧
  Js.num 60 ≠ 0%Qc.
Proof. by_compute. Qed.

(** C10, amended: the seed takes the event's metrics without the
    aggregator's guards: [caloriesBurned] is the event's calories or 0,
    [distance] is the event's distance or 0 and never absent, [heartRateAvg]
    is the raw heart rate, [heartRateDataPoints] is [max(duration, 1)]
    (1 without a duration) when a heart rate is present and not 0, and 0
    otherwise, [version] is 1, [totalDuration] is 0 and [status] is
    [active]. *)
Theorem C10_createNewSession_seed (payload : IngestRequest.t) :
  let session := createNewSession payload in
  let seed := ExerciseSession.metrics session in
  SessionMetrics.caloriesBurned seed
  = default 0%Qc (metricOf payload EventMetrics.calories) ∧
  SessionMetrics.distance seed
  = Some (default 0%Qc (metricOf payload EventMetrics.distance)) ∧
  SessionMetrics.heartRateAvg seed = metricOf payload EventMetrics.heartRate ∧
  SessionMetrics.heartRateDataPoints seed
  = Some (match metricOf payload EventMetrics.heartRate with
          | Some heartRate =>
              if decide (heartRate = 0%Qc) then 0%Qc
              else Js.max (default 1%Qc (metricOf payload EventMetrics.duration)) 1%Qc
          | None => 0%Qc
          end) ∧
  ExerciseSession.version session = 1 ∧
  SessionMetrics.totalDuration seed = 0%Qc ∧
  ExerciseSession.status session = active.
Proof.
  unfold createNewSession, metricOf. simpl.
  rewrite !orNum_zero, duration_floor.
  repeat split.
  destruct (IngestRequest.metrics payload) as [m|]; [|done].
  destruct (EventMetrics.heartRate m) as [heartRate|]; [|done]. simpl.
  case_bool_decide; case_decide; done.
Qed.

(** An event that is merged into an existing session and not flagged is
    folded by the aggregator: the stored aggregate is [foldMetrics] of the
    old one, with the duration recomputed. *)
Lemma processEvent_accepted {R T} payload (w : World R T) session :
  events w !! IngestRequest.eventId payload = None →
  sessions w !! IngestRequest.sessionId payload = Some session →
  isOutOfOrder payload session = false →
  ∃ response w' session' totalDuration,
    processEvent payload w = (Ok response, w') ∧
    sessions w' !! IngestRequest.sessionId payload = Some session' ∧
    ExerciseSession.metrics session'
    = SessionMetrics.set_totalDuration totalDuration
        (foldMetrics payload (ExerciseSession.metrics session)).
Proof.
  intros Hev Hsess Hooo.
  destruct (processEvent_existing payload w session Hev Hsess)
    as (merged & w1 & Hfacts & _ & Hrun).
  destruct Hfacts as (_ & _ & _ & Hfacts). rewrite Hooo in Hfacts.
  destruct Hfacts as (_ & _ & _ & _ & totalDuration & Hm).
  eexists _, _, _, totalDuration. split; [exact Hrun|].
  unfold committed. simpl. rewrite lookup_insert_eq. split; [reflexivity|].
  simpl. destruct (markClockDrift_fields payload merged) as (_ & _ & _ & _ & -> & _).
  done.
Qed.

(** ** The heart-rate average (C9) *)





Lemma positive_nonzero (d : Qc) : (0 < d)%Qc → d ≠ 0%Qc.
Proof. intros Hd ->. by apply Qclt_not_le in Hd. Qed.



(** ** The claim transaction *)

Section Claim.
Context {R T : Type} `{Truthy T}.
Implicit Types (w : World R T) (data : IdempotencyRecord.t R T).

(** A completed record with a truthy response is replayed. *)
Lemma claim_cached key request w data response :
  idempotency w !! key = Some data →
  clock w (tick w) < IdempotencyRecord.expiresAt data →
  IdempotencyRecord.status data = St_completed →
  IdempotencyRecord.response data = Some response →
  truthy response = true →
  runTransaction (claimCallback key request) w = (Ok (fromCache response), elapse 2 w).
Proof.
  intros Hdoc Hexp Hstatus Hresp Htruthy.
  unfold runTransaction, claimCallback, bind, getIdempotency, now, ret.
  rewrite Hdoc. simpl. apply Z.ltb_lt in Hexp. rewrite Hexp.
  unfold cachedResponse. rewrite Hstatus, Hresp, Htruthy. done.
Qed.

(** A record that is being processed and is not stale makes the claim
    throw, before anything is buffered. *)
Lemma claim_concurrent key request w data startedAt :
  idempotency w !! key = Some data →
  clock w (tick w) < IdempotencyRecord.expiresAt data →
  IdempotencyRecord.status data = St_processing →
  IdempotencyRecord.processingStartedAt data = Some startedAt →
  clock w (tick w) - startedAt ≤ PROCESSING_TIMEOUT_MS →
  runTransaction (claimCallback key request) w = (Throw "CONCURRENT_REQUEST", elapse 1 w).
Proof.
  intros Hdoc Hexp Hstatus Hstarted Hage.
  unfold runTransaction, claimCallback, bind, getIdempotency, now, ret, throw.
  rewrite Hdoc. simpl. apply Z.ltb_lt in Hexp. rewrite Hexp.
  unfold cachedResponse. rewrite Hstatus, Hstarted. simpl.
  destruct (Z.gtb_spec (clock w (tick w) - startedAt) PROCESSING_TIMEOUT_MS); [lia|done].
Qed.

(** A key without a record is claimed. *)
Lemma claim_fresh key request w :
  idempotency w !! key = None →
  runTransaction (claimCallback key request) w
  = (Ok shouldProcess, claimedWorld key request w 1).
Proof.
  intros Hdoc.
  unfold runTransaction, claimCallback, bind, getIdempotency, now, ret.
  rewrite Hdoc. done.
Qed.
End Claim.

(** ** Replay of a completed request (C1) *)

(** C1, as stated, fails: the record of "key-1" is completed and not expired,
    and the response it holds is [null]; the call does not replay it: it
    claims the key again, runs the processor and returns the processor's
    response with [isNew = true]. *)
Lemma C1_counterexample :
  idempotency Ex.dbNull !! "key-1" = Some Ex.completedNull ∧
  clock Ex.dbNull (tick Ex.dbNull) < IdempotencyRecord.expiresAt Ex.completedNull ∧
  IdempotencyRecord.status Ex.completedNull = St_completed ∧
  IdempotencyRecord.response Ex.completedNull = Some Js.Null ∧
  fst (processWithIdempotency "key-1" "request" (ret (Js.Str "again")) Ex.dbNull)
  = Ok (true, Js.Str "again").
Proof. by_compute. Qed.

(** C1, amended: when the record of [key] exists, is not expired at the
    reading of the clock the claim makes, has status [completed] and holds a
    truthy response, the call returns that response with [isNew = false];
    the outcome is the same for every processor, and the database is the one
    the call found, two clock readings later: the processor is not
    invoked. *)
Theorem C1_cached_replay {R T} `{Truthy T} key (request : R) (processor : M R T T)
    (w : World R T) data response :
  idempotency w !! key = Some data →
  clock w (tick w) < IdempotencyRecord.expiresAt data →
  IdempotencyRecord.status data = St_completed →
  IdempotencyRecord.response data = Some response →
  truthy response = true →
  processWithIdempotency key request processor w = (Ok (false, response), elapse 2 w).
Proof.
  intros Hdoc Hexp Hstatus Hresp Htruthy.
  unfold processWithIdempotency, tryCatch, bind.
  by rewrite (claim_cached key request w data response).
Qed.

Lemma C1_cached_replay_witness :
  processWithIdempotency "key-next" Ex.next (processEvent Ex.next) Ex.dbCompleted
  = (Ok (false, Ex.reply), elapse 2 Ex.dbCompleted).
Proof.
  apply (C1_cached_replay "key-next" Ex.next (processEvent Ex.next) Ex.dbCompleted
           (completedFields Ex.reply 1699999996000 Ex.claimed) Ex.reply);
    [reflexivity | reflexivity | reflexivity | reflexivity | reflexivity].
Defined.

(** ** A request that is already being processed (C4) *)

(** The guard fails closed on a claim that is held. *)
Lemma processWithIdempotency_concurrent {R T} `{Truthy T} key (request : R)
    (processor : M R T T) (w : World R T) data startedAt :
  idempotency w !! key = Some data →
  clock w (tick w) < IdempotencyRecord.expiresAt data →
  IdempotencyRecord.status data = St_processing →
  IdempotencyRecord.processingStartedAt data = Some startedAt →
  clock w (tick w) - startedAt ≤ PROCESSING_TIMEOUT_MS →
  processWithIdempotency key request processor w
  = (Throw "Request is already being processed", elapse 1 w).
Proof.
  intros Hdoc Hexp Hstatus Hstarted Hage.
  unfold processWithIdempotency, tryCatch, bind.
  by rewrite (claim_concurrent key request w data startedAt).
Qed.

(** C4: when the record of [key] exists, is not expired, has status
    [processing] and was started at most [PROCESSING_TIMEOUT_MS] before the
    reading of the clock the claim makes, the call throws "Request is already
    being processed", whatever the processor, and leaves the database as it
    found it, one clock reading later: the processor is not invoked and the
    record is not modified.  The ingest endpoint, on a request that passes
    validation and meets such a record, answers 409 with that error. *)
Theorem C4_concurrent_request {R T} `{Truthy T} key (request : R) (w : World R T)
    data startedAt :
  idempotency w !! key = Some data →
  clock w (tick w) < IdempotencyRecord.expiresAt data →
  IdempotencyRecord.status data = St_processing →
  IdempotencyRecord.processingStartedAt data = Some startedAt →
  clock w (tick w) - startedAt ≤ PROCESSING_TIMEOUT_MS →
  (∀ processor : M R T T,
     processWithIdempotency key request processor w
     = (Throw "Request is already being processed", elapse 1 w)) ∧
  idempotency (elapse 1 w) !! key = Some data ∧
  (∀ (payload validated : IngestRequest.t) (db0 db : Db) record started,
     validatePayload payload db0 = (Ok (None, validated), db) →
     idempotency db !! IngestRequest.idempotencyKey validated = Some record →
     clock db (tick db) < IdempotencyRecord.expiresAt record →
     IdempotencyRecord.status record = St_processing →
     IdempotencyRecord.processingStartedAt record = Some started →
     clock db (tick db) - started ≤ PROCESSING_TIMEOUT_MS →
     ingestExerciseEvent "POST" payload db0
     = (Ok (mkHttp 409 (errorBody "Request is already being processed")), elapse 1 db)).
Proof.
  intros Hdoc Hexp Hstatus Hstarted Hage.
  split; [|split].
  - intros processor. by apply processWithIdempotency_concurrent with data startedAt.
  - done.
  - intros payload validated db0 db record started Hvalid Hrec Hexp' Hst' Hstarted' Hage'.
    unfold ingestExerciseEvent, tryCatch, bind. simpl.
    rewrite Hvalid. simpl.
    by rewrite (processWithIdempotency_concurrent _ _ _ db record started).
Qed.

Lemma C4_concurrent_request_witness :
  processWithIdempotency "key-next" Ex.next (processEvent Ex.next) Ex.dbClaimed
  = (Throw "Request is already being processed", elapse 1 Ex.dbClaimed) ∧
  idempotency (elapse 1 Ex.dbClaimed) !! "key-next" = Some Ex.claimed ∧
  ingestExerciseEvent "POST" Ex.next Ex.dbClaimed
  = (Ok (mkHttp 409 (errorBody "Request is already being processed")),
     elapse 1 (elapse 1 Ex.dbClaimed)).
Proof.
  destruct (C4_concurrent_request "key-next" Ex.next Ex.dbClaimed Ex.claimed 1699999995000)
    as (Hcall & Hrecord & Hhttp);
    [reflexivity | reflexivity | reflexivity | reflexivity | by vm_compute |].
  split; [apply Hcall|]. split; [apply Hrecord|].
  apply (Hhttp Ex.next Ex.next Ex.dbClaimed (elapse 1 Ex.dbClaimed) Ex.claimed 1699999995000);
    [reflexivity | reflexivity | reflexivity | reflexivity | reflexivity | by vm_compute].
Defined.

(** ** Business-level duplicates (C3) *)

(** A call on a key without a record whose processor returns: the key is
    claimed, the processor runs on the claimed database, and the record is
    completed with its response. *)
Lemma processWithIdempotency_fresh {R T} `{Truthy T} key (request : R)
    (processor : M R T T) (w : World R T) response w' data :
  idempotency w !! key = None →
  processor (claimedWorld key request w 1) = (Ok response, w') →
  idempotency w' !! key = Some data →
  processWithIdempotency key request processor w
  = (Ok (true, response), completedWorld key response data w').
Proof.
  intros Hdoc Hrun Hrec.
  unfold processWithIdempotency, tryCatch, bind.
  rewrite (claim_fresh key request w Hdoc).
  unfold processOutsideTransaction, tryCatch, bind. rewrite Hrun.
  unfold updateCompleted, bind, now, docUpdate. simpl. rewrite Hrec. done.
Qed.

(** *** What a guarded call may change *)

Section Frames.
Context {R T : Type} `{Truthy T}.
Implicit Types (w : World R T).

Lemma touchesOnly_refl key w : touchesOnly key w w.
Proof. by repeat split. Qed.

Lemma touchesOnly_trans key w1 w2 w3 :
  touchesOnly key w1 w2 → touchesOnly key w2 w3 → touchesOnly key w1 w3.
Proof.
  intros (Hs & He & Hi) (Hs' & He' & Hi'). repeat split; try congruence.
  intros k Hk. by rewrite Hi', Hi.
Qed.

Lemma claim_frame key (request : R) w :
  touchesOnly key w (snd (runTransaction (claimCallback key request) w)).
Proof.
  unfold runTransaction, claimCallback, bind, getIdempotency, now, ret, throw.
  destruct (idempotency w !! key) as [data|]; simpl;
    [destruct (clock w (tick w) <? IdempotencyRecord.expiresAt data); simpl;
     [destruct (cachedResponse data); simpl;
      [|destruct (bool_decide (IdempotencyRecord.status data = St_processing)); simpl;
        [match goal with |- context [if ?b then _ else _] => destruct b end; simpl
        |destruct (bool_decide (IdempotencyRecord.status data = St_failed)); simpl]]|]|];
    (repeat split; simpl; try done; intros k Hk; by rewrite ?lookup_insert_ne by done).
Qed.

Lemma docUpdate_frame key fields w :
  touchesOnly key w (snd (docUpdate key fields w)).
Proof.
  unfold docUpdate. destruct (idempotency w !! key); simpl; [|by repeat split].
  repeat split; simpl; try done. intros k Hk. by rewrite lookup_insert_ne.
Qed.

Lemma updateCompleted_frame key (response : T) w :
  touchesOnly key w (snd (updateCompleted key response w)).
Proof.
  unfold updateCompleted, bind, now. simpl.
  match goal with |- context [docUpdate ?k ?f ?w0] =>
    pose proof (docUpdate_frame k f w0) as Hf; destruct (docUpdate k f w0) as [[[]|e] w']
  end; exact Hf.
Qed.

Lemma updateFailed_frame key error w :
  touchesOnly key w (snd (updateFailed key error w)).
Proof.
  unfold updateFailed, bind, now. simpl.
  match goal with |- context [docUpdate ?k ?f ?w0] =>
    pose proof (docUpdate_frame k f w0) as Hf; destruct (docUpdate k f w0) as [[[]|e] w']
  end; exact Hf.
Qed.

(** A call that returns a new response has claimed the key, run the
    processor and completed the record. *)
Lemma processWithIdempotency_new_inv key (request : R) (processor : M R T T) w response w' :
  processWithIdempotency key request processor w = (Ok (true, response), w') →
  ∃ wa wb,
    touchesOnly key w wa ∧
    processor wa = (Ok response, wb) ∧
    touchesOnly key wb w'.
Proof.
  unfold processWithIdempotency, tryCatch, bind, failClosed, throw, ret.
  pose proof (claim_frame key request w) as Hclaim.
  destruct (runTransaction (claimCallback key request) w) as [[[cached|]|e] wa];
    simpl in Hclaim; [intros [= ]| |intros [= ]].
  unfold processOutsideTransaction, tryCatch, bind, throw, ret.
  destruct (processor wa) as [[r|e] wb] eqn:Hproc.
  - pose proof (updateCompleted_frame key r wb) as Hdone.
    destruct (updateCompleted key r wb) as [[[]|e] wc]; simpl in Hdone.
    + intros [= -> ->]. by exists wa, wb.
    + destruct (updateFailed key e wc) as [[[]|e'] wd]; intros [= ].
  - destruct (updateFailed key e wb) as [[[]|e'] wc]; intros [= ].
Qed.

(** Whatever the record of the key, a call whose processor leaves sessions
    and events alone leaves them alone. *)
Lemma processWithIdempotency_docs key (request : R) (processor : M R T T) w :
  (∀ wa, sessions wa = sessions w → events wa = events w →
         sessions (snd (processor wa)) = sessions w ∧
         events (snd (processor wa)) = events w) →
  sessions (snd (processWithIdempotency key request processor w)) = sessions w ∧
  events (snd (processWithIdempotency key request processor w)) = events w.
Proof.
  intros Hproc.
  unfold processWithIdempotency, tryCatch, bind, failClosed, throw, ret.
  pose proof (claim_frame key request w) as (Hs & He & _).
  destruct (runTransaction (claimCallback key request) w) as [[[cached|]|e] wa];
    simpl in Hs, He; [done| |done].
  unfold processOutsideTransaction, tryCatch, bind, throw, ret.
  specialize (Hproc wa Hs He).
  destruct (processor wa) as [[r|e] wb]; simpl in Hproc; destruct Hproc as (Hs' & He').
  - pose proof (updateCompleted_frame key r wb) as (Hs2 & He2 & _).
    destruct (updateCompleted key r wb) as [[[]|e] wc]; simpl in Hs2, He2.
    + simpl. split; congruence.
    + pose proof (updateFailed_frame key e wc) as (Hs3 & He3 & _).
      destruct (updateFailed key e wc) as [[[]|e'] wd]; simpl in *; split; congruence.
  - pose proof (updateFailed_frame key e wb) as (Hs3 & He3 & _).
    destruct (updateFailed key e wb) as [[[]|e'] wc]; simpl in *; split; congruence.
Qed.
End Frames.

(** A merge that returns the success payload found no Event document and
    wrote exactly one. *)
Lemma processEvent_success_inv {R T} payload (w w' : World R T)
    sessionId sessionStatus currentMetrics requiresReconciliation outOfOrder :
  processEvent payload w
  = (Ok (success sessionId sessionStatus currentMetrics requiresReconciliation outOfOrder),
     w') →
  events w !! IngestRequest.eventId payload = None ∧
  idempotency w' = idempotency w ∧
  ∃ event, events w' = <[IngestRequest.eventId payload := event]> (events w).
Proof.
  intros Hrun.
  destruct (events w !! IngestRequest.eventId payload) as [e|] eqn:Hev.
  { rewrite (processEvent_duplicate _ _ _ Hev) in Hrun. discriminate Hrun. }
  split; [done|].
  destruct (sessions w !! IngestRequest.sessionId payload) as [s|] eqn:Hsess.
  - destruct (processEvent_existing _ _ _ Hev Hsess) as (merged & w1 & _ & _ & Hrun').
    rewrite Hrun' in Hrun. apply (f_equal snd) in Hrun. simpl in Hrun. subst w'.
    unfold committed. simpl. split; [done|]. by eexists.
  - destruct (decide (IngestRequest.eventType payload = start)) as [Hst|Hst].
    + rewrite (processEvent_new _ _ Hev Hsess Hst) in Hrun.
      apply (f_equal snd) in Hrun. simpl in Hrun. subst w'.
      unfold committed. simpl. split; [done|]. by eexists.
    + rewrite (processEvent_missing _ _ Hev Hsess Hst) in Hrun. discriminate Hrun.
Qed.

(** C3: when an Event document exists for [event.eventId], the merge returns
    the [already_processed] result and leaves the [sessions] and [events]
    collections (and the idempotency records) exactly as they were.  Hence,
    once a submission of an [eventId] has been merged, a submission of the
    same [eventId] under any idempotency key changes neither collection: the
    two submissions add exactly one Event document, and the second returns
    [already_processed] when its key has no record yet. *)
Theorem C3_duplicate_event :
  (∀ R T payload (w : World R T) existing,
     events w !! IngestRequest.eventId payload = Some existing →
     ∃ w',
       processEvent payload w
       = (Ok (already_processed (IngestRequest.sessionId payload)
                "Event already processed with different idempotency key"), w') ∧
       sessions w' = sessions w ∧ events w' = events w ∧
       idempotency w' = idempotency w) ∧
  (∀ (w w1 : Db) (first second : IngestRequest.t)
     sessionId sessionStatus currentMetrics requiresReconciliation outOfOrder,
     IngestRequest.eventId second = IngestRequest.eventId first →
     processWithIdempotency (IngestRequest.idempotencyKey first) first
       (processEvent first) w
     = (Ok (true, success sessionId sessionStatus currentMetrics
                    requiresReconciliation outOfOrder), w1) →
     let out := processWithIdempotency (IngestRequest.idempotencyKey second) second
                  (processEvent second) w1 in
     events w !! IngestRequest.eventId first = None ∧
     (∃ event, events w1 = <[IngestRequest.eventId first := event]> (events w)) ∧
     sessions (snd out) = sessions w1 ∧
     events (snd out) = events w1 ∧
     size (events (snd out)) = S (size (events w)) ∧
     (idempotency w1 !! IngestRequest.idempotencyKey second = None →
      fst out = Ok (true, already_processed (IngestRequest.sessionId second)
                            "Event already processed with different idempotency key"))).
Proof.
  split.
  - intros R T payload w existing Hev.
    eexists. split; [by apply processEvent_duplicate with existing|]. done.
  - intros w w1 first second sid st cm rr ooo Heid Hfirst out.
    (* the first submission wrote the Event document *)
    destruct (processWithIdempotency_new_inv _ _ _ _ _ _ Hfirst)
      as (wa & wb & (_ & Hea & _) & Hrun & (_ & Heb & _)).
    destruct (processEvent_success_inv _ _ _ _ _ _ _ _ Hrun) as (Hnone & _ & event & Hev).
    rewrite Hea in Hnone, Hev. rewrite <- Heb in Hev.
    (* the second submission finds it *)
    assert (Hdup : ∀ wa' : Db, events wa' = events w1 →
              events wa' !! IngestRequest.eventId second = Some event).
    { intros wa' ->. rewrite Hev, Heid. by rewrite lookup_insert_eq. }
    destruct (processWithIdempotency_docs (IngestRequest.idempotencyKey second) second
                (processEvent second) w1) as (Hs2 & He2).
    { intros wa' Hs' He'.
      rewrite (processEvent_duplicate second wa' event (Hdup wa' He')). done. }
    fold out in Hs2, He2.
    split; [done|]. split; [by exists event|]. split; [done|]. split; [done|].
    split; [rewrite He2, Hev; by apply map_size_insert_None|].
    intros Hfresh. subst out.
    pose proof (processEvent_duplicate second
                  (claimedWorld (IngestRequest.idempotencyKey second) second w1 1)
                  event (Hdup _ eq_refl)) as Hrun2.
    erewrite processWithIdempotency_fresh; [done|done|exact Hrun2|].
    simpl. by rewrite lookup_insert_eq.
Qed.

Lemma C3_duplicate_event_witness :
  events Ex.db !! "event-next" = None ∧
  sessions (snd Ex.retried) = sessions (snd Ex.merged) ∧
  events (snd Ex.retried) = events (snd Ex.merged) ∧
  size (events (snd Ex.retried)) = 1%nat ∧
  fst Ex.retried = Ok (true, already_processed "session-1"
                               "Event already processed with different idempotency key").
Proof.
  assert (Hfirst : ∃ sessionId sessionStatus currentMetrics requiresReconciliation
                     outOfOrder,
            fst Ex.merged = Ok (true, success sessionId sessionStatus currentMetrics
                                        requiresReconciliation outOfOrder)).
  { eexists _, _, _, _, _. vm_compute. reflexivity. }
  destruct Hfirst as (sid & st & cm & rr & ooo & Hfirst).
  pose proof (surjective_pairing Ex.merged) as Hpair. rewrite Hfirst in Hpair.
  destruct (proj2 C3_duplicate_event Ex.db (snd Ex.merged) Ex.next Ex.retry
              sid st cm rr ooo)
    as (Hnone & _ & Hs & He & Hsize & Hfresh); [reflexivity | exact Hpair |].
  split; [exact Hnone|]. split; [exact Hs|]. split; [exact He|].
  split; [exact Hsize|]. apply Hfresh. vm_compute. reflexivity.
Defined.

(** ** Concurrent calls on one key (C2) *)

Section AtMostOnce.
Context {R T : Type} `{Truthy T}.
Implicit Types (w : World R T) (data : IdempotencyRecord.t R T).




(** A claim is turned away by a record that is being processed and has not
    reached the timeout, whichever instant it ages from. *)
Lemma claim_held key request w data :
  idempotency w !! key = Some data →
  clock w (tick w) < IdempotencyRecord.expiresAt data →
  IdempotencyRecord.status data = St_processing →
  clock w (tick w) - startedOrCreated data ≤ PROCESSING_TIMEOUT_MS →
  runTransaction (claimCallback key request) w = (Throw "CONCURRENT_REQUEST", elapse 1 w).
Proof.
  intros Hdoc Hexp Hstatus Hage.
  unfold runTransaction, claimCallback, bind, getIdempotency, now, ret, throw.
  rewrite Hdoc. simpl. apply Z.ltb_lt in Hexp. rewrite Hexp.
  unfold cachedResponse. rewrite Hstatus. simpl.
  unfold startedOrCreated in Hage.
  destruct (IdempotencyRecord.processingStartedAt data) as [startedAt|].
  - destruct (Z.gtb_spec (clock w (tick w) - startedAt) PROCESSING_TIMEOUT_MS);
      [lia|done].
  - destruct (Z.gtb_spec (clock w (tick w) - IdempotencyRecord.createdAt data)
                PROCESSING_TIMEOUT_MS); [lia|done].
Qed.



End AtMostOnce.

Section Preservation.
Import Concurrent.
Context {R T : Type} `{Truthy T}.
Variables (key : string) (request : R).
Hypothesis all_truthy : ∀ response : T, truthy response = true.




End Preservation.

(** A call that runs alone goes through the program points of the
    interleaving model and ends where [processWithIdempotency] ends. *)
Lemma processWithIdempotency_as_steps {R T} `{Truthy T} key (request : R)
    (processor : M R T T) (w : World R T) :
  (∀ w0, idempotency (snd (processor w0)) = idempotency w0 ∧
         clock (snd (processor w0)) = clock w0) →
  ∃ c,
    rtc (Concurrent.step key request) (Concurrent.initial w 1) c ∧
    Concurrent.world c = snd (processWithIdempotency key request processor w) ∧
    Concurrent.calls c
    = [match fst (processWithIdempotency key request processor w) with
       | Ok (isNew, response) => Concurrent.Returned isNew response
       | Throw e => Concurrent.Thrown e
       end].
Proof.
  intros Hframe.
  pose proof (Concurrent.step_claim key request (Concurrent.initial w 1) 0%nat eq_refl)
    as Hclaim.
  cbv zeta in Hclaim. simpl in Hclaim.
  unfold processWithIdempotency, tryCatch, bind, failClosed, throw, ret.
  destruct (runTransaction (claimCallback key request) w) as [[[response|]|e] wa];
    simpl in Hclaim.
  - (* replayed *)
    eexists. split; [by apply rtc_once|]. done.
  - (* claimed *)
    pose proof (Concurrent.step_processor key request
                  (Concurrent.mkConfig wa [Concurrent.AtProcessor] 0) 0%nat
                  (fst (processor wa)) (snd (processor wa)) eq_refl
                  (proj1 (Hframe wa)) (proj2 (Hframe wa))) as Hproc.
    simpl in Hproc.
    unfold processOutsideTransaction, tryCatch, bind, throw, ret.
    destruct (processor wa) as [[response|e] wb]; simpl in Hproc.
    + pose proof (Concurrent.step_completed key request
                    (Concurrent.mkConfig wb [Concurrent.AtCompleted response] 1)
                    0%nat response eq_refl) as Hdone.
      cbv zeta in Hdone. simpl in Hdone.
      destruct (updateCompleted key response wb) as [[[]|e] wc]; simpl in Hdone.
      * eexists. split; [|].
        eapply rtc_l; [exact Hclaim|]. eapply rtc_l; [exact Hproc|]. by apply rtc_once.
        done.
      * pose proof (Concurrent.step_catch key request
                      (Concurrent.mkConfig wc [Concurrent.AtCatch e] 1)
                      0%nat e eq_refl) as Hcatch.
        cbv zeta in Hcatch. simpl in Hcatch.
        eexists. split.
        { eapply rtc_l; [exact Hclaim|]. eapply rtc_l; [exact Hproc|].
          eapply rtc_l; [exact Hdone|]. by apply rtc_once. }
        simpl. destruct (updateFailed key e wc) as [[[]|e'] wd]; done.
    + pose proof (Concurrent.step_catch key request
                    (Concurrent.mkConfig wb [Concurrent.AtCatch e] 1)
                    0%nat e eq_refl) as Hcatch.
      cbv zeta in Hcatch. simpl in Hcatch.
      eexists. split.
      { eapply rtc_l; [exact Hclaim|]. eapply rtc_l; [exact Hproc|]. by apply rtc_once. }
      simpl. destruct (updateFailed key e wb) as [[[]|e'] wc]; done.
  - (* turned away *)
    eexists. split; [by apply rtc_once|]. done.
Qed.

(** In particular the call the endpoint makes, whose processor is
    [processEvent]. *)
Lemma ingest_call_as_steps (payload : IngestRequest.t) (w : Db) :
  let key := IngestRequest.idempotencyKey payload in
  ∃ c,
    rtc (Concurrent.step key payload) (Concurrent.initial w 1) c ∧
    Concurrent.world c = snd (processWithIdempotency key payload (processEvent payload) w).
Proof.
  intros key.
  destruct (processWithIdempotency_as_steps key payload (processEvent payload) w)
    as (c & Hrun & Hworld & _).
  { intros w0. apply processEvent_frame. }
  by exists c.
Qed.




(** ** The guard: expiry, take-over and failed keys *)

Section Guard.
Context {R T : Type} `{Truthy T}.
Implicit Types (w : World R T) (data : IdempotencyRecord.t R T).

(** A record past its expiry is not looked at. *)
Lemma claim_expired key request w data :
  idempotency w !! key = Some data →
  IdempotencyRecord.expiresAt data ≤ clock w (tick w) →
  runTransaction (claimCallback key request) w
  = (Ok shouldProcess, claimedWorld key request w 2).
Proof.
  intros Hdoc Hexp.
  unfold runTransaction, claimCallback, bind, getIdempotency, now, ret.
  rewrite Hdoc. simpl.
  destruct (Z.ltb_spec (clock w (tick w)) (IdempotencyRecord.expiresAt data)); [lia|done].
Qed.

(** A claim that has been held for longer than the timeout is taken over. *)
Lemma claim_stale key request w data :
  idempotency w !! key = Some data →
  clock w (tick w) < IdempotencyRecord.expiresAt data →
  IdempotencyRecord.status data = St_processing →
  PROCESSING_TIMEOUT_MS < clock w (tick w) - startedOrCreated data →
  runTransaction (claimCallback key request) w
  = (Ok shouldProcess, claimedWorld key request w 2).
Proof.
  intros Hdoc Hexp Hstatus Hage.
  unfold runTransaction, claimCallback, bind, getIdempotency, now, ret.
  rewrite Hdoc. simpl. apply Z.ltb_lt in Hexp. rewrite Hexp.
  unfold cachedResponse. rewrite Hstatus. simpl.
  unfold startedOrCreated in Hage.
  destruct (IdempotencyRecord.processingStartedAt data) as [startedAt|].
  - destruct (Z.gtb_spec (clock w (tick w) - startedAt) PROCESSING_TIMEOUT_MS);
      [done|lia].
  - destruct (Z.gtb_spec (clock w (tick w) - IdempotencyRecord.createdAt data)
                PROCESSING_TIMEOUT_MS); [done|lia].
Qed.

(** What follows a successful claim. *)
Lemma processWithIdempotency_claimed key request (processor : M R T T) w wa :
  runTransaction (claimCallback key request) w = (Ok shouldProcess, wa) →
  processWithIdempotency key request processor w
  = match processor wa with
    | (Ok response, wb) =>
        match idempotency wb !! key with
        | Some data => (Ok (true, response), completedWorld key response data wb)
        | None =>
            (Throw "Document does not exist",
             elapse 1 (elapse 1 wb))
        end
    | (Throw e, wb) =>
        match idempotency wb !! key with
        | Some data => (Throw (closedMessage e), failedWorld key e data wb)
        | None => (Throw "Document does not exist", elapse 1 wb)
        end
    end.
Proof.
  intros Hclaim.
  unfold processWithIdempotency, tryCatch, bind. rewrite Hclaim.
  unfold processOutsideTransaction, tryCatch, bind.
  destruct (processor wa) as [[response|e] wb].
  - unfold updateCompleted, updateFailed, bind, now, docUpdate. simpl.
    destruct (idempotency wb !! key) as [data|] eqn:Hdoc; simpl; [done|].
    rewrite Hdoc. done.
  - unfold updateFailed, bind, now, docUpdate. simpl.
    destruct (idempotency wb !! key) as [data|] eqn:Hdoc; simpl; done.
Qed.
End Guard.

(** ** The idempotency guard beyond replay and rejection *)

(** The record a claim writes expires [EXPIRY_HOURS] after the claim. *)
Lemma processingRecord_expiresAt {R T} key (request : R) nowTs :
  IdempotencyRecord.expiresAt (processingRecord (T:=T) key request nowTs)
  = nowTs + 86400000.
Proof. reflexivity. Qed.

(** X1: a record that has reached [expiresAt] counts as no record, whatever
    its status: the claim overwrites it with a new [processing] record, stamped
    with the next reading of the clock and valid for 24 hours from then, the
    processor runs on the database so claimed, and when it returns the record
    is completed with its response and the call returns it with
    [isNew = true].  The comparison is strict: a record is expired from the
    instant [expiresAt] on. *)
Theorem expired_record_is_reclaimed {R T} `{Truthy T} key (request : R)
    (w : World R T) data :
  idempotency w !! key = Some data →
  IdempotencyRecord.expiresAt data ≤ clock w (tick w) →
  let stamp := clock w (S (tick w)) in
  let claimed := claimedWorld key request w 2 in
  idempotency claimed !! key = Some (processingRecord key request stamp) ∧
  IdempotencyRecord.expiresAt (processingRecord (T:=T) key request stamp)
  = stamp + 24 * 60 * 60 * 1000 ∧
  ∀ (processor : M R T T) response w',
    processor claimed = (Ok response, w') →
    idempotency w' = idempotency claimed →
    processWithIdempotency key request processor w
    = (Ok (true, response),
       completedWorld key response (processingRecord key request stamp) w').
Proof.
  intros Hdoc Hexp stamp claimed.
  split; [by apply lookup_insert_eq|]. split; [reflexivity|].
  intros processor response w' Hrun Hidem.
  rewrite (processWithIdempotency_claimed key request processor w claimed)
    by (by apply claim_expired with data).
  rewrite Hrun, Hidem. subst claimed. simpl. by rewrite lookup_insert_eq.
Qed.

Lemma expired_record_is_reclaimed_witness :
  processWithIdempotency "key-next" Ex.next (ret Ex.reply) Scenario.dbExpired
  = (Ok (true, Ex.reply),
     completedWorld "key-next" Ex.reply
       (processingRecord "key-next" Ex.next (Scenario.later 1))
       (claimedWorld "key-next" Ex.next Scenario.dbExpired 2)).
Proof.
  destruct (expired_record_is_reclaimed "key-next" Ex.next Scenario.dbExpired Ex.claimed)
    as (_ & _ & Hrun); [reflexivity | by vm_compute |].
  apply Hrun; reflexivity.
Defined.

(** X2: a [processing] record that is not expired and whose age, counted
    from [processingStartedAt] or, without one, from [createdAt], exceeds
    [PROCESSING_TIMEOUT_MS] (two minutes) is taken over: the claim overwrites
    it with a new [processing] record and the processor runs.  At exactly two
    minutes the claim is still turned away. *)
Theorem stale_claim_is_taken_over {R T} `{Truthy T} key (request : R)
    (w : World R T) data :
  idempotency w !! key = Some data →
  clock w (tick w) < IdempotencyRecord.expiresAt data →
  IdempotencyRecord.status data = St_processing →
  (PROCESSING_TIMEOUT_MS < clock w (tick w) - startedOrCreated data →
   let stamp := clock w (S (tick w)) in
   let claimed := claimedWorld key request w 2 in
   idempotency claimed !! key = Some (processingRecord key request stamp) ∧
   ∀ (processor : M R T T) response w',
     processor claimed = (Ok response, w') →
     idempotency w' = idempotency claimed →
     processWithIdempotency key request processor w
     = (Ok (true, response),
        completedWorld key response (processingRecord key request stamp) w')) ∧
  (clock w (tick w) - startedOrCreated data = 2 * 60 * 1000 →
   ∀ processor : M R T T,
     processWithIdempotency key request processor w
     = (Throw "Request is already being processed", elapse 1 w)).
Proof.
  intros Hdoc Hexp Hstatus. split.
  - intros Hage stamp claimed.
    split; [by apply lookup_insert_eq|].
    intros processor response w' Hrun Hidem.
    rewrite (processWithIdempotency_claimed key request processor w claimed)
      by (by apply claim_stale with data).
    rewrite Hrun, Hidem. subst claimed. simpl. by rewrite lookup_insert_eq.
  - intros Hage processor.
    unfold processWithIdempotency, tryCatch, bind.
    rewrite (claim_held key request w data); [done..|].
    unfold PROCESSING_TIMEOUT_MS. lia.
Qed.

Lemma stale_claim_is_taken_over_witness :
  processWithIdempotency "key-next" Ex.next (ret Ex.reply) Scenario.dbStale
  = (Ok (true, Ex.reply),
     completedWorld "key-next" Ex.reply
       (processingRecord "key-next" Ex.next 1700000296000)
       (claimedWorld "key-next" Ex.next Scenario.dbStale 2)).
Proof.
  destruct (stale_claim_is_taken_over "key-next" Ex.next Scenario.dbStale Ex.claimed)
    as ((_ & Hrun) & _); [reflexivity | by vm_compute | reflexivity | by vm_compute |].
  apply Hrun; reflexivity.
Defined.

(** The message the guard rethrows for a failed record. *)
Lemma closedMessage_previous_failed (error : string) :
  closedMessage ("PREVIOUS_FAILED: " +:+ error)
  = "Previous request failed, please retry with new idempotency key".
Proof. reflexivity. Qed.

Lemma processWithIdempotency_failed {R T} `{Truthy T} key (request : R)
    (processor : M R T T) (w : World R T) data :
  idempotency w !! key = Some data →
  clock w (tick w) < IdempotencyRecord.expiresAt data →
  IdempotencyRecord.status data = St_failed →
  processWithIdempotency key request processor w
  = (Throw "Previous request failed, please retry with new idempotency key", elapse 1 w).
Proof.
  intros Hdoc Hexp Hstatus.
  unfold processWithIdempotency, tryCatch, bind.
  unfold runTransaction, claimCallback, bind, getIdempotency, now, ret, throw.
  rewrite Hdoc. simpl. apply Z.ltb_lt in Hexp. rewrite Hexp.
  unfold cachedResponse. rewrite Hstatus. simpl. done.
Qed.

(** X3: a key whose record is [failed] and not expired is closed: the call
    throws "Previous request failed, please retry with new idempotency key"
    whatever the request and the processor, the processor is not invoked, and
    the record stays as it is, so that every further call before the expiry
    meets the same end.  The ingest endpoint answers such a request with 500
    "Processing failed". *)
Theorem failed_key_stays_closed {R T} `{Truthy T} key (w : World R T) data :
  idempotency w !! key = Some data →
  clock w (tick w) < IdempotencyRecord.expiresAt data →
  IdempotencyRecord.status data = St_failed →
  (∀ (request : R) (processor : M R T T),
     processWithIdempotency key request processor w
     = (Throw "Previous request failed, please retry with new idempotency key",
        elapse 1 w)) ∧
  idempotency (elapse 1 w) !! key = Some data ∧
  (∀ (payload validated : IngestRequest.t) (db0 db : Db) record,
     validatePayload payload db0 = (Ok (None, validated), db) →
     idempotency db !! IngestRequest.idempotencyKey validated = Some record →
     clock db (tick db) < IdempotencyRecord.expiresAt record →
     IdempotencyRecord.status record = St_failed →
     ingestExerciseEvent "POST" payload db0
     = (Ok (mkHttp 500 (errorBody "Processing failed")), elapse 1 db)).
Proof.
  intros Hdoc Hexp Hstatus. split; [|split].
  - intros request processor. by apply processWithIdempotency_failed with data.
  - done.
  - intros payload validated db0 db record Hvalid Hrec Hexp' Hst'.
    unfold ingestExerciseEvent, tryCatch, bind. simpl.
    rewrite Hvalid. simpl.
    by rewrite (processWithIdempotency_failed _ _ _ db record).
Qed.

Lemma failed_key_stays_closed_witness :
  processWithIdempotency "key-next" Ex.next (processEvent Ex.next) Scenario.dbFailed
  = (Throw "Previous request failed, please retry with new idempotency key",
     elapse 1 Scenario.dbFailed) ∧
  ingestExerciseEvent "POST" Ex.next Scenario.dbFailed
  = (Ok (mkHttp 500 (errorBody "Processing failed")), elapse 1 (elapse 1 Scenario.dbFailed)).
Proof.
  destruct (failed_key_stays_closed "key-next" Scenario.dbFailed Scenario.failed)
    as (Hcall & _ & Hhttp); [reflexivity | reflexivity | reflexivity |].
  split; [apply Hcall|].
  apply (Hhttp Ex.next Ex.next Scenario.dbFailed (elapse 1 Scenario.dbFailed) Scenario.failed);
    reflexivity.
Defined.

(** X4: when the processor throws on a freshly claimed key, the record is
    marked [failed] with the error's message and a [failedAt] stamp, what the
    processor had done before throwing stays, and the call rethrows the
    error; from then on, and until the record expires 24 hours after the
    claim, every call on the key is turned away without running its
    processor. *)
Theorem processor_failure_closes_key {R T} `{Truthy T} key (request : R)
    (processor : M R T T) (w : World R T) error w1 :
  idempotency w !! key = None →
  processor (claimedWorld key request w 1) = (Throw error, w1) →
  idempotency w1 = idempotency (claimedWorld key request w 1) →
  let record := processingRecord key request (clock w (tick w)) in
  let out := processWithIdempotency key request processor w in
  out = (Throw (closedMessage error), failedWorld key error record w1) ∧
  idempotency (snd out) !! key
  = Some (failedFields error (clock w1 (tick w1)) record) ∧
  (error ≠ "CONCURRENT_REQUEST" → String.prefix "PREVIOUS_FAILED" error = false →
   fst out = Throw error) ∧
  ∀ (request2 : R) (processor2 : M R T T) (w2 : World R T),
    idempotency w2 !! key = idempotency (snd out) !! key →
    clock w2 (tick w2) < clock w (tick w) + 24 * 60 * 60 * 1000 →
    processWithIdempotency key request2 processor2 w2
    = (Throw "Previous request failed, please retry with new idempotency key",
       elapse 1 w2).
Proof.
  intros Hdoc Hrun Hidem record out.
  assert (Hout : out = (Throw (closedMessage error), failedWorld key error record w1)).
  { subst out.
    rewrite (processWithIdempotency_claimed key request processor w
               (claimedWorld key request w 1)) by (by apply claim_fresh).
    rewrite Hrun, Hidem. simpl. by rewrite lookup_insert_eq. }
  assert (Hrec : idempotency (snd out) !! key
                 = Some (failedFields error (clock w1 (tick w1)) record)).
  { rewrite Hout. simpl. by rewrite lookup_insert_eq. }
  split; [done|]. split; [done|]. split.
  - intros Hne Hprefix. rewrite Hout. simpl. unfold closedMessage.
    rewrite bool_decide_eq_false_2 by done. by rewrite Hprefix.
  - intros request2 processor2 w2 Hsame Hexp.
    rewrite Hrec in Hsame.
    by apply processWithIdempotency_failed
      with (failedFields error (clock w1 (tick w1)) record).
Qed.

Lemma processor_failure_closes_key_witness :
  fst (processWithIdempotency "key-late" Ex.late (throw "boom") Ex.db) = Throw "boom" ∧
  IdempotencyRecord.status <$>
    idempotency (snd (processWithIdempotency "key-late" Ex.late (throw "boom") Ex.db))
      !! "key-late"
  = Some St_failed.
Proof.
  destruct (processor_failure_closes_key "key-late" Ex.late (throw "boom") Ex.db "boom"
              (claimedWorld "key-late" Ex.late Ex.db 1))
    as (_ & Hrec & Hthrow & _); [reflexivity | reflexivity | reflexivity |].
  split; [apply Hthrow; [discriminate | reflexivity]|].
  cbv zeta in Hrec. rewrite Hrec. reflexivity.
Defined.

(** X5: the round trip of a request.  When a call on a key without a record
    runs a processor that returns a truthy response, every later call on that
    key, made before 24 hours have passed since the claim, returns that
    response with [isNew = false] and runs no processor.  The request stored
    with the record is not compared with the later one: a different request
    under the same key receives the first response. *)
Theorem retry_replays_first_response {R T} `{Truthy T} key (request : R)
    (processor : M R T T) (w : World R T) response w1 :
  idempotency w !! key = None →
  processor (claimedWorld key request w 1) = (Ok response, w1) →
  idempotency w1 = idempotency (claimedWorld key request w 1) →
  truthy response = true →
  let out := processWithIdempotency key request processor w in
  fst out = Ok (true, response) ∧
  ∀ (request2 : R) (processor2 : M R T T) (w2 : World R T),
    idempotency w2 !! key = idempotency (snd out) !! key →
    clock w2 (tick w2) < clock w (tick w) + 24 * 60 * 60 * 1000 →
    processWithIdempotency key request2 processor2 w2
    = (Ok (false, response), elapse 2 w2).
Proof.
  intros Hdoc Hrun Hidem Htruthy out.
  set (record := processingRecord (T:=T) key request (clock w (tick w))).
  assert (Hout : out = (Ok (true, response), completedWorld key response record w1)).
  { subst out.
    rewrite (processWithIdempotency_claimed key request processor w
               (claimedWorld key request w 1)) by (by apply claim_fresh).
    rewrite Hrun, Hidem. simpl. by rewrite lookup_insert_eq. }
  split; [by rewrite Hout|].
  intros request2 processor2 w2 Hsame Hexp.
  rewrite Hout in Hsame. simpl in Hsame. rewrite lookup_insert_eq in Hsame.
  unfold processWithIdempotency, tryCatch, bind.
  by rewrite (claim_cached key request2 w2 _ response Hsame).
Qed.

Lemma retry_replays_first_response_witness :
  processWithIdempotency "key-next" Ex.retry (throw "never run")
    (snd (processWithIdempotency "key-next" Ex.next (ret Ex.reply) Ex.db))
  = (Ok (false, Ex.reply),
     elapse 2 (snd (processWithIdempotency "key-next" Ex.next (ret Ex.reply) Ex.db))).
Proof.
  destruct (retry_replays_first_response "key-next" Ex.next (ret Ex.reply) Ex.db Ex.reply
              (claimedWorld "key-next" Ex.next Ex.db 1))
    as (_ & Hretry); [reflexivity | reflexivity | reflexivity | reflexivity |].
  apply Hretry; [reflexivity | by vm_compute].
Defined.

(** ** The endpoint's answers *)

(** Membership in a list given by its elements. *)
Ltac in_list := repeat first [apply list_elem_of_here | apply list_elem_of_further].
Ltac not_in_list H :=
  repeat (apply elem_of_cons in H as [H|H]; [discriminate H|]);
  by apply elem_of_nil in H.

Section Outcomes.
Context {R T : Type} `{Truthy T}.
Implicit Types (w : World R T) (data : IdempotencyRecord.t R T).

Lemma ticked_elapse n w : ticked w (elapse n w).
Proof. repeat split; simpl; lia. Qed.

Lemma ticked_trans w1 w2 w3 : ticked w1 w2 → ticked w2 w3 → ticked w1 w3.
Proof.
  intros (? & ? & ? & ? & ? & ?) (? & ? & ? & ? & ? & ?).
  repeat split; try congruence. lia.
Qed.

(** The four ends of the claim transaction. *)
Lemma claim_cases key request w :
  let out := runTransaction (claimCallback key request) w in
  (∃ response, fst out = Ok (fromCache response) ∧ ticked w (snd out)) ∨
  (∃ n, out = (Ok shouldProcess, claimedWorld key request w n)) ∨
  (fst out = Throw "CONCURRENT_REQUEST" ∧ ticked w (snd out)) ∨
  (∃ e, fst out = Throw ("PREVIOUS_FAILED: " +:+ e) ∧ ticked w (snd out)).
Proof.
  unfold runTransaction, claimCallback, bind, getIdempotency, now, ret, throw.
  destruct (idempotency w !! key) as [data|]; simpl;
    [|right; left; by exists 1%nat].
  destruct (clock w (tick w) <? IdempotencyRecord.expiresAt data); simpl;
    [|right; left; by exists 2%nat].
  destruct (cachedResponse data) as [response|]; simpl.
  { left. exists response. split; [done|]. apply (ticked_elapse 2). }
  destruct (bool_decide (IdempotencyRecord.status data = St_processing)); simpl.
  { match goal with |- context [if ?b then _ else _] => destruct b end; simpl.
    - right; left; by exists 2%nat.
    - right; right; left. split; [done|]. apply (ticked_elapse 1). }
  destruct (bool_decide (IdempotencyRecord.status data = St_failed)); simpl.
  - right; right; right. eexists. split; [done|]. apply (ticked_elapse 1).
  - right; left; by exists 2%nat.
Qed.
End Outcomes.

(** [processEvent] throws one error only. *)
Lemma processEvent_throws {R T} payload (w w' : World R T) e :
  processEvent payload w = (Throw e, w') →
  e = "Cannot create session without start event" ∧ w' = w.
Proof.
  intros Hrun.
  destruct (events w !! IngestRequest.eventId payload) as [ev|] eqn:Hev.
  { rewrite (processEvent_duplicate _ _ _ Hev) in Hrun. discriminate Hrun. }
  destruct (sessions w !! IngestRequest.sessionId payload) as [s|] eqn:Hsess.
  { destruct (processEvent_existing _ _ _ Hev Hsess) as (m & w1 & _ & _ & Hrun').
    rewrite Hrun' in Hrun. discriminate Hrun. }
  destruct (decide (IngestRequest.eventType payload = start)) as [Hst|Hst].
  - rewrite (processEvent_new _ _ Hev Hsess Hst) in Hrun. discriminate Hrun.
  - rewrite (processEvent_missing _ _ Hev Hsess Hst) in Hrun. by injection Hrun as <- <-.
Qed.

(** The validator always returns; it reads the clock and nothing else, and
    its errors are those of the source. *)
Lemma validateMetrics_errors m e :
  validateMetrics m = Some e → e ∈ validationErrors.
Proof.
  unfold validateMetrics, validationErrors.
  repeat case_match; intros [= <-]; in_list.
Qed.

Lemma validatePayload_run {R T} payload (w : World R T) :
  ∃ v w', validatePayload payload w = (Ok v, w') ∧ ticked w w' ∧
          ∀ e, fst v = Some e → e ∈ validationErrors.
Proof.
  unfold validatePayload.
  repeat (case_bool_decide;
          [eexists _, _; split; [reflexivity|]; split; [apply ticked_refl|];
           intros e [= <-]; unfold validationErrors; in_list|]).
  unfold bind, now, ret.
  set (nowMs := clock w (tick w)).
  destruct (IngestRequest.timestamp payload <? nowMs - oneWeek).
  { eexists _, _; split; [reflexivity|]; split; [apply (ticked_elapse 1)|].
    intros e [= <-]; unfold validationErrors; in_list. }
  destruct (IngestRequest.timestamp payload >? nowMs + oneHour).
  { eexists _, _; split; [reflexivity|]; split; [apply (ticked_elapse 1)|].
    intros e [= <-]; unfold validationErrors; in_list. }
  set (flagged := if IngestRequest.timestamp payload <? nowMs - oneHour then _ else _).
  destruct (match IngestRequest.metrics flagged with Some m => validateMetrics m | None => None end)
    as [e|] eqn:Hm.
  { eexists _, _; split; [reflexivity|]; split; [apply (ticked_elapse 1)|].
    intros e' [= <-]. destruct (IngestRequest.metrics flagged); [|done].
    by apply validateMetrics_errors with t. }
  destruct (IngestRequest.eventSequence flagged) as [n|].
  - destruct (n <? 0).
    + eexists _, _; split; [reflexivity|]; split; [apply (ticked_elapse 1)|].
      intros e [= <-]; unfold validationErrors; in_list.
    + eexists _, _; split; [reflexivity|]; split; [apply (ticked_elapse 1)|]. done.
  - eexists _, _; split; [reflexivity|]; split; [apply (ticked_elapse 1)|]. done.
Qed.

Lemma processEvent_metricsLog {R T} payload (w : World R T) :
  metricsLog (snd (processEvent payload w)) = metricsLog w ++ duplicateSignals payload w.
Proof.
  unfold duplicateSignals.
  destruct (events w !! IngestRequest.eventId payload) as [ev|] eqn:Hev.
  { by rewrite (processEvent_duplicate _ _ _ Hev). }
  rewrite app_nil_r.
  destruct (sessions w !! IngestRequest.sessionId payload) as [s|] eqn:Hsess.
  { destruct (processEvent_existing _ _ _ Hev Hsess) as (m & w1 & _ & _ & ->). done. }
  destruct (decide (IngestRequest.eventType payload = start)) as [Hst|Hst].
  - by rewrite (processEvent_new _ _ Hev Hsess Hst).
  - by rewrite (processEvent_missing _ _ Hev Hsess Hst).
Qed.

(** The ends of the call the endpoint makes. *)
Lemma guarded_call_cases (payload : IngestRequest.t) (w : Db) :
  let out := processWithIdempotency (IngestRequest.idempotencyKey payload) payload
               (processEvent payload) w in
  match fst out with
  | Ok (isNew, _) =>
      metricsLog (snd out)
      = metricsLog w ++ (if isNew then duplicateSignals payload w else [])
  | Throw e =>
      metricsLog (snd out) = metricsLog w ∧
      sessions (snd out) = sessions w ∧
      events (snd out) = events w ∧
      (e = "Request is already being processed" ∧ ticked w (snd out) ∨
       e = "Previous request failed, please retry with new idempotency key" ∧
       ticked w (snd out) ∨
       e = "Cannot create session without start event")
  end.
Proof.
  intros out. subst out.
  set (key := IngestRequest.idempotencyKey payload).
  destruct (claim_cases key payload w) as
    [(r & Hout & Ht)|[(n & Hout)|[(Hout & Ht)|(e & Hout & Ht)]]].
  - unfold processWithIdempotency, tryCatch, bind.
    destruct (runTransaction (claimCallback key payload) w) as [res wa].
    simpl in Hout, Ht. subst res. simpl.
    destruct Ht as (_ & _ & _ & -> & _). by rewrite app_nil_r.
  - rewrite (processWithIdempotency_claimed key payload _ w _ Hout).
    pose proof (processEvent_frame payload (claimedWorld key payload w n)) as (Hidem & _).
    pose proof (processEvent_metricsLog payload (claimedWorld key payload w n)) as Hlog.
    destruct (processEvent payload (claimedWorld key payload w n)) as [[r|e] wb] eqn:Hrun;
      simpl in Hidem, Hlog; rewrite Hidem; simpl; rewrite lookup_insert_eq; simpl.
    + done.
    + apply processEvent_throws in Hrun as (-> & ->). simpl.
      split; [done|]. split; [done|]. split; [done|]. by right; right.
  - unfold processWithIdempotency, tryCatch, bind.
    destruct (runTransaction (claimCallback key payload) w) as [res wa].
    simpl in Hout, Ht. subst res. simpl.
    pose proof Ht as (_ & Hs & He & Hm & _).
    split; [done|]. split; [done|]. split; [done|]. by left.
  - unfold processWithIdempotency, tryCatch, bind.
    destruct (runTransaction (claimCallback key payload) w) as [res wa].
    simpl in Hout, Ht. subst res.
    unfold failClosed, throw. rewrite closedMessage_previous_failed. simpl.
    pose proof Ht as (_ & Hs & He & Hm & _).
    split; [done|]. split; [done|]. split; [done|]. by right; left.
Qed.

(** ** The endpoint *)

(** The endpoint unfolded on a [POST] whose body passes validation. *)
Lemma ingest_validated (payload validated : IngestRequest.t) (w w1 : Db) :
  validatePayload payload w = (Ok (None, validated), w1) →
  ingestExerciseEvent "POST" payload w
  = match processWithIdempotency (IngestRequest.idempotencyKey validated) validated
            (processEvent validated) w1 with
    | (Ok result, w2) =>
        (Ok (mkHttp 200 (jsonBody (snd result))),
         snd (logMetrics (ingestedSignal validated (fst result)) w2))
    | (Throw e, w2) =>
        (Ok (if bool_decide (e = "Request is already being processed")
             then mkHttp 409 (errorBody e)
             else mkHttp 500 (errorBody "Processing failed")), w2)
    end.
Proof.
  intros Hvalid.
  unfold ingestExerciseEvent, tryCatch, bind. simpl. rewrite Hvalid. simpl.
  destruct (processWithIdempotency _ _ _ w1) as [[result|e] w2]; simpl; [done|].
  by case_bool_decide.
Qed.

Lemma ingest_rejected (payload validated : IngestRequest.t) (w w1 : Db) e :
  validatePayload payload w = (Ok (Some e, validated), w1) →
  ingestExerciseEvent "POST" payload w = (Ok (mkHttp 400 (errorBody e)), w1).
Proof.
  intros Hvalid.
  unfold ingestExerciseEvent, tryCatch, bind. simpl. by rewrite Hvalid.
Qed.

Lemma ingest_not_post method (payload : IngestRequest.t) (w : Db) :
  method ≠ "POST" →
  ingestExerciseEvent method payload w
  = (Ok (mkHttp 405 (errorBody "Method not allowed")), w).
Proof.
  intros Hm. unfold ingestExerciseEvent, tryCatch.
  by rewrite bool_decide_eq_true_2.
Qed.

(** X7: the endpoint answers every request: the handler never throws, and
    its status is 405 exactly for a method other than POST, 400 exactly for a
    POST whose body the validator rejects, with the validator's message as
    error, and otherwise 200, 409 or 500; a body other than an error is sent
    with 200 only, and the answer of the outer catch, "Internal server
    error", is never given. *)
Theorem endpoint_always_answers method (payload : IngestRequest.t) (w : Db) :
  ∃ response w',
    ingestExerciseEvent method payload w = (Ok response, w') ∧
    statusCode response ∈ [200; 400; 405; 409; 500] ∧
    (statusCode response = 405 ↔ method ≠ "POST") ∧
    (statusCode response = 400 ↔
     method = "POST" ∧
     ∃ e, fst <$> returned (fst (validatePayload payload w)) = Some (Some e) ∧
          body response = errorBody e) ∧
    (statusCode response = 200 ↔ ∃ r, body response = jsonBody r) ∧
    body response ≠ errorBody "Internal server error".
Proof.
  destruct (decide (method = "POST")) as [->|Hm].
  2:{ rewrite (ingest_not_post method payload w Hm).
      eexists _, _. split; [done|]. simpl.
      split; [in_list|]. split; [done|]. split; [|split; [|done]].
      - split; [done|]. by intros [? _].
      - split; [done|]. by intros [r ?]. }
  destruct (validatePayload_run payload w) as ([[e|] validated] & w1 & Hvalid & _ & Hmsg).
  { rewrite (ingest_rejected _ _ _ _ _ Hvalid). rewrite Hvalid.
    eexists _, _. split; [done|]. simpl.
    split; [in_list|]. split; [done|]. split; [|split].
    - split; [|done]. intros _. split; [done|]. by exists e.
    - split; [done|]. by intros [r ?].
    - intros [= ->]. specialize (Hmsg _ eq_refl). unfold validationErrors in Hmsg.
      not_in_list Hmsg. }
  rewrite (ingest_validated _ _ _ _ Hvalid). rewrite Hvalid. simpl.
  destruct (processWithIdempotency _ _ _ w1) as [[result|e] w2].
  - eexists _, _. split; [done|]. simpl.
    split; [in_list|]. split; [done|]. split; [|split; [|done]].
    + split; [done|]. by intros [_ (? & [= ] & _)].
    + split; [|done]. intros _. by eexists.
  - case_bool_decide; simplify_eq; eexists _, _; (split; [done|]); simpl;
      (split; [in_list|]); (split; [done|]); (split; [|split; [|done]]);
      try (split; [done|]; by intros [_ (? & [= ] & _)]);
      (split; [done|]; by intros [r ?]).
Qed.

(** X8: a request answered 400, 405 or 409 leaves every document as it
    was and sends no signal to the metrics sink; all that changes is the
    number of clock readings made. *)
Theorem refused_request_writes_nothing method (payload : IngestRequest.t)
    (w w' : Db) response :
  ingestExerciseEvent method payload w = (Ok response, w') →
  statusCode response ∈ [400; 405; 409] →
  idempotency w' = idempotency w ∧ sessions w' = sessions w ∧
  events w' = events w ∧ metricsLog w' = metricsLog w ∧
  clock w' = clock w ∧ (tick w ≤ tick w')%nat.
Proof.
  intros Hrun Hstatus. change (ticked w w').
  destruct (decide (method = "POST")) as [->|Hm].
  2:{ rewrite (ingest_not_post method payload w Hm) in Hrun.
      injection Hrun as _ <-. apply ticked_refl. }
  destruct (validatePayload_run payload w) as ([[e|] validated] & w1 & Hvalid & Ht & _).
  { rewrite (ingest_rejected _ _ _ _ _ Hvalid) in Hrun. by injection Hrun as _ <-. }
  rewrite (ingest_validated _ _ _ _ Hvalid) in Hrun.
  pose proof (guarded_call_cases validated w1) as Hcases. cbv zeta in Hcases.
  destruct (processWithIdempotency _ _ _ w1) as [[result|e] w2]; simpl in Hcases.
  - injection Hrun as <- _. simpl in Hstatus. not_in_list Hstatus.
  - case_bool_decide as He.
    + injection Hrun as _ <-.
      destruct Hcases as (_ & _ & _ & [(_ & Ht2)|[(He' & _)|He']]);
        [by apply ticked_trans with w1|by rewrite He' in He|by rewrite He' in He].
    + injection Hrun as <- _. simpl in Hstatus. not_in_list Hstatus.
Qed.

Lemma refused_request_writes_nothing_witness :
  idempotency (snd (ingestExerciseEvent "POST" Ex.next Ex.dbClaimed))
  = idempotency Ex.dbClaimed ∧
  sessions (snd (ingestExerciseEvent "POST" Ex.next Ex.dbClaimed)) = sessions Ex.dbClaimed.
Proof.
  destruct (refused_request_writes_nothing "POST" Ex.next Ex.dbClaimed
              (snd (ingestExerciseEvent "POST" Ex.next Ex.dbClaimed))
              (mkHttp 409 (errorBody "Request is already being processed")))
    as (Hi & Hs & _); [reflexivity | simpl; in_list |].
  split; [exact Hi | exact Hs].
Defined.



(** ** Retries at the endpoint *)

(** The validator changes nothing of the payload but the two drift flags. *)
Lemma validatePayload_fields {R T} payload (w w' : World R T) v validated :
  validatePayload payload w = (Ok (v, validated), w') →
  sameBut_flags payload validated.
Proof.
  unfold validatePayload, sameBut_flags.
  repeat (case_bool_decide; [intros [= _ <- _]; by destruct payload|]).
  unfold bind, now, ret.
  repeat (case_match; try (intros [= _ <- _]; by destruct payload)).
Qed.

Lemma sameBut_flags_key p q :
  sameBut_flags p q → IngestRequest.idempotencyKey q = IngestRequest.idempotencyKey p.
Proof. intros ->. done. Qed.

Section ClaimInversion.
Context {R T : Type} `{Truthy T}.
Implicit Types (w : World R T) (data : IdempotencyRecord.t R T).

(** A claim that replays found a completed record with that response. *)
Lemma claim_fromCache_inv key request w response :
  fst (runTransaction (claimCallback key request) w) = Ok (fromCache response) →
  ∃ data,
    idempotency w !! key = Some data ∧
    clock w (tick w) < IdempotencyRecord.expiresAt data ∧
    IdempotencyRecord.status data = St_completed ∧
    IdempotencyRecord.response data = Some response ∧
    truthy response = true.
Proof.
  unfold runTransaction, claimCallback, bind, getIdempotency, now, ret, throw.
  destruct (idempotency w !! key) as [data|]; simpl; [|done].
  destruct (Z.ltb_spec (clock w (tick w)) (IdempotencyRecord.expiresAt data));
    simpl; [|done].
  unfold cachedResponse.
  case_bool_decide as Hst; simpl.
  - destruct (IdempotencyRecord.response data) as [r|] eqn:Hr; simpl.
    + destruct (truthy r) eqn:Htr; simpl.
      * intros [= <-]. by exists data.
      * rewrite Hst. simpl. done.
    + rewrite Hst. simpl. done.
  - repeat case_bool_decide; simpl; try done.
    by match goal with |- context [if ?b then _ else _] => destruct b end.
Qed.
End ClaimInversion.

(** A guarded call of the merge that returns leaves a completed record
    with the response it returned; sessions and events are as the merge left
    them. *)
Lemma guarded_call_returns (payload : IngestRequest.t) (w w' : Db) isNew r :
  processWithIdempotency (IngestRequest.idempotencyKey payload) payload
    (processEvent payload) w = (Ok (isNew, r), w') →
  ∃ data,
    idempotency w' !! IngestRequest.idempotencyKey payload = Some data ∧
    IdempotencyRecord.status data = St_completed ∧
    IdempotencyRecord.response data = Some r.
Proof.
  set (key := IngestRequest.idempotencyKey payload).
  intros Hrun.
  destruct (claim_cases key payload w) as
    [(r' & Hout & Ht)|[(n & Hout)|[(Hout & Ht)|(e & Hout & Ht)]]].
  - destruct (claim_fromCache_inv key payload w r' Hout)
      as (data & Hdoc & _ & Hst & Hr & _).
    revert Hrun. unfold processWithIdempotency, tryCatch, bind.
    destruct (runTransaction (claimCallback key payload) w) as [res wa].
    simpl in Hout, Ht. subst res. simpl. intros [= <- <- <-].
    destruct Ht as (-> & _). by exists data.
  - rewrite (processWithIdempotency_claimed key payload _ w _ Hout) in Hrun.
    pose proof (processEvent_frame payload (claimedWorld key payload w n)) as (Hidem & _).
    destruct (processEvent payload (claimedWorld key payload w n)) as [[r'|e] wb];
      simpl in Hidem; rewrite Hidem in Hrun; simpl in Hrun;
      rewrite lookup_insert_eq in Hrun; [|done].
    injection Hrun as <- <- <-. simpl. rewrite lookup_insert_eq. by eexists.
  - revert Hrun. unfold processWithIdempotency, tryCatch, bind.
    destruct (runTransaction (claimCallback key payload) w) as [res wa].
    simpl in Hout. by subst res.
  - revert Hrun. unfold processWithIdempotency, tryCatch, bind.
    destruct (runTransaction (claimCallback key payload) w) as [res wa].
    simpl in Hout. by subst res.
Qed.

(** X10: the endpoint is idempotent per key.  Once a POST has been
    answered 200, every later POST that carries the same idempotency key and
    passes validation, made while the key's record is as the first request
    left it and has not expired, is answered 200 with the same body, whatever
    else it carries; it changes no session, no event and no idempotency
    record, and it is counted as a duplicate by the metrics sink. *)
Theorem endpoint_retry_is_idempotent (payload : IngestRequest.t) (w w1 : Db) r :
  ingestExerciseEvent "POST" payload w = (Ok (mkHttp 200 (jsonBody r)), w1) →
  ∀ (payload2 validated2 : IngestRequest.t) (w2 w3 : Db),
    IngestRequest.idempotencyKey payload2 = IngestRequest.idempotencyKey payload →
    idempotency w2 !! IngestRequest.idempotencyKey payload
    = idempotency w1 !! IngestRequest.idempotencyKey payload →
    validatePayload payload2 w2 = (Ok (None, validated2), w3) →
    (∀ data, idempotency w1 !! IngestRequest.idempotencyKey payload = Some data →
             clock w3 (tick w3) < IdempotencyRecord.expiresAt data) →
    ∃ w4,
      ingestExerciseEvent "POST" payload2 w2 = (Ok (mkHttp 200 (jsonBody r)), w4) ∧
      idempotency w4 = idempotency w2 ∧
      sessions w4 = sessions w2 ∧
      events w4 = events w2 ∧
      metricsLog w4 = metricsLog w2 ++ [ingestedSignal validated2 false].
Proof.
  intros Hfirst payload2 validated2 w2 w3 Hkey Hsame Hvalid2 Hexp.
  (* the first request left a completed record that holds [r] *)
  assert (Hrec : ∃ data,
    idempotency w1 !! IngestRequest.idempotencyKey payload = Some data ∧
    IdempotencyRecord.status data = St_completed ∧
    IdempotencyRecord.response data = Some r).
  { destruct (validatePayload_run payload w)
      as ([[e|] validated] & wv & Hvalid & _ & _).
    { rewrite (ingest_rejected _ _ _ _ _ Hvalid) in Hfirst. discriminate Hfirst. }
    rewrite (ingest_validated _ _ _ _ Hvalid) in Hfirst.
    pose proof (sameBut_flags_key _ _ (validatePayload_fields _ _ _ _ _ Hvalid)) as Hk.
    destruct (processWithIdempotency _ _ _ wv) as [[[isNew r']|e] wp] eqn:Hcall.
    - destruct (guarded_call_returns _ _ _ _ _ Hcall) as (data & Hdoc & Hst & Hr).
      injection Hfirst as <- <-. simpl. rewrite <- Hk. by exists data.
    - by case_bool_decide. }
  destruct Hrec as (data & Hdoc & Hst & Hr).
  specialize (Hexp data Hdoc).
  (* the second request finds it *)
  pose proof (sameBut_flags_key _ _ (validatePayload_fields _ _ _ _ _ Hvalid2)) as Hk2.
  destruct (validatePayload_run payload2 w2) as (v & w3' & Hvalid2' & Ht & _).
  rewrite Hvalid2 in Hvalid2'. injection Hvalid2' as <- <-.
  destruct Ht as (Hi & Hs & He & Hm & _).
  rewrite (ingest_validated _ _ _ _ Hvalid2).
  unfold processWithIdempotency, tryCatch, bind.
  rewrite (claim_cached (IngestRequest.idempotencyKey validated2) validated2 w3 data r);
    [|by rewrite Hk2, Hkey, Hi, Hsame|done|done|done|done].
  eexists. split; [done|]. simpl. by rewrite Hm.
Qed.

Lemma endpoint_retry_is_idempotent_witness :
  ∃ w4,
    ingestExerciseEvent "POST" Scenario.other (snd Scenario.replayed)
    = (Ok (mkHttp 200 (jsonBody Ex.reply)), w4) ∧
    sessions w4 = sessions (snd Scenario.replayed) ∧
    events w4 = events (snd Scenario.replayed).
Proof.
  destruct (endpoint_retry_is_idempotent Ex.next Ex.dbCompleted (snd Scenario.replayed)
              Ex.reply eq_refl Scenario.other Scenario.other (snd Scenario.replayed)
              (elapse 1 (snd Scenario.replayed)))
    as (w4 & Hrun & _ & Hs & He & _); [reflexivity | reflexivity | reflexivity | |].
  - intros data [= <-]. by vm_compute.
  - by exists w4.
Defined.

Lemma sameBut_flags_fields p q :
  sameBut_flags p q →
  IngestRequest.sessionId q = IngestRequest.sessionId p ∧
  IngestRequest.userId q = IngestRequest.userId p ∧
  IngestRequest.eventId q = IngestRequest.eventId p ∧
  IngestRequest.eventType q = IngestRequest.eventType p ∧
  IngestRequest.timestamp q = IngestRequest.timestamp p ∧
  IngestRequest.metrics q = IngestRequest.metrics p ∧
  IngestRequest.eventSequence q = IngestRequest.eventSequence p.
Proof. intros ->. done. Qed.

(** X11: an [update] or [end] event for a session that does not exist,
    sent under a fresh key, is answered 500 "Processing failed": no Session
    and no Event document is written and no signal is sent, but the key's
    record is left [failed] with the error "Cannot create session without
    start event".  The key is closed from then on: until the record expires,
    every valid request under that key is answered 500 as well, also after
    the session has been started. *)
Theorem event_before_start_closes_key (payload validated : IngestRequest.t) (w w1 : Db) :
  validatePayload payload w = (Ok (None, validated), w1) →
  idempotency w !! IngestRequest.idempotencyKey payload = None →
  events w !! IngestRequest.eventId payload = None →
  sessions w !! IngestRequest.sessionId payload = None →
  IngestRequest.eventType payload ≠ start →
  ∃ w2 data,
    ingestExerciseEvent "POST" payload w
    = (Ok (mkHttp 500 (errorBody "Processing failed")), w2) ∧
    sessions w2 = sessions w ∧ events w2 = events w ∧ metricsLog w2 = metricsLog w ∧
    idempotency w2 !! IngestRequest.idempotencyKey payload = Some data ∧
    IdempotencyRecord.status data = St_failed ∧
    IdempotencyRecord.error data = Some "Cannot create session without start event" ∧
    ∀ (payload3 validated3 : IngestRequest.t) (w3 w4 : Db),
      IngestRequest.idempotencyKey payload3 = IngestRequest.idempotencyKey payload →
      idempotency w3 !! IngestRequest.idempotencyKey payload = Some data →
      validatePayload payload3 w3 = (Ok (None, validated3), w4) →
      clock w4 (tick w4) < IdempotencyRecord.expiresAt data →
      ingestExerciseEvent "POST" payload3 w3
      = (Ok (mkHttp 500 (errorBody "Processing failed")), elapse 1 w4).
Proof.
  intros Hvalid Hkey Hev Hsess Htype.
  pose proof (validatePayload_fields _ _ _ _ _ Hvalid) as Hsame.
  pose proof (sameBut_flags_key _ _ Hsame) as Hk.
  destruct (sameBut_flags_fields _ _ Hsame) as (Hsid & _ & Heid & Hty & _).
  destruct (validatePayload_run payload w) as (v & w1' & Hvalid' & Ht & _).
  rewrite Hvalid in Hvalid'. injection Hvalid' as <- <-.
  destruct Ht as (Hi & Hs & He & Hm & _).
  rewrite (ingest_validated _ _ _ _ Hvalid).
  set (key := IngestRequest.idempotencyKey validated) in *.
  rewrite (processWithIdempotency_claimed key validated _ w1 (claimedWorld key validated w1 1))
    by (apply claim_fresh; by rewrite Hi, Hk).
  rewrite (processEvent_missing validated (claimedWorld key validated w1 1))
    by (simpl; congruence).
  simpl. rewrite lookup_insert_eq. simpl.
  eexists _, _. split; [done|]. simpl.
  split; [done|]. split; [done|]. split; [done|].
  rewrite <- Hk. fold key. rewrite lookup_insert_eq.
  split; [done|]. split; [done|]. split; [done|].
  intros payload3 validated3 w3 w4 Hkey3 Hdoc3 Hvalid3 Hexp3.
  pose proof (sameBut_flags_key _ _ (validatePayload_fields _ _ _ _ _ Hvalid3)) as Hk3.
  destruct (validatePayload_run payload3 w3) as (v3 & w4' & Hvalid3' & Ht3 & _).
  rewrite Hvalid3 in Hvalid3'. injection Hvalid3' as <- <-.
  destruct Ht3 as (Hi3 & _).
  rewrite (ingest_validated _ _ _ _ Hvalid3).
  erewrite processWithIdempotency_failed; [done| |done|done].
  by rewrite Hk3, Hkey3, Hi3.
Qed.

Lemma event_before_start_closes_key_witness :
  fst (ingestExerciseEvent "POST" Scenario.orphan Ex.empty)
  = Ok (mkHttp 500 (errorBody "Processing failed")).
Proof.
  destruct (event_before_start_closes_key Scenario.orphan Scenario.orphan Ex.empty
              (elapse 1 Ex.empty))
    as (w2 & data & -> & _); [reflexivity | reflexivity | reflexivity | reflexivity | done |].
  reflexivity.
Defined.

(** ** The life cycle of a session *)

(** What [updateSessionMetrics] does to the life cycle of a session:
    lines 216-229 and 264-271. *)
Lemma updateSessionMetrics_lifecycle {R T} session payload (w : World R T) :
  ∃ session' w',
    updateSessionMetrics session payload w = (Ok session', w') ∧
    let eventTime := IngestRequest.timestamp payload in
    ExerciseSession.userId session' = ExerciseSession.userId session ∧
    ExerciseSession.startTime session'
    = (if bool_decide (IngestRequest.eventType payload = start)
       then Z.min (ExerciseSession.startTime session) eventTime
       else ExerciseSession.startTime session) ∧
    ExerciseSession.endTime session'
    = (if bool_decide (IngestRequest.eventType payload = end_)
       then Some (laterEnd (ExerciseSession.endTime session) eventTime)
       else ExerciseSession.endTime session) ∧
    ExerciseSession.status session'
    = (if bool_decide (IngestRequest.eventType payload = end_)
       then completed
       else ExerciseSession.status session) ∧
    SessionMetrics.totalDuration (ExerciseSession.metrics session')
    = (Js.num (match ExerciseSession.endTime session' with
               | Some endTime => endTime
               | None => clock w (tick w)
               end - ExerciseSession.startTime session') / Js.num 1000)%Qc.
Proof.
  unfold updateSessionMetrics.
  set (s1 := if bool_decide (IngestRequest.eventType payload = start) then _ else _).
  set (s2 := if bool_decide (IngestRequest.eventType payload = end_) then _ else _).
  set (s3 := match IngestRequest.metrics payload with Some _ => _ | None => _ end).
  assert (H1 : ExerciseSession.userId s1 = ExerciseSession.userId session ∧
               ExerciseSession.endTime s1 = ExerciseSession.endTime session ∧
               ExerciseSession.status s1 = ExerciseSession.status session ∧
               ExerciseSession.startTime s1
               = (if bool_decide (IngestRequest.eventType payload = start)
                  then Z.min (ExerciseSession.startTime session)
                         (IngestRequest.timestamp payload)
                  else ExerciseSession.startTime session)).
  { subst s1.
    destruct (bool_decide (IngestRequest.eventType payload = start)); [|done].
    destruct (Z.ltb_spec (IngestRequest.timestamp payload)
                (ExerciseSession.startTime session)); simpl;
      repeat split; lia. }
  destruct H1 as (Hu1 & He1 & Hst1 & Hs1). clearbody s1.
  assert (H2 : ExerciseSession.userId s2 = ExerciseSession.userId s1 ∧
               ExerciseSession.startTime s2 = ExerciseSession.startTime s1 ∧
               ExerciseSession.endTime s2
               = (if bool_decide (IngestRequest.eventType payload = end_)
                  then Some (laterEnd (ExerciseSession.endTime s1)
                               (IngestRequest.timestamp payload))
                  else ExerciseSession.endTime s1) ∧
               ExerciseSession.status s2
               = (if bool_decide (IngestRequest.eventType payload = end_)
                  then completed else ExerciseSession.status s1)).
  { subst s2.
    destruct (bool_decide (IngestRequest.eventType payload = end_)); [|done].
    unfold laterEnd. destruct (ExerciseSession.endTime s1) as [e|] eqn:He; simpl; [|done].
    destruct (Z.gtb_spec (IngestRequest.timestamp payload) e); simpl;
      rewrite ?He; repeat split; f_equal; lia. }
  destruct H2 as (Hu2 & Hs2 & He2 & Hst2). clearbody s2.
  assert (H3 : ExerciseSession.userId s3 = ExerciseSession.userId s2 ∧
               ExerciseSession.startTime s3 = ExerciseSession.startTime s2 ∧
               ExerciseSession.endTime s3 = ExerciseSession.endTime s2 ∧
               ExerciseSession.status s3 = ExerciseSession.status s2).
  { subst s3. by destruct (IngestRequest.metrics payload). }
  destruct H3 as (Hu3 & Hs3 & He3 & Hst3). clearbody s3.
  rewrite He1 in He2. rewrite He2 in He3.
  rewrite Hu1 in Hu2. rewrite Hu2 in Hu3.
  rewrite Hs1 in Hs2. rewrite Hs2 in Hs3.
  rewrite Hst1 in Hst2. rewrite Hst2 in Hst3.
  destruct (ExerciseSession.endTime s3) as [endTime|] eqn:Hend.
  - eexists _, _. split; [reflexivity|]. simpl.
    rewrite Hend, Hu3, Hs3, Hst3, <- He3. done.
  - eexists _, _. split; [reflexivity|]. simpl.
    rewrite Hend, Hu3, Hs3, Hst3, <- He3. done.
Qed.

Lemma updateTracking_lifecycle session payload :
  let s2 := updateTracking session payload in
  ExerciseSession.userId s2 = ExerciseSession.userId session ∧
  ExerciseSession.startTime s2 = ExerciseSession.startTime session ∧
  ExerciseSession.endTime s2 = ExerciseSession.endTime session ∧
  ExerciseSession.status s2 = ExerciseSession.status session.
Proof.
  unfold updateTracking.
  destruct session as [? ? ? ? ? ? lastEventTime ? ? ? ? ? ?]; simpl.
  destruct lastEventTime as [t|]; simpl; [|done].
  by destruct (IngestRequest.timestamp payload >? t).
Qed.

(** The merge into an existing session, with what it does to the life
    cycle. *)
Lemma mergeIntoSession_lifecycle {R T} session payload (w : World R T) :
  ∃ merged w',
    mergeIntoSession session payload w = (Ok (merged, isOutOfOrder payload session), w') ∧
    ticked w w' ∧
    mergeFacts payload session merged ∧
    lifecycleFacts payload session merged (clock w (tick w)).
Proof.
  destruct (mergeIntoSession_run session payload w) as (merged & w' & Hrun & Ht & Hfacts).
  exists merged, w'. split; [done|]. split; [done|]. split; [done|].
  revert Hrun. unfold lifecycleFacts, accepted, isOutOfOrder, mergeIntoSession.
  set (bySequence := sequenceOutOfOrder payload session).
  set (s1 := if bySequence then _ else session).
  assert (Hbt : timeOutOfOrder payload s1 = timeOutOfOrder payload session).
  { subst s1. by destruct bySequence. }
  rewrite Hbt. set (byTime := timeOutOfOrder payload session).
  set (s2 := if byTime then _ else s1).
  destruct (bySequence || byTime) eqn:Hooo.
  - assert (Hs2 : s2 = ExerciseSession.flag out_of_order session).
    { subst s2 s1. destruct bySequence, byTime; try done. }
    unfold bind, ret. intros [= <- _].
    pose proof (updateTracking_lifecycle s2 payload) as Htr. cbv zeta in Htr.
    destruct Htr as (Hu & Hs & He & Hst). rewrite Hu, Hs, He, Hst, Hs2. done.
  - assert (Hs2 : s2 = session).
    { subst s2 s1. apply orb_false_elim in Hooo as [-> ->]. done. }
    rewrite Hs2. unfold bind.
    destruct (updateSessionMetrics_lifecycle session payload w)
      as (s3 & w3 & Hrun3 & Hu3 & Hs3 & He3 & Hst3 & Hd3).
    rewrite Hrun3. unfold ret. intros [= <- _].
    pose proof (updateTracking_lifecycle s3 payload) as Htr. cbv zeta in Htr.
    destruct Htr as (Hu & Hs & He & Hst).
    pose proof (tracking_fields s3 payload) as Htf. cbv zeta in Htf.
    destruct Htf as (_ & _ & _ & _ & _ & _ & _ & Hm).
    rewrite He3, Hs3 in Hd3.
    rewrite Hu, Hs, He, Hst, Hm, Hu3, Hs3, He3, Hst3. simpl. done.
Qed.

(** A new event for a session that exists: what is returned and what is
    committed. *)
Lemma processEvent_merge {R T} payload (w : World R T) session :
  events w !! IngestRequest.eventId payload = None →
  sessions w !! IngestRequest.sessionId payload = Some session →
  ∃ merged commitTime,
    mergeFacts payload session merged ∧
    lifecycleFacts payload session merged (clock w (tick w)) ∧
    fst (processEvent payload w)
    = Ok (successResponse (markClockDrift payload merged) (isOutOfOrder payload session)) ∧
    sessions (snd (processEvent payload w))
    = <[IngestRequest.sessionId payload :=
          ExerciseSession.resolve commitTime (markClockDrift payload merged)]> (sessions w) ∧
    events (snd (processEvent payload w))
    = <[IngestRequest.eventId payload :=
          ExerciseEvent.resolve commitTime
            (eventRecord payload (isOutOfOrder payload session))]> (events w).
Proof.
  intros Hev Hsess.
  destruct (mergeIntoSession_lifecycle session payload w)
    as (merged & w1 & Hrun & Hticked & Hfacts & Hlife).
  exists merged, (clock w (tick w1)). split; [done|]. split; [done|].
  unfold processEvent, runTransaction, processEventCallback, bind, getEvent, getSession.
  rewrite Hev, Hsess, Hrun.
  destruct Hticked as (Hi & Hs & He & Hm & Hc & _).
  simpl. rewrite Hs, He, Hc. done.
Qed.

(** The three ways [processEvent] can leave the documents. *)
Lemma processEvent_cases {R T} payload (w : World R T) :
  let w' := snd (processEvent payload w) in
  (sessions w' = sessions w ∧ events w' = events w) ∨
  (events w !! IngestRequest.eventId payload = None ∧
   sessions w !! IngestRequest.sessionId payload = None ∧
   IngestRequest.eventType payload = start ∧
   ∃ commitTime,
     sessions w'
     = <[IngestRequest.sessionId payload :=
           ExerciseSession.resolve commitTime
             (markClockDrift payload (createNewSession payload))]> (sessions w) ∧
     events w'
     = <[IngestRequest.eventId payload :=
           ExerciseEvent.resolve commitTime (eventRecord payload false)]> (events w)) ∨
  (events w !! IngestRequest.eventId payload = None ∧
   ∃ session merged commitTime,
     sessions w !! IngestRequest.sessionId payload = Some session ∧
     mergeFacts payload session merged ∧
     lifecycleFacts payload session merged (clock w (tick w)) ∧
     sessions w'
     = <[IngestRequest.sessionId payload :=
           ExerciseSession.resolve commitTime (markClockDrift payload merged)]>
         (sessions w) ∧
     events w'
     = <[IngestRequest.eventId payload :=
           ExerciseEvent.resolve commitTime
             (eventRecord payload (isOutOfOrder payload session))]> (events w)).
Proof.
  intros w'. subst w'.
  destruct (events w !! IngestRequest.eventId payload) as [ev|] eqn:Hev.
  { left. by rewrite (processEvent_duplicate _ _ _ Hev). }
  destruct (sessions w !! IngestRequest.sessionId payload) as [s|] eqn:Hsess.
  { right; right. split; [done|].
    destruct (processEvent_merge _ _ _ Hev Hsess) as (merged & t & Hf & Hl & _ & Hs & He).
    by exists s, merged, t. }
  destruct (decide (IngestRequest.eventType payload = start)) as [Hst|Hst].
  - right; left. rewrite (processEvent_new _ _ Hev Hsess Hst).
    split; [done|]. split; [done|]. split; [done|]. by eexists.
  - left. by rewrite (processEvent_missing _ _ Hev Hsess Hst).
Qed.

Lemma markClockDrift_lifecycle payload session :
  let marked := markClockDrift payload session in
  ExerciseSession.userId marked = ExerciseSession.userId session ∧
  ExerciseSession.sessionId marked = ExerciseSession.sessionId session ∧
  ExerciseSession.startTime marked = ExerciseSession.startTime session ∧
  ExerciseSession.endTime marked = ExerciseSession.endTime session ∧
  ExerciseSession.status marked = ExerciseSession.status session.
Proof. unfold markClockDrift. by case_match. Qed.

(** An accepted event is not older than the last one. *)
Lemma accepted_not_older payload session lastEventTime :
  accepted payload session = true →
  ExerciseSession.lastEventTime session = Some lastEventTime →
  lastEventTime ≤ IngestRequest.timestamp payload.
Proof.
  unfold accepted, isOutOfOrder, timeOutOfOrder. intros Hacc Hlast.
  rewrite Hlast in Hacc. apply negb_true_iff, orb_false_elim in Hacc as [_ Hacc].
  by apply Z.ltb_ge in Hacc.
Qed.

(** A merge keeps the instants of a session in order, and its start where
    it was. *)
Lemma merge_wellTimed payload session merged nowMs :
  mergeFacts payload session merged →
  lifecycleFacts payload session merged nowMs →
  wellTimed session →
  wellTimed merged ∧ ExerciseSession.startTime merged = ExerciseSession.startTime session.
Proof.
  intros (_ & Hlast & _) (_ & Hstart & Hend & _) (t & Ht & Hst & Het).
  unfold watermarkTime in Hlast. rewrite Ht in Hlast.
  destruct (accepted payload session) eqn:Hacc; simpl in Hstart, Hend.
  - pose proof (accepted_not_older _ _ _ Hacc Ht) as Hle.
    assert (Hs : ExerciseSession.startTime merged = ExerciseSession.startTime session).
    { rewrite Hstart.
      destruct (bool_decide (IngestRequest.eventType payload = start)); lia. }
    split; [|done].
    exists (Z.max t (IngestRequest.timestamp payload)). split; [done|].
    rewrite Hs, Hend. split; [lia|].
    destruct (bool_decide (IngestRequest.eventType payload = end_)).
    + unfold laterEnd. destruct (ExerciseSession.endTime session); lia.
    + destruct (ExerciseSession.endTime session); [lia|done].
  - split; [|done].
    exists (Z.max t (IngestRequest.timestamp payload)). split; [done|].
    rewrite Hstart, Hend. split; [lia|].
    destruct (ExerciseSession.endTime session); [lia|done].
Qed.

Lemma createNewSession_wellTimed payload : wellTimed (createNewSession payload).
Proof. eexists. split; [reflexivity|]. simpl. split; [lia|done]. Qed.

Lemma wellTimed_stored payload session commitTime :
  wellTimed session →
  wellTimed (ExerciseSession.resolve commitTime (markClockDrift payload session)).
Proof.
  intros Hw. unfold wellTimed, ExerciseSession.resolve. simpl.
  pose proof (markClockDrift_lifecycle payload session) as Hl. cbv zeta in Hl.
  destruct Hl as (_ & _ & Hs & He & _).
  pose proof (markClockDrift_fields payload session) as Hf. cbv zeta in Hf.
  destruct Hf as (_ & _ & _ & Hlt & _).
  by rewrite Hs, He, Hlt.
Qed.

(** X12: the instants of a session stay in order.  A session is created
    with [startTime = lastEventTime] and no [endTime]; every merge, accepted
    or flagged, keeps [startTime ≤ endTime ≤ lastEventTime], and leaves
    [startTime] where it was: an accepted event is not older than the last
    event, so the rewrite of [startTime] by an earlier [start] event
    (lines 217-221) never takes effect.  No merge removes a session. *)
Theorem session_times_stay_ordered {R T} payload (w : World R T) :
  wellTimedDb w →
  wellTimedDb (snd (processEvent payload w)) ∧
  ∀ id session,
    sessions w !! id = Some session →
    ∃ session',
      sessions (snd (processEvent payload w)) !! id = Some session' ∧
      ExerciseSession.startTime session' = ExerciseSession.startTime session.
Proof.
  intros Hdb. unfold wellTimedDb in *.
  destruct (processEvent_cases payload w)
    as [(Hs & _)|[(_ & Hnone & _ & t & Hs & _)|
                  (_ & s & merged & t & Hsome & Hfacts & Hlife & Hs & _)]];
    cbv zeta in Hs; rewrite Hs.
  - split; [done|]. intros id session Hid. by exists session.
  - split.
    + intros id session [(<- & <-)|(Hne & Hid)]%lookup_insert_Some; [|by eapply Hdb].
      apply wellTimed_stored, createNewSession_wellTimed.
    + intros id session Hid. exists session. split; [|done].
      rewrite lookup_insert_ne; [done|]. intros <-. congruence.
  - destruct (merge_wellTimed _ _ _ _ Hfacts Hlife (Hdb _ _ Hsome)) as (Hw & Hstart).
    split.
    + intros id session [(<- & <-)|(Hne & Hid)]%lookup_insert_Some; [|by eapply Hdb].
      by apply wellTimed_stored.
    + intros id session Hid.
      destruct (decide (id = IngestRequest.sessionId payload)) as [->|Hne].
      * rewrite lookup_insert_eq. eexists. split; [done|].
        rewrite Hsome in Hid. injection Hid as <-. simpl.
        pose proof (markClockDrift_lifecycle payload merged) as Hl. cbv zeta in Hl.
        destruct Hl as (_ & _ & -> & _). done.
      * rewrite lookup_insert_ne by done. by exists session.
Qed.

Lemma session_times_stay_ordered_witness :
  wellTimedDb (snd (processEvent Ex.next Ex.db)).
Proof.
  apply (session_times_stay_ordered Ex.next Ex.db).
  intros id session Hid. simpl in Hid.
  apply lookup_singleton_Some in Hid as [_ <-].
  exists 1699999995000. split; [reflexivity|]. simpl. split; [lia|done].
Defined.

(** What is stored for the session of a merged event. *)
Lemma processEvent_stored {R T} payload (w : World R T) session :
  events w !! IngestRequest.eventId payload = None →
  sessions w !! IngestRequest.sessionId payload = Some session →
  ∃ merged commitTime,
    mergeFacts payload session merged ∧
    lifecycleFacts payload session merged (clock w (tick w)) ∧
    sessions (snd (processEvent payload w)) !! IngestRequest.sessionId payload
    = Some (ExerciseSession.resolve commitTime (markClockDrift payload merged)).
Proof.
  intros Hev Hsess.
  destruct (processEvent_merge _ _ _ Hev Hsess) as (merged & t & Hf & Hl & _ & Hs & _).
  exists merged, t. split; [done|]. split; [done|].
  rewrite Hs. by rewrite lookup_insert_eq.
Qed.

(** X13: the life cycle of a session.  A merge completes the session
    exactly when the event is an [end] event that is not flagged out-of-order:
    [status] becomes [completed], [endTime] becomes the later of the stored
    one and the event's, and the total duration is the span from [startTime]
    to [endTime], in seconds, with no reading of the server clock.  An [end]
    event that is flagged out-of-order leaves the session as active as it
    was.  Every other merge leaves [status] and [endTime] alone; the status is
    not looked at, so a completed session goes on merging events and stays
    completed. *)
Theorem session_completes_on_accepted_end {R T} payload (w : World R T) session :
  events w !! IngestRequest.eventId payload = None →
  sessions w !! IngestRequest.sessionId payload = Some session →
  ∃ session',
    sessions (snd (processEvent payload w)) !! IngestRequest.sessionId payload
    = Some session' ∧
    (ExerciseSession.status session = completed →
     ExerciseSession.status session' = completed) ∧
    if accepted payload session && bool_decide (IngestRequest.eventType payload = end_)
    then
      let endTime := laterEnd (ExerciseSession.endTime session)
                       (IngestRequest.timestamp payload) in
      ExerciseSession.status session' = completed ∧
      ExerciseSession.endTime session' = Some endTime ∧
      SessionMetrics.totalDuration (ExerciseSession.metrics session')
      = (Js.num (endTime - ExerciseSession.startTime session') / Js.num 1000)%Qc
    else
      ExerciseSession.status session' = ExerciseSession.status session ∧
      ExerciseSession.endTime session' = ExerciseSession.endTime session.
Proof.
  intros Hev Hsess.
  destruct (processEvent_stored _ _ _ Hev Hsess)
    as (merged & t & _ & (_ & Hstart & Hend & Hstatus & Hdur) & Hs).
  eexists. split; [exact Hs|].
  pose proof (markClockDrift_lifecycle payload merged) as Hl. cbv zeta in Hl.
  destruct Hl as (_ & _ & Hs' & He' & Hst').
  pose proof (markClockDrift_fields payload merged) as Hf. cbv zeta in Hf.
  destruct Hf as (_ & _ & _ & _ & Hm' & _).
  simpl. rewrite Hs', He', Hst', Hm', Hend, Hstatus.
  split.
  - intros Hc. destruct (accepted payload session); simpl; [|done].
    by destruct (bool_decide (IngestRequest.eventType payload = end_)).
  - destruct (accepted payload session) eqn:Hacc; simpl; [|done].
    destruct (bool_decide (IngestRequest.eventType payload = end_)); [|done].
    split; [done|]. split; [done|].
    rewrite (Hdur eq_refl), Hend. done.
Qed.

Lemma session_completes_on_accepted_end_witness :
  ∃ session',
    sessions (snd (processEvent Scenario.finish Ex.db)) !! "session-1" = Some session' ∧
    ExerciseSession.status session' = completed ∧
    ExerciseSession.endTime session' = Some 1700000000000 ∧
    SessionMetrics.totalDuration (ExerciseSession.metrics session')
    = (Js.num (1700000000000 - ExerciseSession.startTime session') / Js.num 1000)%Qc.
Proof.
  destruct (session_completes_on_accepted_end Scenario.finish Ex.db Ex.session)
    as (session' & Hs & _ & Hend); [reflexivity | reflexivity |].
  exists session'. split; [exact Hs|]. exact Hend.
Defined.

(** ** Aggregates *)

Lemma max_ge_l (a b : Qc) : (a ≤ Js.max a b)%Qc.
Proof. unfold Js.max. case_bool_decide as Hab; [done|]. apply Qcle_refl. Qed.

Lemma Qcle_plus_nonneg (a c : Qc) : (0 ≤ c)%Qc → (a ≤ a + c)%Qc.
Proof.
  intros Hc. replace a with (a + 0)%Qc at 1 by ring.
  apply Qcplus_le_compat; [apply Qcle_refl|done].
Qed.



Lemma foldHeartRate_others m sm :
  SessionMetrics.caloriesBurned (foldHeartRate m sm) = SessionMetrics.caloriesBurned sm ∧
  SessionMetrics.distance (foldHeartRate m sm) = SessionMetrics.distance sm.
Proof. unfold foldHeartRate. by repeat case_match. Qed.

Lemma maxDistance_calories m sm :
  SessionMetrics.caloriesBurned (maxDistance m sm) = SessionMetrics.caloriesBurned sm.
Proof. unfold maxDistance. by repeat case_match. Qed.

Lemma addCalories_distance m sm :
  SessionMetrics.distance (addCalories m sm) = SessionMetrics.distance sm.
Proof. unfold addCalories. by repeat case_match. Qed.

(** The calorie rule through the whole fold. *)
Lemma foldMetrics_calories payload sm :
  SessionMetrics.caloriesBurned (foldMetrics payload sm)
  = match metricOf payload EventMetrics.calories with
    | Some c => if bool_decide (0 ≤ c)%Qc
                then (SessionMetrics.caloriesBurned sm + c)%Qc
                else SessionMetrics.caloriesBurned sm
    | None => SessionMetrics.caloriesBurned sm
    end.
Proof.
  unfold foldMetrics, metricOf. destruct (IngestRequest.metrics payload) as [m|]; [|done].
  rewrite (proj1 (foldHeartRate_others _ _)), maxDistance_calories.
  unfold addCalories. destruct (EventMetrics.calories m); [|done]. by case_bool_decide.
Qed.

(** The distance rule through the whole fold. *)
Lemma foldMetrics_distance payload sm :
  SessionMetrics.distance (foldMetrics payload sm)
  = match metricOf payload EventMetrics.distance with
    | Some d => if bool_decide (0 ≤ d)%Qc
                then Some (Js.max (default 0%Qc (SessionMetrics.distance sm)) d)
                else SessionMetrics.distance sm
    | None => SessionMetrics.distance sm
    end.
Proof.
  unfold foldMetrics, metricOf. destruct (IngestRequest.metrics payload) as [m|]; [|done].
  rewrite (proj2 (foldHeartRate_others _ _)).
  unfold maxDistance.
  destruct (EventMetrics.distance m); [|apply addCalories_distance].
  case_bool_decide; simpl; [|apply addCalories_distance].
  by rewrite addCalories_distance, orNum_zero.
Qed.

(** What is stored of the aggregate after a merge. *)
Lemma processEvent_stored_metrics {R T} payload (w : World R T) session :
  events w !! IngestRequest.eventId payload = None →
  sessions w !! IngestRequest.sessionId payload = Some session →
  ∃ session',
    sessions (snd (processEvent payload w)) !! IngestRequest.sessionId payload
    = Some session' ∧
    if accepted payload session
    then ∃ totalDuration,
           ExerciseSession.metrics session'
           = SessionMetrics.set_totalDuration totalDuration
               (foldMetrics payload (ExerciseSession.metrics session))
    else ExerciseSession.metrics session' = ExerciseSession.metrics session.
Proof.
  intros Hev Hsess.
  destruct (processEvent_stored _ _ _ Hev Hsess) as (merged & t & Hfacts & _ & Hs).
  eexists. split; [exact Hs|].
  pose proof (markClockDrift_fields payload merged) as Hf. cbv zeta in Hf.
  destruct Hf as (_ & _ & _ & _ & Hm' & _).
  simpl. rewrite Hm'. unfold accepted.
  destruct Hfacts as (_ & _ & _ & Hfacts).
  destruct (isOutOfOrder payload session); simpl.
  - by destruct Hfacts as (_ & _ & _ & _ & ->).
  - by destruct Hfacts as (_ & _ & _ & _ & Hm).
Qed.

(** X14: delta semantics of the stored aggregate.  An accepted event adds
    its calories, when they are not negative, to [caloriesBurned], and raises
    [distance] to the maximum of the stored distance (0 when there is none)
    and its own, when that is not negative; a flagged event changes neither.
    Hence no merge ever lowers the calories or the distance of a session. *)
Theorem calories_add_and_distance_is_max {R T} payload (w : World R T) session :
  events w !! IngestRequest.eventId payload = None →
  sessions w !! IngestRequest.sessionId payload = Some session →
  ∃ session',
    sessions (snd (processEvent payload w)) !! IngestRequest.sessionId payload
    = Some session' ∧
    let old := ExerciseSession.metrics session in
    let new := ExerciseSession.metrics session' in
    (SessionMetrics.caloriesBurned old ≤ SessionMetrics.caloriesBurned new)%Qc ∧
    (default 0%Qc (SessionMetrics.distance old)
     ≤ default 0%Qc (SessionMetrics.distance new))%Qc ∧
    (accepted payload session = true →
     (∀ c, metricOf payload EventMetrics.calories = Some c → (0 ≤ c)%Qc →
           SessionMetrics.caloriesBurned new
           = (SessionMetrics.caloriesBurned old + c)%Qc) ∧
     (∀ d, metricOf payload EventMetrics.distance = Some d → (0 ≤ d)%Qc →
           SessionMetrics.distance new
           = Some (Js.max (default 0%Qc (SessionMetrics.distance old)) d))) ∧
    (accepted payload session = false → new = old).
Proof.
  intros Hev Hsess.
  destruct (processEvent_stored_metrics _ _ _ Hev Hsess) as (session' & Hs & Hm).
  exists session'. split; [exact Hs|]. cbv zeta.
  destruct (accepted payload session).
  - destruct Hm as (td & ->). simpl.
    rewrite foldMetrics_calories, foldMetrics_distance.
    split; [|split; [|split; [|done]]].
    + destruct (metricOf payload EventMetrics.calories) as [c|]; [|apply Qcle_refl].
      case_bool_decide; [by apply Qcle_plus_nonneg|apply Qcle_refl].
    + destruct (metricOf payload EventMetrics.distance) as [d|]; [|apply Qcle_refl].
      case_bool_decide; [apply max_ge_l|apply Qcle_refl].
    + intros _. split.
      * intros c -> Hc. by rewrite bool_decide_eq_true_2.
      * intros d -> Hd. by rewrite bool_decide_eq_true_2.
  - rewrite Hm. split; [apply Qcle_refl|]. split; [apply Qcle_refl|]. done.
Qed.

Lemma calories_add_and_distance_is_max_witness :
  ∃ session',
    sessions (snd (processEvent Ex.next Ex.db)) !! "session-1" = Some session' ∧
    SessionMetrics.caloriesBurned (ExerciseSession.metrics session')
    = (Js.num 500 + Js.num 10)%Qc ∧
    SessionMetrics.distance (ExerciseSession.metrics session')
    = Some (Js.max (Js.num 1000) (Js.num 100)).
Proof.
  destruct (calories_add_and_distance_is_max Ex.next Ex.db Ex.session)
    as (session' & Hs & _ & _ & Hacc & _); [reflexivity | reflexivity |].
  destruct (Hacc eq_refl) as (Hc & Hd).
  exists session'. split; [exact Hs|]. split.
  - apply (Hc (Js.num 10)); [reflexivity | by vm_compute].
  - apply (Hd (Js.num 100)); [reflexivity | by vm_compute].
Defined.





(** ** What a merge never does *)

(** X16: the event log is append-only.  [processEvent] never removes or
    rewrites an Event document: every document of the [events] collection is
    still there, unchanged, afterwards, and the only id that may be new is the
    payload's [eventId].  Nor does it remove a session, or touch a session
    other than the payload's. *)
Theorem events_are_write_once {R T} payload (w : World R T) :
  let w' := snd (processEvent payload w) in
  (∀ id event, events w !! id = Some event → events w' !! id = Some event) ∧
  (∀ id, id ≠ IngestRequest.eventId payload → events w' !! id = events w !! id) ∧
  (∀ id, id ≠ IngestRequest.sessionId payload → sessions w' !! id = sessions w !! id) ∧
  (∀ id, is_Some (sessions w !! id) → is_Some (sessions w' !! id)) ∧
  idempotency w' = idempotency w.
Proof.
  intros w'. subst w'.
  split; [|split; [|split; [|split; [|apply processEvent_frame]]]].
  - intros id event Hid.
    destruct (processEvent_cases payload w)
      as [(_ & He)|[(Hnone & _ & _ & t & _ & He)|(Hnone & s & m & t & _ & _ & _ & _ & He)]];
      cbv zeta in He; rewrite He; [done| |];
      (rewrite lookup_insert_ne; [done|intros <-; congruence]).
  - intros id Hne.
    destruct (processEvent_cases payload w)
      as [(_ & He)|[(Hnone & _ & _ & t & _ & He)|(Hnone & s & m & t & _ & _ & _ & _ & He)]];
      cbv zeta in He; rewrite He; [done| |]; by rewrite lookup_insert_ne.
  - intros id Hne.
    destruct (processEvent_cases payload w)
      as [(Hs & _)|[(_ & _ & _ & t & Hs & _)|(_ & s & m & t & _ & _ & _ & Hs & _)]];
      cbv zeta in Hs; rewrite Hs; [done| |]; by rewrite lookup_insert_ne.
  - intros id Hsome.
    destruct (processEvent_cases payload w)
      as [(Hs & _)|[(_ & _ & _ & t & Hs & _)|(_ & s & m & t & _ & _ & _ & Hs & _)]];
      cbv zeta in Hs; rewrite Hs; [done| |];
      (destruct (decide (id = IngestRequest.sessionId payload)) as [->|Hne];
       [rewrite lookup_insert_eq; by eexists|by rewrite lookup_insert_ne]).
Qed.

(** ** Validation *)

Lemma outside_false (o : option Qc) (lo hi : Z) :
  match o with
  | Some x => bool_decide (x < Js.num lo)%Qc || bool_decide (Js.num hi < x)%Qc
  | None => false
  end = false ↔ within o lo hi.
Proof.
  unfold within. destruct o as [x|]; [|by split].
  rewrite orb_false_iff, !bool_decide_eq_false. split.
  - intros (Hlo & Hhi) ? [= <-]. split; by apply Qcnot_lt_le.
  - intros Hx. destruct (Hx x eq_refl) as (Hlo & Hhi).
    split; by apply Qcle_not_lt.
Qed.

Lemma validateMetrics_None m :
  validateMetrics m = None ↔
  within (EventMetrics.calories m) 0 1000 ∧
  within (EventMetrics.distance m) 0 100000 ∧
  within (EventMetrics.heartRate m) 30 250 ∧
  within (EventMetrics.duration m) 0 14400.
Proof.
  unfold validateMetrics.
  rewrite <- !outside_false.
  repeat match goal with
         | |- context [match ?o with Some _ => _ | None => false end] =>
             let b := fresh "b" in
             set (b := match o with Some _ => _ | None => false end); clearbody b
         end.
  destruct b, b0, b1, b2; simpl; intuition discriminate.
Qed.

Lemma metricOf_validate payload :
  match IngestRequest.metrics payload with
  | Some m => validateMetrics m
  | None => None
  end = None ↔
  within (metricOf payload EventMetrics.calories) 0 1000 ∧
  within (metricOf payload EventMetrics.distance) 0 100000 ∧
  within (metricOf payload EventMetrics.heartRate) 30 250 ∧
  within (metricOf payload EventMetrics.duration) 0 14400.
Proof.
  unfold metricOf. destruct (IngestRequest.metrics payload) as [m|].
  - apply validateMetrics_None.
  - split; [|done]. intros _. by repeat split.
Qed.

Lemma driftFlagged_fields payload nowMs :
  IngestRequest.metrics (driftFlagged payload nowMs) = IngestRequest.metrics payload ∧
  IngestRequest.eventSequence (driftFlagged payload nowMs)
  = IngestRequest.eventSequence payload.
Proof. unfold driftFlagged. by case_match. Qed.

(** The validator, run on a payload. *)
Lemma validatePayload_spec {R T} payload (w : World R T) :
  let nowMs := clock w (tick w) in
  (acceptable payload nowMs ∧
   validatePayload payload w = (Ok (None, driftFlagged payload nowMs), elapse 1 w)) ∨
  (¬ acceptable payload nowMs ∧
   ∃ e validated w', validatePayload payload w = (Ok (Some e, validated), w')).
Proof.
  intros nowMs. unfold validatePayload, acceptable.
  case_bool_decide as Hkey; [right; split; [tauto|by eexists _, _, _]|].
  case_bool_decide as Hlen; [right; split; [unfold not; intros (_ & ? & _); lia|by eexists _, _, _]|].
  case_bool_decide as Hsid; [right; split; [tauto|by eexists _, _, _]|].
  case_bool_decide as Huid; [right; split; [tauto|by eexists _, _, _]|].
  case_bool_decide as Heid; [right; split; [tauto|by eexists _, _, _]|].
  unfold bind, now, ret. fold nowMs.
  destruct (Z.ltb_spec (IngestRequest.timestamp payload) (nowMs - oneWeek)).
  { right. split; [unfold not; intros (_ & _ & _ & _ & _ & ? & _); lia|by eexists _, _, _]. }
  destruct (Z.gtb_spec (IngestRequest.timestamp payload) (nowMs + oneHour)).
  { right. split; [unfold not; intros (_ & _ & _ & _ & _ & ? & _); lia|by eexists _, _, _]. }
  fold (driftFlagged payload nowMs).
  destruct (driftFlagged_fields payload nowMs) as (-> & ->).
  pose proof (metricOf_validate payload) as Hm.
  destruct (match IngestRequest.metrics payload with
            | Some m => validateMetrics m
            | None => None
            end) as [e|].
  { right. split; [|by eexists _, _, _]. unfold not.
    intros (_ & _ & _ & _ & _ & _ & H1 & H2 & H3 & H4 & _).
    assert (Some e = None) by (apply Hm; done). done. }
  destruct (proj1 Hm eq_refl) as (H1 & H2 & H3 & H4).
  destruct (IngestRequest.eventSequence payload) as [n|] eqn:Hseq.
  - destruct (Z.ltb_spec n 0).
    + right. split; [|by eexists _, _, _]. unfold not.
      intros (_ & _ & _ & _ & _ & _ & _ & _ & _ & _ & Hn).
      specialize (Hn n eq_refl). lia.
    + left. split; [|done].
      split_and!; try done; try lia. by intros ? [= <-].
  - left. split; [|done]. split_and!; try done; lia.
Qed.

(** X17: what validation guarantees.  [validatePayload] accepts a
    well-typed payload exactly when the four identifiers are not empty, the
    idempotency key has at most 128 characters, the timestamp is no more than
    one week behind and no more than one hour ahead of the server clock
    (both bounds included), each metric that is present lies in its range
    (calories 0-1000, distance 0-100000, heart rate 30-250, duration 0-14400),
    and the sequence number, when present, is not negative.  It reads the
    clock once, and hands the payload on with nothing changed but the two
    drift flags. *)
Theorem validatePayload_accepts_exactly {R T} payload (w : World R T) :
  let nowMs := clock w (tick w) in
  let out := validatePayload payload w in
  (fst <$> returned (fst out) = Some None ↔ acceptable payload nowMs) ∧
  (acceptable payload nowMs →
   out = (Ok (None, driftFlagged payload nowMs), elapse 1 w)) ∧
  (∀ e validated w',
     out = (Ok (e, validated), w') → sameBut_flags payload validated ∧ ticked w w').
Proof.
  intros nowMs out. subst out.
  split; [|split].
  - destruct (validatePayload_spec payload w) as [(Hacc & ->)|(Hno & e & v & w' & ->)];
      simpl; [done|]. split; [done|]. intros Hacc. by destruct Hno.
  - intros Hacc.
    destruct (validatePayload_spec payload w) as [(_ & ->)|(Hno & _)]; [done|].
    by destruct Hno.
  - intros e validated w' Hrun. split.
    + by apply validatePayload_fields with w w' e.
    + destruct (validatePayload_run payload w) as (v & w1 & Hrun' & Ht & _).
      rewrite Hrun in Hrun'. by injection Hrun' as <- <-.
Qed.

(** X18: clock drift is flagged, not rejected.  A payload that passes
    validation with a timestamp more than one hour behind the server clock is
    handed on with [_requiresReconciliation] and [_clockDriftDetected] both
    set; one that is at most an hour old, or ahead of the clock, is handed on
    exactly as it was received, so that flags the client has put on the
    payload itself are neither checked nor cleared. *)
Theorem drift_is_flagged_not_rejected {R T} payload validated (w w1 : World R T) :
  validatePayload payload w = (Ok (None, validated), w1) →
  let nowMs := clock w (tick w) in
  nowMs - oneWeek ≤ IngestRequest.timestamp payload ≤ nowMs + oneHour ∧
  (IngestRequest.timestamp payload < nowMs - oneHour →
   validated = IngestRequest.set_flags (Some true) (Some true) payload) ∧
  (nowMs - oneHour ≤ IngestRequest.timestamp payload → validated = payload).
Proof.
  intros Hrun nowMs.
  destruct (validatePayload_spec payload w) as [(Hacc & Hrun')|(_ & e & v & w' & Hrun')];
    rewrite Hrun in Hrun'; [|discriminate Hrun'].
  injection Hrun' as -> ->.
  destruct Hacc as (_ & _ & _ & _ & _ & Hts & _). split; [done|].
  unfold driftFlagged. fold nowMs.
  destruct (Z.ltb_spec (IngestRequest.timestamp payload) (nowMs - oneHour));
    split; intros; try done; lia.
Qed.

Lemma drift_is_flagged_not_rejected_witness :
  validatePayload (R:=IngestRequest.t) (T:=IngestResponse) Scenario.old Ex.empty
  = (Ok (None, IngestRequest.set_flags (Some true) (Some true) Scenario.old),
     elapse 1 Ex.empty).
Proof.
  destruct (drift_is_flagged_not_rejected (R:=IngestRequest.t) (T:=IngestResponse)
              Scenario.old
              (IngestRequest.set_flags (Some true) (Some true) Scenario.old)
              Ex.empty (elapse 1 Ex.empty)) as (_ & Hold & _);
    reflexivity.
Defined.

(** What the endpoint does to sessions and events: nothing, or what
    [processEvent] does with the validated payload on a database that holds
    the same sessions and events. *)
Lemma ingest_documents method (payload : IngestRequest.t) (w : Db) :
  let w' := snd (ingestExerciseEvent method payload w) in
  (sessions w' = sessions w ∧ events w' = events w) ∨
  (acceptable payload (clock w (tick w)) ∧
   ∃ wa : Db,
     sessions wa = sessions w ∧ events wa = events w ∧
     let validated := driftFlagged payload (clock w (tick w)) in
     sessions w' = sessions (snd (processEvent validated wa)) ∧
     events w' = events (snd (processEvent validated wa))).
Proof.
  intros w'. subst w'.
  destruct (decide (method = "POST")) as [->|Hm].
  2:{ left. by rewrite (ingest_not_post method payload w Hm). }
  destruct (validatePayload_spec payload w) as [(Hacc & Hrun)|(_ & e & v & w1 & Hrun)].
  2:{ left. rewrite (ingest_rejected _ _ _ _ _ Hrun).
      destruct (validatePayload_run payload w) as (v' & w1' & Hrun' & Ht & _).
      rewrite Hrun in Hrun'. injection Hrun' as <- <-.
      by destruct Ht as (_ & ? & ? & _). }
  cbv zeta in Hrun. set (validated := driftFlagged payload (clock w (tick w))) in *.
  rewrite (ingest_validated _ _ _ _ Hrun).
  set (key := IngestRequest.idempotencyKey validated).
  destruct (claim_cases key validated (elapse 1 w)) as
    [(r & Hout & Ht)|[(n & Hout)|[(Hout & Ht)|(e & Hout & Ht)]]].
  - left. unfold processWithIdempotency, tryCatch, bind.
    destruct (runTransaction (claimCallback key validated) (elapse 1 w)) as [res wa].
    simpl in Hout, Ht. subst res. simpl.
    by destruct Ht as (_ & ? & ? & _).
  - right. split; [done|].
    exists (claimedWorld key validated (elapse 1 w) n).
    split; [done|]. split; [done|]. cbv zeta. fold validated.
    rewrite (processWithIdempotency_claimed key validated _ _ _ Hout).
    pose proof (processEvent_frame validated (claimedWorld key validated (elapse 1 w) n))
      as (Hidem & _).
    destruct (processEvent validated (claimedWorld key validated (elapse 1 w) n))
      as [[r|e] wb]; simpl in Hidem; rewrite Hidem; simpl;
      rewrite lookup_insert_eq; [done|].
    by match goal with |- context [bool_decide ?P] => destruct (bool_decide P) end.
  - left. unfold processWithIdempotency, tryCatch, bind.
    destruct (runTransaction (claimCallback key validated) (elapse 1 w)) as [res wa].
    simpl in Hout, Ht. subst res. simpl.
    by destruct Ht as (_ & ? & ? & _).
  - left. unfold processWithIdempotency, tryCatch, bind.
    destruct (runTransaction (claimCallback key validated) (elapse 1 w)) as [res wa].
    simpl in Hout, Ht. subst res.
    unfold failClosed, throw. rewrite closedMessage_previous_failed. simpl.
    by destruct Ht as (_ & ? & ? & _).
Qed.

(** ** The sessions the endpoint writes *)














(** ** Versions and events *)

(** The count after an Event document has been added under a new id. *)
Lemma acceptedEvents_insert (evs : gmap string ExerciseEvent.t) id eid event :
  evs !! eid = None →
  size (filter (acceptedEvent id) (<[eid := event]> evs))
  = (if decide (acceptedEvent id (eid, event))
     then S (size (filter (acceptedEvent id) evs))
     else size (filter (acceptedEvent id) evs)).
Proof.
  intros Hnone. destruct (decide _) as [Hacc|Hno].
  - rewrite map_filter_insert_True by done.
    apply map_size_insert_None. by apply map_lookup_filter_None_2; left.
  - rewrite map_filter_insert_not'; [done|done|]. intros y Hy. congruence.
Qed.

Lemma eventRecord_accepted id payload outOfOrder commitTime :
  acceptedEvent id
    (IngestRequest.eventId payload,
     ExerciseEvent.resolve commitTime (eventRecord payload outOfOrder))
  ↔ IngestRequest.sessionId payload = id ∧ outOfOrder = false.
Proof. unfold acceptedEvent. simpl. split; intros (? & ?); split; congruence. Qed.

Lemma processEvent_accounted {R T} payload (w : World R T) :
  accounted w → accounted (snd (processEvent payload w)).
Proof.
  intros (Hev & Hver). unfold accounted, acceptedEvents in *.
  destruct (processEvent_cases payload w)
    as [(Hs & He)|[(Hnone & Hsnone & _ & t & Hs & He)|
                  (Hnone & s & merged & t & Hsome & Hfacts & _ & Hs & He)]];
    cbv zeta in Hs, He; rewrite Hs, He; [done| |].
  - (* a session is created *)
    split.
    + intros id event [(<- & <-)|(Hne & Hid)]%lookup_insert_Some.
      * simpl. split; [done|]. rewrite lookup_insert_eq. by eexists.
      * destruct (Hev id event Hid) as (Heid & Hsess). split; [done|].
        destruct (decide (ExerciseEvent.sessionId event = IngestRequest.sessionId payload))
          as [->|Hne']; [rewrite lookup_insert_eq; by eexists|by rewrite lookup_insert_ne].
    + intros id session Hid. rewrite acceptedEvents_insert by done.
      apply lookup_insert_Some in Hid as [(<- & <-)|(Hne & Hid)].
      * rewrite decide_True by (by apply eventRecord_accepted).
        (* no event belonged to the session before *)
        assert (Hempty : filter (acceptedEvent (IngestRequest.sessionId payload)) (events w)
                         = ∅).
        { apply map_empty_filter_2. intros eid event Hid (Hsid & _). simpl in Hsid.
          destruct (Hev eid event Hid) as (_ & Hsess).
          rewrite Hsid, Hsnone in Hsess. by destruct Hsess. }
        rewrite Hempty, map_size_empty.
        unfold markClockDrift. by case_match.
      * rewrite decide_False; [by apply Hver|].
        rewrite eventRecord_accepted. by intros (? & _).
  - (* an event is merged *)
    split.
    + intros id event [(<- & <-)|(Hne & Hid)]%lookup_insert_Some.
      * simpl. split; [done|]. rewrite lookup_insert_eq. by eexists.
      * destruct (Hev id event Hid) as (Heid & Hsess). split; [done|].
        destruct (decide (ExerciseEvent.sessionId event = IngestRequest.sessionId payload))
          as [->|Hne']; [rewrite lookup_insert_eq; by eexists|by rewrite lookup_insert_ne].
    + intros id session Hid. rewrite acceptedEvents_insert by done.
      apply lookup_insert_Some in Hid as [(<- & <-)|(Hne & Hid)].
      * specialize (Hver _ _ Hsome).
        assert (Hv : ExerciseSession.version
                       (ExerciseSession.resolve t (markClockDrift payload merged))
                     = ExerciseSession.version merged).
        { unfold markClockDrift. by case_match. }
        rewrite Hv. destruct Hfacts as (_ & _ & _ & Hfacts).
        destruct (isOutOfOrder payload s).
        -- rewrite decide_False by (rewrite eventRecord_accepted; by intros (_ & ?)).
           destruct Hfacts as (_ & _ & -> & _). done.
        -- rewrite decide_True by (by apply eventRecord_accepted).
           destruct Hfacts as (_ & _ & -> & _). lia.
      * rewrite decide_False; [by apply Hver|].
        rewrite eventRecord_accepted. by intros (? & _).
Qed.

Lemma accounted_documents {R T} (w w' : World R T) :
  sessions w' = sessions w → events w' = events w → accounted w → accounted w'.
Proof. unfold accounted, acceptedEvents. by intros -> ->. Qed.

Lemma ingest_accounted method payload (w : Db) :
  accounted w → accounted (snd (ingestExerciseEvent method payload w)).
Proof.
  intros Hacc.
  destruct (ingest_documents method payload w)
    as [(Hs & He)|(_ & wa & Hsa & Hea & Hs & He)].
  - by apply accounted_documents with w.
  - cbv zeta in Hs, He.
    apply accounted_documents
      with (snd (processEvent (driftFlagged payload (clock w (tick w))) wa)); [done..|].
    apply processEvent_accounted. by apply accounted_documents with w.
Qed.

(** X20: the version of a session counts its accepted events.  Starting
    from a database where this holds (an empty one, for instance), after any
    sequence of requests every Event document is filed under its own
    [eventId] and belongs to a session that exists, and the [version] of every
    session equals the number of Event documents of that session stored with
    [outOfOrder = false]: the event that created it and one for every later
    event merged into the aggregate.  Events flagged out-of-order are stored
    but not counted; duplicates and rejected requests are neither. *)
Theorem version_counts_accepted_events (requests : list (string * IngestRequest.t))
    (w : Db) :
  accounted w → accounted (serve requests w).
Proof.
  revert w. induction requests as [|[method payload] rest IH]; intros w Hacc; [done|].
  simpl. apply IH. by apply ingest_accounted.
Qed.

Lemma version_counts_accepted_events_witness :
  accounted (serve [("POST", Scenario.old); ("POST", Ex.next); ("GET", Ex.late)] Ex.empty).
Proof.
  apply (version_counts_accepted_events _ Ex.empty).
  split; intros id x Hid; simpl in Hid; by rewrite lookup_empty in Hid.
Defined.

(** ** Validation of the body as received *)

Section RawValidation.
Import Json Wire.
Context {R T : Type}.
Variable parseDate : string → option Z.

Lemma notAString_false o :
  Raw.notAString o = false → ∃ s, o = Some (JString s) ∧ s ≠ "".
Proof.
  unfold Raw.notAString. rewrite orb_false_iff, negb_false_iff, bool_decide_eq_false.
  intros (Htruthy & Htype).
  destruct o as [[| | |s| |]|]; simpl in *; try (by destruct Htype).
  exists s. split; [done|]. by apply bool_decide_eq_true in Htruthy.
Qed.

Lemma has_get k v : has k v = bool_decide (is_Some (get k v)).
Proof. done. Qed.

Lemma field_within k m lo hi :
  has k m && Raw.notANumberWithin (get k m) lo hi = false →
  within (numberOf (get k m)) lo hi.
Proof.
  unfold has, within. destruct (get k m) as [v|]; [|done].
  rewrite bool_decide_eq_true_2 by (by eexists). simpl.
  destruct v; try done. simpl.
  rewrite orb_false_iff, !bool_decide_eq_false. intros (Hlo & Hhi) x [= <-].
  split; by apply Qcnot_lt_le.
Qed.

Lemma isInteger_Qnum (x : Qc) : isInteger x = true → x = Js.num (Qnum (this x)).
Proof.
  unfold isInteger. intros Hden%bool_decide_eq_true.
  apply Qc_is_canon. unfold Js.num, Qc_of_Z. simpl.
  destruct x as [[num den] Hcanon]. simpl in *. subst den. done.
Qed.

Lemma sequence_nonneg payload :
  has "eventSequence" payload && Raw.notASequence (get "eventSequence" payload) = false →
  ∀ n, integerOf (get "eventSequence" payload) = Some n → 0 ≤ n.
Proof.
  unfold has, integerOf. destruct (get "eventSequence" payload) as [v|]; [|done].
  rewrite bool_decide_eq_true_2 by (by eexists). simpl.
  destruct v as [| |x| | |]; try done. simpl.
  rewrite orb_false_iff, bool_decide_eq_false, negb_false_iff.
  intros (Hneg & ->) n [= <-].
  apply Qcnot_lt_le in Hneg. unfold Qcle, Qle in Hneg. simpl in Hneg. lia.
Qed.

Lemma metrics_within o :
  Raw.validateMetrics o = None →
  match metricsOf o with
  | Some m => validateMetrics m
  | None => None
  end = None.
Proof.
  unfold Raw.validateMetrics, metricsOf. destruct o as [m|]; [|done].
  destruct (truthy m); [|done].
  case_bool_decide; [done|].
  destruct (has "calories" m && _) eqn:Hc; [done|].
  destruct (has "distance" m && _) eqn:Hd; [done|].
  destruct (has "heartRate" m && _) eqn:Hh; [done|].
  destruct (has "duration" m && _) eqn:Hdu; [done|].
  intros _. apply validateMetrics_None. simpl.
  split_and!; by apply field_within.
Qed.

Lemma field_number k m lo hi v :
  has k m && Raw.notANumberWithin (get k m) lo hi = false →
  get k m = Some v → ∃ x, v = JNumber x.
Proof.
  unfold has. intros Hfield Hv. rewrite Hv in Hfield.
  rewrite bool_decide_eq_true_2 in Hfield by (by eexists). simpl in Hfield.
  destruct v; try done. by eexists.
Qed.

Lemma metrics_numeric o m :
  Raw.validateMetrics o = None → o = Some m → truthy m = true →
  ∀ k, k ∈ ["calories"; "distance"; "heartRate"; "duration"] →
       ∀ v, get k m = Some v → ∃ x, v = JNumber x.
Proof.
  unfold Raw.validateMetrics. intros Hvalid -> Htruthy. rewrite Htruthy in Hvalid.
  case_bool_decide; [done|].
  destruct (has "calories" m && _) eqn:Hc; [done|].
  destruct (has "distance" m && _) eqn:Hd; [done|].
  destruct (has "heartRate" m && _) eqn:Hh; [done|].
  destruct (has "duration" m && _) eqn:Hdu; [done|].
  intros k Hk v Hv.
  apply elem_of_cons in Hk as [->|Hk]; [exact (field_number _ _ _ _ _ Hc Hv)|].
  apply elem_of_cons in Hk as [->|Hk]; [exact (field_number _ _ _ _ _ Hd Hv)|].
  apply elem_of_cons in Hk as [->|Hk]; [exact (field_number _ _ _ _ _ Hh Hv)|].
  apply elem_of_cons in Hk as [->|Hk]; [exact (field_number _ _ _ _ _ Hdu Hv)|].
  by apply elem_of_nil in Hk.
Qed.

Lemma sequence_number payload v :
  has "eventSequence" payload && Raw.notASequence (get "eventSequence" payload) = false →
  get "eventSequence" payload = Some v → ∃ n : Z, v = JNumber (Js.num n).
Proof.
  unfold has. intros Hfield Hv. rewrite Hv in Hfield.
  rewrite bool_decide_eq_true_2 in Hfield by (by eexists). simpl in Hfield.
  destruct v as [| |x| | |]; try done. simpl in Hfield.
  apply orb_false_iff in Hfield as (_ & Hint%negb_false_iff).
  exists (Qnum (this x)). f_equal. by apply isInteger_Qnum.
Qed.

Lemma get_set_ne k k' x v : k ≠ k' → get k (set k' x v) = get k v.
Proof. intros Hne. destruct v; try done. simpl. by rewrite lookup_insert_ne. Qed.

Lemma get_set_eq k x fields : get k (set k x (JObject fields)) = Some x.
Proof. simpl. by rewrite lookup_insert_eq. Qed.

(** The body after the two assignments of lines 59-60. *)
Lemma decode_flagged fields p :
  decode parseDate (JObject fields) = Some p →
  decode parseDate
    (set "_clockDriftDetected" (JBool true)
       (set "_requiresReconciliation" (JBool true) (JObject fields)))
  = Some (IngestRequest.set_flags (Some true) (Some true) p).
Proof.
  unfold decode. intros Hp.
  rewrite !(get_set_ne "idempotencyKey"), !(get_set_ne "sessionId"),
    !(get_set_ne "userId"), !(get_set_ne "eventId"), !(get_set_ne "eventType"),
    !(get_set_ne "timestamp"), !(get_set_ne "metrics"), !(get_set_ne "eventSequence")
    by done.
  rewrite (get_set_ne "_requiresReconciliation" "_clockDriftDetected") by done.
  change (set "_requiresReconciliation" (JBool true) (JObject fields))
    with (JObject (<["_requiresReconciliation" := JBool true]> fields)).
  rewrite !get_set_eq.
  destruct (stringOf (get "idempotencyKey" (JObject fields))); [|done].
  destruct (stringOf (get "sessionId" (JObject fields))); [|done].
  destruct (stringOf (get "userId" (JObject fields))); [|done].
  destruct (stringOf (get "eventId" (JObject fields))); [|done].
  destruct (Raw.eventTypeOf (get "eventType" (JObject fields))); [|done].
  destruct (stringOf (get "timestamp" (JObject fields)) ≫= parseDate); [|done].
  simpl in *. injection Hp as <-. by rewrite lookup_insert_eq.
Qed.

(** X22: a body that passes [validatePayload] is a typed request.  If the
    validator returns [null] for a JSON value, the value is an object that
    is read as a typed request without loss: its four identifiers and its
    timestamp are strings, its [eventType] is one of 'start', 'update' and
    'end', the timestamp parses, every reading of its metrics that is
    present is a number, and so is its [eventSequence].  That request
    satisfies the typed validator's conditions; the typed validator accepts
    it with the same reading of the clock; and the body handed on is read
    as the payload the typed validator hands on. *)
Theorem accepted_body_is_well_typed (body body' : Json.t) (w w' : World R T) :
  Raw.validatePayload parseDate body w = (Ok (None, body'), w') →
  ∃ payload validated fields,
    body = JObject fields ∧
    decode parseDate body = Some payload ∧
    numeric body ∧
    acceptable payload (clock w (tick w)) ∧
    validatePayload payload w = (Ok (None, validated), w') ∧
    decode parseDate body' = Some validated.
Proof.
  unfold Raw.validatePayload.
  destruct (negb (truthy body) || _) eqn:Hobj; [done|].
  destruct (Raw.notAString (get "idempotencyKey" body)) eqn:Hkey; [done|].
  destruct (Raw.tooLong (get "idempotencyKey" body)) eqn:Hlen; [done|].
  destruct (Raw.notAString (get "sessionId" body)) eqn:Hsid; [done|].
  destruct (Raw.notAString (get "userId" body)) eqn:Huid; [done|].
  destruct (Raw.notAString (get "eventId" body)) eqn:Heid; [done|].
  destruct (bool_decide (Raw.eventTypeOf (get "eventType" body) = None)) eqn:Hty;
    [done|].
  apply bool_decide_eq_false in Hty.
  destruct (Raw.notAString (get "timestamp" body)) eqn:Hts; [done|].
  apply notAString_false in Hkey as (key & Hkey & Hkey0).
  apply notAString_false in Hsid as (sid & Hsid & Hsid0).
  apply notAString_false in Huid as (uid & Huid & Huid0).
  apply notAString_false in Heid as (eid & Heid & Heid0).
  apply notAString_false in Hts as (ts & Hts & Hts0).
  destruct (Raw.eventTypeOf (get "eventType" body)) as [ty|] eqn:Hty'; [|done].
  rewrite Hts. destruct (parseDate ts) as [timestamp|] eqn:Hparse; [|done].
  destruct body as [| | | | |fields]; try done.
  unfold bind, now, ret.
  set (nowMs := clock w (tick w)).
  destruct (Z.ltb_spec timestamp (nowMs - oneWeek)) as [|Hold]; [done|].
  destruct (Z.gtb_spec timestamp (nowMs + oneHour)) as [|Hnew]; [done|].
  set (flagged := if timestamp <? nowMs - oneHour then _ else _).
  assert (Hmetrics : get "metrics" flagged = get "metrics" (JObject fields)).
  { subst flagged. destruct (timestamp <? nowMs - oneHour); [|done].
    by rewrite !get_set_ne. }
  assert (Hseq : get "eventSequence" flagged = get "eventSequence" (JObject fields)).
  { subst flagged. destruct (timestamp <? nowMs - oneHour); [|done].
    by rewrite !get_set_ne. }
  assert (Hhas : has "eventSequence" flagged = has "eventSequence" (JObject fields)).
  { unfold has. by rewrite Hseq. }
  rewrite Hmetrics, Hseq, Hhas.
  destruct (Raw.validateMetrics (get "metrics" (JObject fields))) eqn:Hm; [done|].
  destruct (has "eventSequence" (JObject fields) && _) eqn:Hs; [done|].
  intros [= <- <-].
  set (payload :=
         IngestRequest.mk key sid uid eid ty timestamp
           (metricsOf (get "metrics" (JObject fields)))
           (integerOf (get "eventSequence" (JObject fields)))
           (flagOf (get "_requiresReconciliation" (JObject fields)))
           (flagOf (get "_clockDriftDetected" (JObject fields)))).
  assert (Hdecode : decode parseDate (JObject fields) = Some payload).
  { unfold decode. rewrite Hkey, Hsid, Huid, Heid, Hty', Hts. simpl. by rewrite Hparse. }
  assert (Hacc : acceptable payload nowMs).
  { unfold acceptable. simpl. split_and!; try done; try lia.
    - rewrite Hkey in Hlen. simpl in Hlen. apply bool_decide_eq_false in Hlen. lia.
    - by apply (proj1 (metricOf_validate payload)), metrics_within.
    - by apply (proj1 (metricOf_validate payload)), metrics_within.
    - by apply (proj1 (metricOf_validate payload)), metrics_within.
    - by apply (proj1 (metricOf_validate payload)), metrics_within.
    - by apply (sequence_nonneg (JObject fields)). }
  exists payload, (driftFlagged payload nowMs), fields.
  split; [done|]. split; [done|].
  split; [split; [intros m Hget; by apply metrics_numeric with (get "metrics" (JObject fields))
                 |intros v; by apply sequence_number]|].
  split; [done|]. split.
  - destruct (validatePayload_spec payload w) as [(_ & ->)|(Hno & _)]; [done|].
    by destruct Hno.
  - subst flagged. unfold driftFlagged. simpl.
    destruct (timestamp <? nowMs - oneHour); [|done].
    by apply decode_flagged.
Qed.
End RawValidation.

Section Encoding.
Import Json Wire.
Context {R T : Type}.
Variable parseDate : string → option Z.

Lemma lookup_optional_ne k k' o (fields : gmap string Json.t) :
  k ≠ k' → optional k' o fields !! k = fields !! k.
Proof. intros Hne. destruct o; simpl; [by rewrite lookup_insert_ne|done]. Qed.

Lemma lookup_optional_eq k o (fields : gmap string Json.t) :
  fields !! k = None → optional k o fields !! k = o.
Proof. intros Hnone. destruct o; simpl; [by rewrite lookup_insert_eq|done]. Qed.

(** Lookup in a map given by its insertions. *)
Ltac lookups :=
  repeat first
    [ rewrite lookup_insert_eq
    | rewrite lookup_insert_ne by done
    | rewrite lookup_singleton_eq
    | rewrite lookup_singleton_ne by done
    | rewrite lookup_empty
    | rewrite lookup_optional_ne by done
    | rewrite lookup_optional_eq by (by lookups) ].

(** The fields of an encoded request. *)
Lemma get_encode ts p :
  get "idempotencyKey" (encode ts p) = Some (JString (IngestRequest.idempotencyKey p)) ∧
  get "sessionId" (encode ts p) = Some (JString (IngestRequest.sessionId p)) ∧
  get "userId" (encode ts p) = Some (JString (IngestRequest.userId p)) ∧
  get "eventId" (encode ts p) = Some (JString (IngestRequest.eventId p)) ∧
  get "eventType" (encode ts p)
  = Some (JString (eventTypeName (IngestRequest.eventType p))) ∧
  get "timestamp" (encode ts p) = Some (JString ts) ∧
  get "metrics" (encode ts p) = encodeMetrics <$> IngestRequest.metrics p ∧
  get "eventSequence" (encode ts p)
  = JNumber ∘ Js.num <$> IngestRequest.eventSequence p ∧
  get "_requiresReconciliation" (encode ts p)
  = JBool <$> IngestRequest._requiresReconciliation p ∧
  get "_clockDriftDetected" (encode ts p) = JBool <$> IngestRequest._clockDriftDetected p.
Proof.
  unfold encode, get. cbv zeta.
  split_and!; by lookups.
Qed.

Lemma get_encodeMetrics m :
  get "calories" (encodeMetrics m) = JNumber <$> EventMetrics.calories m ∧
  get "distance" (encodeMetrics m) = JNumber <$> EventMetrics.distance m ∧
  get "heartRate" (encodeMetrics m) = JNumber <$> EventMetrics.heartRate m ∧
  get "duration" (encodeMetrics m) = JNumber <$> EventMetrics.duration m.
Proof.
  unfold encodeMetrics, get.
  split_and!; by lookups.
Qed.

Lemma eventTypeOf_name eventType :
  Raw.eventTypeOf (Some (JString (eventTypeName eventType))) = Some eventType.
Proof. by destruct eventType. Qed.

Lemma isInteger_num (n : Z) : isInteger (Js.num n) = true.
Proof. by apply bool_decide_eq_true. Qed.

Lemma metricsOf_encode m :
  metricsOf (Some (encodeMetrics m)) = Some m.
Proof.
  unfold metricsOf. simpl truthy. cbv iota.
  destruct (get_encodeMetrics m) as (-> & -> & -> & ->).
  by destruct m as [[?|] [?|] [?|] [?|]].
Qed.

(** The round trip of a typed request through its body. *)
Lemma decode_encode ts p :
  parseDate ts = Some (IngestRequest.timestamp p) →
  decode parseDate (encode ts p) = Some p.
Proof.
  intros Hparse. unfold decode.
  destruct (get_encode ts p) as (-> & -> & -> & -> & -> & -> & -> & -> & -> & ->).
  rewrite eventTypeOf_name. simpl. rewrite Hparse. simpl.
  destruct p as [? ? ? ? ? ? metrics seq rr cd]. simpl. f_equal. f_equal.
  - destruct metrics as [m|]; [|done]. apply metricsOf_encode.
  - by destruct seq as [n|].
  - by destruct rr as [[]|].
  - by destruct cd as [[]|].
Qed.

Lemma notAString_string s : Raw.notAString (Some (JString s)) = bool_decide (s = "").
Proof.
  unfold Raw.notAString. simpl. rewrite orb_false_r.
  destruct (decide (s = "")) as [->|Hne]; [done|].
  by rewrite (bool_decide_eq_true_2 (s ≠ "")), (bool_decide_eq_false_2 (s = "")).
Qed.

Lemma tooLong_string s :
  Raw.tooLong (Some (JString s)) = bool_decide (128 < String.length s)%nat.
Proof. done. Qed.

Lemma encode_flagged ts p :
  set "_clockDriftDetected" (JBool true)
    (set "_requiresReconciliation" (JBool true) (encode ts p))
  = encode ts (IngestRequest.set_flags (Some true) (Some true) p).
Proof.
  unfold encode, set. cbv zeta. simpl. f_equal.
  apply map_eq. intros k.
  destruct (decide (k = "_clockDriftDetected")) as [->|Hcd]; [by lookups|].
  destruct (decide (k = "_requiresReconciliation")) as [->|Hrr]; by lookups.
Qed.

Lemma validateMetrics_encode o :
  Raw.validateMetrics (encodeMetrics <$> o)
  = match o with
    | Some m => validateMetrics m
    | None => None
    end.
Proof.
  destruct o as [m|]; [|done]. simpl fmap.
  unfold Raw.validateMetrics, validateMetrics. simpl truthy. cbv iota.
  rewrite (bool_decide_eq_false_2 (typeof (encodeMetrics m) ≠ "object"))
    by (by intros []).
  unfold has.
  destruct (get_encodeMetrics m) as (-> & -> & -> & ->).
  by destruct m as [[?|] [?|] [?|] [?|]].
Qed.

(** X23: the typed validator is the validator on well-typed bodies.  For
    every typed request, sent as the JSON object of its fields with a
    non-empty timestamp string that parses to its instant, [validatePayload]
    on the body gives the answer the typed validator gives on the request,
    with the same readings of the clock, and hands on the body of the payload
    the typed validator hands on; and the body decodes back to the
    request. *)
Theorem typed_validator_is_faithful ts (p : IngestRequest.t) (w : World R T) :
  parseDate ts = Some (IngestRequest.timestamp p) →
  ts ≠ "" →
  decode parseDate (encode ts p) = Some p ∧
  ∃ e validated w',
    validatePayload p w = (Ok (e, validated), w') ∧
    Raw.validatePayload parseDate (encode ts p) w = (Ok (e, encode ts validated), w').
Proof.
  intros Hparse Hts. split; [by apply decode_encode|].
  unfold Raw.validatePayload, validatePayload.
  destruct (get_encode ts p)
    as (Hkey & Hsid & Huid & Heid & Hty & Htime & _).
  rewrite Hkey, Hsid, Huid, Heid, Hty, Htime, !notAString_string, eventTypeOf_name,
    tooLong_string.
  simpl (negb _ || _). cbv iota.
  destruct (bool_decide (IngestRequest.idempotencyKey p = "")); [(eexists _, _, _; split; reflexivity)|].
  destruct (bool_decide (128 < String.length (IngestRequest.idempotencyKey p))%nat);
    [(eexists _, _, _; split; reflexivity)|].
  destruct (bool_decide (IngestRequest.sessionId p = "")); [(eexists _, _, _; split; reflexivity)|].
  destruct (bool_decide (IngestRequest.userId p = "")); [(eexists _, _, _; split; reflexivity)|].
  destruct (bool_decide (IngestRequest.eventId p = "")); [(eexists _, _, _; split; reflexivity)|].
  rewrite (bool_decide_eq_false_2 (Some (IngestRequest.eventType p) = None)) by done.
  rewrite (bool_decide_eq_false_2 (ts = "")) by done.
  rewrite Hparse. unfold bind, now, ret.
  set (nowMs := clock w (tick w)).
  destruct (IngestRequest.timestamp p <? nowMs - oneWeek); [(eexists _, _, _; split; reflexivity)|].
  destruct (IngestRequest.timestamp p >? nowMs + oneHour); [(eexists _, _, _; split; reflexivity)|].
  set (flagged := if IngestRequest.timestamp p <? nowMs - oneHour
                  then set _ _ _ else encode ts p).
  set (validated := if IngestRequest.timestamp p <? nowMs - oneHour
                    then IngestRequest.set_flags _ _ p else p).
  assert (Hflagged : flagged = encode ts validated).
  { subst flagged validated.
    destruct (IngestRequest.timestamp p <? nowMs - oneHour); [|done].
    apply encode_flagged. }
  rewrite Hflagged.
  destruct (get_encode ts validated) as (_ & _ & _ & _ & _ & _ & Hm & Hs & _).
  unfold has. rewrite Hm, Hs, validateMetrics_encode.
  destruct (match IngestRequest.metrics validated with
            | Some m => validateMetrics m
            | None => None
            end); [(eexists _, _, _; split; reflexivity)|].
  destruct (IngestRequest.eventSequence validated) as [n|]; simpl.
  - rewrite orb_false_r.
    destruct (Z.ltb_spec n 0) as [Hn|Hn].
    + rewrite bool_decide_eq_true_2 by (unfold Qclt, Qlt; simpl; lia).
      (eexists _, _, _; split; reflexivity).
    + rewrite bool_decide_eq_false_2 by (unfold Qclt, Qlt; simpl; lia).
      (eexists _, _, _; split; reflexivity).
  - (eexists _, _, _; split; reflexivity).
Qed.
End Encoding.

Lemma accepted_body_is_well_typed_witness :
  ∃ payload validated fields,
    Scenario.body = Json.JObject fields ∧
    Wire.decode Scenario.parse Scenario.body = Some payload ∧
    Wire.numeric Scenario.body ∧
    acceptable payload (clock Ex.empty (tick Ex.empty)) ∧
    validatePayload payload Ex.empty = (Ok (None, validated), elapse 1 Ex.empty) ∧
    Wire.decode Scenario.parse Scenario.body = Some validated.
Proof.
  apply (accepted_body_is_well_typed Scenario.parse Scenario.body Scenario.body
           Ex.empty (elapse 1 Ex.empty)).
  reflexivity.
Defined.

Lemma typed_validator_is_faithful_witness :
  Wire.decode Scenario.parse (Wire.encode Scenario.iso Ex.next) = Some Ex.next ∧
  ∃ e validated w',
    validatePayload Ex.next Ex.empty = (Ok (e, validated), w') ∧
    Raw.validatePayload Scenario.parse (Wire.encode Scenario.iso Ex.next) Ex.empty
    = (Ok (e, Wire.encode Scenario.iso validated), w').
Proof.
  apply (typed_validator_is_faithful Scenario.parse Scenario.iso Ex.next Ex.empty);
    [reflexivity | discriminate].
Defined.

(** ** The response, and the other keys *)

Lemma successResponse_resolve commitTime session outOfOrder :
  successResponse (ExerciseSession.resolve commitTime session) outOfOrder
  = successResponse session outOfOrder.
Proof. done. Qed.

(** X21: the success response reports what was committed.  When
    [processEvent] returns the success payload, the Session and the Event
    document of the payload are stored; the session id, status, metrics and
    reconciliation flag of the response are those of the stored session,
    including the clock-drift mark of lines 148-151; [outOfOrder] is the flag stored with the event; the event
    document mirrors the payload and carries the commit time as
    [serverTimestamp]; and unless the event is flagged out-of-order, the
    session's [lastUpdated] is that same instant. *)
Theorem response_reports_committed_session {R T} payload (w w' : World R T)
    sessionId sessionStatus currentMetrics requiresReconciliation outOfOrder :
  processEvent payload w
  = (Ok (success sessionId sessionStatus currentMetrics requiresReconciliation outOfOrder),
     w') →
  ∃ session commitTime,
    sessions w' !! IngestRequest.sessionId payload = Some session ∧
    events w' !! IngestRequest.eventId payload
    = Some (ExerciseEvent.resolve commitTime (eventRecord payload outOfOrder)) ∧
    success sessionId sessionStatus currentMetrics requiresReconciliation outOfOrder
    = successResponse session outOfOrder ∧
    (outOfOrder = false → ExerciseSession.lastUpdated session = DateAt commitTime).
Proof.
  intros Hrun.
  destruct (events w !! IngestRequest.eventId payload) as [e|] eqn:Hev.
  { rewrite (processEvent_duplicate _ _ _ Hev) in Hrun. discriminate Hrun. }
  destruct (sessions w !! IngestRequest.sessionId payload) as [s|] eqn:Hsess.
  - destruct (processEvent_existing _ _ _ Hev Hsess) as (merged & w1 & Hfacts & _ & Hrun').
    rewrite Hrun' in Hrun.
    pose proof (f_equal snd Hrun) as Hw. simpl in Hw. subst w'.
    apply (f_equal fst) in Hrun. cbn [fst] in Hrun.
    assert (Hresp : successResponse (markClockDrift payload merged) (isOutOfOrder payload s)
                    = success sessionId sessionStatus currentMetrics
                        requiresReconciliation outOfOrder) by congruence.
    exists (ExerciseSession.resolve (clock w (tick w1)) (markClockDrift payload merged)),
      (clock w (tick w1)).
    unfold committed. cbn [sessions events]. rewrite !lookup_insert_eq.
    split; [done|].
    assert (Hooo : outOfOrder = isOutOfOrder payload s).
    { unfold successResponse in Hresp. by injection Hresp. }
    split; [by rewrite Hooo|]. split; [by rewrite <- Hresp, Hooo|].
    intros ->. destruct Hfacts as (_ & _ & _ & Hfacts). rewrite <- Hooo in Hfacts.
    destruct Hfacts as (_ & _ & _ & Hlu & _).
    pose proof (markClockDrift_fields payload merged) as Hf. cbv zeta in Hf.
    destruct Hf as (_ & Hlu' & _).
    unfold ExerciseSession.resolve. simpl. by rewrite Hlu', Hlu.
  - destruct (decide (IngestRequest.eventType payload = start)) as [Hst|Hst].
    + rewrite (processEvent_new _ _ Hev Hsess Hst) in Hrun.
      pose proof (f_equal snd Hrun) as Hw. simpl in Hw. subst w'.
      apply (f_equal fst) in Hrun. cbn [fst] in Hrun.
    assert (Hresp : successResponse (markClockDrift payload (createNewSession payload))
                      false
                    = success sessionId sessionStatus currentMetrics
                        requiresReconciliation outOfOrder) by congruence.
      exists (ExerciseSession.resolve (clock w (tick w))
                (markClockDrift payload (createNewSession payload))),
        (clock w (tick w)).
      unfold committed. cbn [sessions events]. rewrite !lookup_insert_eq.
      split; [done|].
      assert (Hooo : outOfOrder = false).
      { unfold successResponse in Hresp. by injection Hresp. }
      split; [by rewrite Hooo|]. split; [by rewrite <- Hresp, Hooo|].
      intros _.
      pose proof (markClockDrift_fields payload (createNewSession payload)) as Hf.
      cbv zeta in Hf. destruct Hf as (_ & Hlu' & _).
      unfold ExerciseSession.resolve. simpl. by rewrite Hlu'.
    + rewrite (processEvent_missing _ _ Hev Hsess Hst) in Hrun. discriminate Hrun.
Qed.

Lemma response_reports_committed_session_witness :
  ∃ session commitTime,
    sessions (snd (processEvent Ex.next Ex.db)) !! "session-1" = Some session ∧
    events (snd (processEvent Ex.next Ex.db)) !! "event-next"
    = Some (ExerciseEvent.resolve commitTime (eventRecord Ex.next false)) ∧
    ExerciseSession.lastUpdated session = DateAt commitTime.
Proof.
  assert (Hfst : ∃ sessionId sessionStatus currentMetrics requiresReconciliation,
            fst (processEvent Ex.next Ex.db)
            = Ok (success sessionId sessionStatus currentMetrics
                    requiresReconciliation false)).
  { eexists _, _, _, _. reflexivity. }
  destruct Hfst as (sid & st & cm & rr & Hfst).
  pose proof (surjective_pairing (processEvent Ex.next Ex.db)) as Hpair.
  rewrite Hfst in Hpair.
  destruct (response_reports_committed_session Ex.next Ex.db _ sid st cm rr false Hpair)
    as (session & commitTime & Hs & He & _ & Hlu).
  exists session, commitTime. split; [exact Hs|]. split; [exact He|]. by apply Hlu.
Defined.

(** X6: a guarded call keeps to its key.  Whatever the record of the key,
    the request and the processor, provided the processor itself leaves the
    [idempotency] collection alone, a call of [processWithIdempotency] writes
    no record but that of its own key: every other record is afterwards what
    it was before.  And it removes nothing: afterwards the key has a
    record. *)
Theorem guarded_call_keeps_to_its_key {R T} `{Truthy T} key (request : R)
    (processor : M R T T) (w : World R T) :
  (∀ w0, idempotency (snd (processor w0)) = idempotency w0) →
  let w' := snd (processWithIdempotency key request processor w) in
  (∀ k, k ≠ key → idempotency w' !! k = idempotency w !! k) ∧
  is_Some (idempotency w' !! key).
Proof.
  intros Hproc w'. subst w'. split.
  - intros k Hk.
    unfold processWithIdempotency, tryCatch, bind, failClosed, throw, ret.
    pose proof (claim_frame key request w) as (_ & _ & Hi).
    destruct (runTransaction (claimCallback key request) w) as [[[cached|]|e] wa];
      simpl in Hi; [by apply Hi| |by apply Hi].
    unfold processOutsideTransaction, tryCatch, bind, throw, ret.
    specialize (Hproc wa).
    destruct (processor wa) as [[r|e] wb]; simpl in Hproc.
    + pose proof (updateCompleted_frame key r wb) as (_ & _ & Hi2).
      destruct (updateCompleted key r wb) as [[[]|e] wc]; simpl in Hi2.
      * simpl. by rewrite Hi2, Hproc, Hi.
      * pose proof (updateFailed_frame key e wc) as (_ & _ & Hi3).
        destruct (updateFailed key e wc) as [[[]|e'] wd]; simpl in *;
          by rewrite Hi3, Hi2, Hproc, Hi.
    + pose proof (updateFailed_frame key e wb) as (_ & _ & Hi3).
      destruct (updateFailed key e wb) as [[[]|e'] wc]; simpl in *;
        by rewrite Hi3, Hproc, Hi.
  - destruct (claim_cases key request w) as
      [(r & Hout & Ht)|[(n & Hout)|[(Hout & Ht)|(e & Hout & Ht)]]].
    + destruct (claim_fromCache_inv key request w r Hout) as (data & Hdoc & _).
      unfold processWithIdempotency, tryCatch, bind.
      destruct (runTransaction (claimCallback key request) w) as [res wa].
      simpl in Hout, Ht. subst res. simpl.
      destruct Ht as (-> & _). by eexists.
    + rewrite (processWithIdempotency_claimed key request processor w _ Hout).
      specialize (Hproc (claimedWorld key request w n)).
      destruct (processor (claimedWorld key request w n)) as [[r|e] wb];
        simpl in Hproc; rewrite Hproc, lookup_insert_eq; simpl;
        rewrite lookup_insert_eq; by eexists.
    + assert (Hdoc : is_Some (idempotency w !! key)).
      { revert Hout.
        unfold runTransaction, claimCallback, bind, getIdempotency, now, ret, throw.
        destruct (idempotency w !! key); [by eexists|done]. }
      unfold processWithIdempotency, tryCatch, bind.
      destruct (runTransaction (claimCallback key request) w) as [res wa].
      simpl in Hout, Ht. subst res. simpl.
      destruct Ht as (Hi & _). by rewrite Hi.
    + assert (Hdoc : is_Some (idempotency w !! key)).
      { revert Hout.
        unfold runTransaction, claimCallback, bind, getIdempotency, now, ret, throw.
        destruct (idempotency w !! key); [by eexists|done]. }
      unfold processWithIdempotency, tryCatch, bind.
      destruct (runTransaction (claimCallback key request) w) as [res wa].
      simpl in Hout, Ht. subst res. unfold failClosed, throw. simpl.
      destruct Ht as (Hi & _). 
      repeat (case_match; simpl); by rewrite Hi.
Qed.

Lemma guarded_call_keeps_to_its_key_witness :
  idempotency (snd (processWithIdempotency "key-late" Ex.late (processEvent Ex.late)
                      Ex.dbCompleted)) !! "key-next"
  = idempotency Ex.dbCompleted !! "key-next".
Proof.
  apply (guarded_call_keeps_to_its_key "key-late" Ex.late (processEvent Ex.late)
           Ex.dbCompleted);
    [intros w0; apply processEvent_frame | discriminate].
Defined.

(** ** The counters and the dashboard *)

Lemma userCount_insert s days docs day today user doc :
  Counters.userCount
    (Counters.mkSink days (<[(today, user) := doc]> (Counters.users s)) docs) day
  = if decide (today = day)
    then match Counters.users s !! (today, user) with
         | Some _ => Counters.userCount s day
         | None => S (Counters.userCount s day)
         end
    else Counters.userCount s day.
Proof.
  unfold Counters.userCount. simpl.
  destruct (decide (today = day)) as [->|Hne].
  - rewrite map_filter_insert_True by done.
    destruct (Counters.users s !! (day, user)) as [old|] eqn:Hold.
    + rewrite map_size_insert_Some; [done|].
      exists old. by apply map_lookup_filter_Some_2.
    + rewrite map_size_insert_None; [done|].
      apply map_lookup_filter_None_2. by left.
  - rewrite map_filter_insert_not' ; [done|by simpl; intros ?|].
    intros y _. simpl. by intros ?.
Qed.

Lemma userCount_none s day :
  (∀ user, Counters.users s !! (day, user) = None) → Counters.userCount s day = 0%nat.
Proof.
  intros Hnone. unfold Counters.userCount.
  rewrite (proj2 (map_empty (filter _ (Counters.users s)))); [apply map_size_empty|].
  intros [d u]. apply map_lookup_filter_None_2.
  destruct (decide (d = day)) as [->|Hne]; [left; apply Hnone|].
  right. intros x _. done.
Qed.

(** The counters of the event types after one more event. *)
Lemma byEventType_step (types : gmap string Z) type r :
  (∀ name n, types !! name = Some n → 1 ≤ n ∧ name ∈ ["start"; "update"; "end"]) →
  default 0 (types !! "start") + default 0 (types !! "update")
  + default 0 (types !! "end") = r →
  let types' := <[Wire.eventTypeName type := default 0 (types !! Wire.eventTypeName type) + 1]>
                  types in
  (∀ name n, types' !! name = Some n → 1 ≤ n ∧ name ∈ ["start"; "update"; "end"]) ∧
  default 0 (types' !! "start") + default 0 (types' !! "update")
  + default 0 (types' !! "end") = r + 1.
Proof.
  intros Hold Hsum types'. subst types'. split.
  - intros name n. rewrite lookup_insert_Some. intros [(<- & <-)|(_ & Hn)]; [|by apply Hold].
    split.
    + destruct (types !! Wire.eventTypeName type) as [k|] eqn:Hk; simpl; [|lia].
      apply Hold in Hk. lia.
    + destruct type; simpl; in_list.
  - destruct type; simpl;
      rewrite lookup_insert_eq, !lookup_insert_ne by done; simpl; lia.
Qed.

Lemma store_counted today commitTime m s :
  counted s → counted (Counters.store today commitTime m s).
Proof.
  intros (Hdays & Husers).
  destruct m as [session user type isDuplicate sequence drift|session event type].
  2:{ split; [|exact Husers]. intros day doc Hdoc. exact (Hdays day doc Hdoc). }
  split.
  - intros day doc. simpl. rewrite lookup_insert_Some.
    intros [(<- & <-)|(Hne & Hdoc)].
    2:{ destruct (Hdays day doc Hdoc)
          as (Hdate & r & dup & dr & types & Ht & Hdup & Hdr & Hty & Hnames & Hsum & Hu1 & Hu2).
        split; [done|]. exists r, dup, dr, types.
        unfold Counters.store. rewrite userCount_insert.
        rewrite decide_False by done. done. }
    split; [done|].
    unfold Counters.store. rewrite userCount_insert, decide_True by done.
    destruct (Counters.daily s !! today) as [old|] eqn:Hold.
    + destruct (Hdays today old Hold)
        as (Hdate & r & dup & dr & types & Ht & Hdup & Hdr & Hty & Hnames & Hsum & Hu1 & Hu2).
      destruct (byEventType_step types type r Hnames Hsum) as (Hnames' & Hsum').
      exists (r + 1), (dup + Counters.oneIf (Some isDuplicate)),
        (dr + Counters.oneIf (Some drift)),
        (<[Wire.eventTypeName type := default 0 (types !! Wire.eventTypeName type) + 1]> types).
      unfold Counters.setDaily. simpl. rewrite Ht, Hty. simpl.
      split; [done|].
      split; [destruct isDuplicate; unfold Counters.oneIf; simpl; lia|].
      split; [destruct drift; unfold Counters.oneIf; simpl; lia|].
      split; [done|]. split; [exact Hnames'|]. split; [exact Hsum'|].
      destruct (Counters.users s !! (today, user)); lia.
    + assert (Hzero : Counters.userCount s today = 0%nat).
      { apply userCount_none. intros u.
        destruct (Counters.users s !! (today, u)) as [d|] eqn:Hd; [|done].
        destruct (Husers today u d Hd) as [x Hx]. congruence. }
      destruct (byEventType_step ∅ type 0) as (Hnames' & Hsum').
      { intros name n. by rewrite lookup_empty. }
      { by rewrite !lookup_empty. }
      exists 1, (Counters.oneIf (Some isDuplicate)), (Counters.oneIf (Some drift)),
        (<[Wire.eventTypeName type := 1]> ∅).
      unfold Counters.setDaily. simpl.
      rewrite lookup_empty in Hnames', Hsum'. simpl in Hnames', Hsum'.
      rewrite lookup_empty. simpl.
      split; [done|].
      split; [destruct isDuplicate; unfold Counters.oneIf; simpl; lia|].
      split; [destruct drift; unfold Counters.oneIf; simpl; lia|].
      split; [done|]. split; [exact Hnames'|]. split; [exact Hsum'|].
      rewrite Hzero.
      destruct (Counters.users s !! (today, user)) as [d|] eqn:Hd; [|lia].
      destruct (Husers today user d Hd) as [x Hx]. congruence.
  - intros day u doc. simpl. rewrite lookup_insert_Some.
    intros [(Heq & _)|(Hne & Hdoc)].
    + injection Heq as <- <-. rewrite lookup_insert_eq. by eexists.
    + destruct (Husers day u doc Hdoc) as [x Hx].
      destruct (decide (today = day)) as [->|Hd].
      * rewrite lookup_insert_eq. by eexists.
      * rewrite lookup_insert_ne by done. by eexists.
Qed.

Lemma empty_counted : counted Counters.empty.
Proof.
  split; [intros day doc Hdoc|intros day user doc Hdoc]; simpl in Hdoc;
    by rewrite lookup_empty in Hdoc.
Qed.

Lemma storeAll_counted signals s : counted s → counted (Counters.storeAll signals s).
Proof.
  revert s. induction signals as [|[[day t] m] signals IH]; intros s Hs; [done|].
  exact (IH _ (store_counted day t m s Hs)).
Qed.

(** The daily and the user documents do not depend on the duplicates. *)
Lemma storeAll_ingested signals s :
  Counters.daily (Counters.storeAll signals s)
  = Counters.daily (Counters.storeAll (filter isIngested signals) s) ∧
  Counters.users (Counters.storeAll signals s)
  = Counters.users (Counters.storeAll (filter isIngested signals) s).
Proof.
  assert (Hindep : ∀ l s1 s2,
            Counters.daily s1 = Counters.daily s2 →
            Counters.users s1 = Counters.users s2 →
            Counters.daily (Counters.storeAll l s1) = Counters.daily (Counters.storeAll l s2) ∧
            Counters.users (Counters.storeAll l s1) = Counters.users (Counters.storeAll l s2)).
  { clear. induction l as [|[[day t] m] l IH]; intros s1 s2 Hd Hu; [done|].
    apply IH; destruct m; simpl; rewrite ?Hd, ?Hu; done. }
  revert s. induction signals as [|[[day t] m] signals IH]; intros s; [done|].
  destruct m as [session user type isDuplicate sequence drift|session event type].
  - rewrite filter_cons_True by done. apply IH.
  - rewrite filter_cons_False by (by intros []).
    destruct (IH (Counters.store day t (duplicate_event session event type) s)) as (Hd & Hu).
    destruct (Hindep (filter isIngested signals)
                (Counters.store day t (duplicate_event session event type) s) s) as (Hd' & Hu');
      [done|done|].
    split; [exact (eq_trans Hd Hd')|exact (eq_trans Hu Hu')].
Qed.

(** X24: the counters of the dashboard stay consistent.  Whatever signals
    [logMetrics] receives, and on whatever days, every daily document is
    filed under its own date and counts at least one request; its duplicates
    and its clock-drift count lie between 0 and the requests; its
    [outOfOrder] count is 0, because no signal of the ingest path carries
    that field; the counts of the three event types add up to the requests;
    and the users seen that day number at least one and at most the
    requests.  A [duplicate_event] signal changes none of these counters. *)
Theorem counters_stay_consistent (signals : list Counters.Logged) (s : Counters.Sink) :
  counted s →
  counted (Counters.storeAll signals s) ∧
  Counters.daily (Counters.storeAll signals s)
  = Counters.daily (Counters.storeAll (filter isIngested signals) s) ∧
  Counters.users (Counters.storeAll signals s)
  = Counters.users (Counters.storeAll (filter isIngested signals) s).
Proof.
  intros Hs. split; [by apply storeAll_counted|apply storeAll_ingested].
Qed.

Lemma counters_stay_consistent_witness :
  counted (Counters.storeAll Scenario.signals Counters.empty).
Proof.
  apply (counters_stay_consistent Scenario.signals Counters.empty).
  split; [intros day doc Hdoc|intros day user doc Hdoc]; simpl in Hdoc;
    by rewrite lookup_empty in Hdoc.
Defined.

(** A part of a total, in percent. *)
Lemma percentage (part total : Z) :
  0 ≤ part ≤ total → 1 ≤ total →
  (0 ≤ Js.num part / Js.num total * Js.num 100)%Qc ∧
  (Js.num part / Js.num total * Js.num 100 ≤ Js.num 100)%Qc.
Proof.
  intros Hpart Htotal. unfold Js.num.
  assert (Hp : (0 ≤ Qc_of_Z part)%Qc)
    by (rewrite <- Z2Qc_inj_0; apply (proj1 (Z2Qc_inj_le _ _)); lia).
  assert (Hle : (Qc_of_Z part ≤ Qc_of_Z total)%Qc)
    by (apply (proj1 (Z2Qc_inj_le _ _)); lia).
  assert (Ht : (0 < Qc_of_Z total)%Qc)
    by (rewrite <- Z2Qc_inj_0; apply (proj1 (Z2Qc_inj_lt _ _)); lia).
  assert (Hh : (0 ≤ Qc_of_Z 100)%Qc)
    by (rewrite <- Z2Qc_inj_0; apply (proj1 (Z2Qc_inj_le _ _)); lia).
  assert (Hne : Qc_of_Z total ≠ 0%Qc) by (by apply positive_nonzero).
  assert (Hq : (Qc_of_Z part / Qc_of_Z total * Qc_of_Z total)%Qc = Qc_of_Z part)
    by (by field).
  split.
  - apply Qcmult_nonneg_nonneg; [|done].
    apply Qcmult_nonneg_nonneg; [done|]. apply Qclt_le_weak. by apply Qcinv_pos.
  - replace (Qc_of_Z 100) with (1 * Qc_of_Z 100)%Qc at 2 by ring.
    apply Qcmult_le_compat_r; [|done].
    apply (Qcmult_lt_0_le_reg_r _ _ (Qc_of_Z total) Ht). rewrite Hq.
    by replace (1 * Qc_of_Z total)%Qc with (Qc_of_Z total) by ring.
Qed.

Lemma some_false limit f metrics :
  (∀ m, m ∈ metrics → (f m ≤ Js.num limit)%Qc) → Counters.some limit f metrics = false.
Proof.
  induction metrics as [|m metrics IH]; intros Hall; [done|].
  unfold Counters.some. simpl. rewrite bool_decide_eq_false_2.
  - apply IH. intros m' Hm'. apply Hall. by right.
  - apply Qcle_not_lt. apply Hall. by left.
Qed.

Lemma Sorted_take {A} (R : relation A) n (l : list A) : Sorted R l → Sorted R (take n l).
Proof.
  revert n. induction l as [|a l IH]; intros [|n] Hs; simpl; try constructor.
  - apply IH. by inversion Hs.
  - inversion Hs as [|? ? _ Hhd]; subst. destruct Hhd, n; by constructor.
Qed.

(** The documents of a collection that pass a filter, counted. *)
Lemma filter_map_to_list_length {A} (P : string * A → Prop) `{∀ x, Decision (P x)}
    (m : gmap string A) :
  length (filter P (map_to_list m)) = size (filter P m).
Proof.
  rewrite map_filter_alt, <- length_map_to_list.
  rewrite map_to_list_to_map; [done|].
  eapply sublist_NoDup; [apply (NoDup_fst_map_to_list m)|].
  apply fmap_sublist, sublist_filter.
Qed.

(** What the query returns. *)
Lemma metricsQuery_elem startDate endDate s doc :
  doc ∈ Counters.metricsQuery startDate endDate s →
  Counters.daily s !! doc.1 = Some doc.2 ∧
  String.leb startDate (Counters.date doc.2) ∧ String.leb (Counters.date doc.2) endDate.
Proof.
  unfold Counters.metricsQuery. intros Hin.
  apply elem_of_take in Hin as (i & Hi & _). apply list_elem_of_lookup_2 in Hi.
  rewrite merge_sort_Permutation in Hi.
  apply list_elem_of_filter in Hi as ((Hs & He) & Hdoc).
  destruct doc as [day data]. apply elem_of_map_to_list in Hdoc. done.
Qed.

(** X25: what the dashboard shows of the counters [logMetrics] keeps.  It
    lists at most thirty days, latest first, each with a date between
    [startDate] and [endDate]; for each of them the requests and the users
    are at least one, the users no more than the requests, the duplicate and
    the clock-drift rate lie between 0 and 100, and the out-of-order rate is
    0, so that the [highOutOfOrder] alert is never raised.  When no more than
    thirty days are in the range, every one of them is listed. *)
Theorem dashboard_rates_are_percentages {R T} startDate endDate (s : Counters.Sink)
    (w : World R T) :
  counted s →
  let board := Counters.getMetricsDashboard startDate endDate s w in
  (length (Counters.dailyMetrics board) ≤ 30)%nat ∧
  Sorted (λ a b, String.leb (Counters.dmDate b) (Counters.dmDate a))
    (Counters.dailyMetrics board) ∧
  (∀ m, m ∈ Counters.dailyMetrics board →
        String.leb startDate (Counters.dmDate m) ∧
        String.leb (Counters.dmDate m) endDate ∧
        is_Some (Counters.daily s !! Counters.dmDate m) ∧
        1 ≤ Counters.totalRequests m ∧
        (1 ≤ Counters.uniqueUsers m)%nat ∧
        Z.of_nat (Counters.uniqueUsers m) ≤ Counters.totalRequests m ∧
        (0 ≤ Counters.duplicateRate m)%Qc ∧ (Counters.duplicateRate m ≤ Js.num 100)%Qc ∧
        (0 ≤ Counters.clockDriftRate m)%Qc ∧ (Counters.clockDriftRate m ≤ Js.num 100)%Qc ∧
        Counters.outOfOrderRate m = 0%Qc) ∧
  Counters.highOutOfOrder (Counters.alerts board) = false ∧
  ((size (filter (λ doc, String.leb startDate (Counters.date doc.2) ∧
                         String.leb (Counters.date doc.2) endDate)
            (Counters.daily s)) ≤ 30)%nat →
   ∀ day doc,
     Counters.daily s !! day = Some doc →
     String.leb startDate day → String.leb day endDate →
     Counters.dailyMetric s (day, doc) ∈ Counters.dailyMetrics board).
Proof.
  intros (Hdays & Husers) board.
  assert (Helem : ∀ m, m ∈ Counters.dailyMetrics board →
            String.leb startDate (Counters.dmDate m) ∧
            String.leb (Counters.dmDate m) endDate ∧
            is_Some (Counters.daily s !! Counters.dmDate m) ∧
            1 ≤ Counters.totalRequests m ∧
            (1 ≤ Counters.uniqueUsers m)%nat ∧
            Z.of_nat (Counters.uniqueUsers m) ≤ Counters.totalRequests m ∧
            (0 ≤ Counters.duplicateRate m)%Qc ∧ (Counters.duplicateRate m ≤ Js.num 100)%Qc ∧
            (0 ≤ Counters.clockDriftRate m)%Qc ∧ (Counters.clockDriftRate m ≤ Js.num 100)%Qc ∧
            Counters.outOfOrderRate m = 0%Qc).
  { intros m Hm. subst board. simpl in Hm.
    apply list_elem_of_fmap in Hm as ([day data] & -> & Hdoc).
    apply metricsQuery_elem in Hdoc as (Hdoc & Hs & He). simpl in Hdoc, Hs, He.
    destruct (Hdays day data Hdoc)
      as (Hdate & r & dup & dr & types & Ht & Hdup & Hdr & Hty & Hnames & Hsum & Hu1 & Hu2).
    assert (Hr : 1 ≤ r) by lia.
    unfold Counters.dailyMetric, Counters.rate. cbn -[Js.orInt Js.num].
    rewrite Ht. cbn -[Js.orInt Js.num].
    rewrite !orInt_zero, bool_decide_eq_true_2 by lia. cbn [default].
    destruct (percentage dup r Hdup Hr) as (Hd0 & Hd100).
    destruct (percentage dr r Hdr Hr) as (Hc0 & Hc100).
    rewrite Hdate in Hs, He |- *. split_and!; try done. }
  split_and!.
  - subst board. simpl. rewrite length_fmap. unfold Counters.metricsQuery.
    rewrite length_take. lia.
  - subst board. simpl. unfold Counters.metricsQuery.
    apply (Sorted_fmap _ Counters.laterDate); [by intros a b|].
    apply Sorted_take, Sorted_merge_sort.
    intros a b. unfold Counters.laterDate.
    destruct (String.leb_total (Counters.date a.2) (Counters.date b.2)) as [H|H];
      rewrite H; [by right|by left].
  - exact Helem.
  - subst board. simpl. apply some_false. intros m Hm.
    destruct (Helem m) as (_ & _ & _ & _ & _ & _ & _ & _ & _ & _ & ->).
    { exact Hm. }
    unfold Js.num. rewrite <- Z2Qc_inj_0. by apply (proj1 (Z2Qc_inj_le _ _)).
  - intros Hfew day doc Hdoc Hs He. subst board. simpl.
    apply list_elem_of_fmap. exists (day, doc). split; [done|].
    unfold Counters.metricsQuery. rewrite take_ge.
    + rewrite merge_sort_Permutation. apply list_elem_of_filter.
      destruct (Hdays day doc Hdoc) as (Hdate & _). simpl. rewrite Hdate.
      split; [done|]. by apply elem_of_map_to_list.
    + by rewrite merge_sort_Permutation, filter_map_to_list_length.
Qed.

Lemma dashboard_rates_are_percentages_witness :
  Counters.highOutOfOrder
    (Counters.alerts
       (Counters.getMetricsDashboard "2023-11-01" "2023-11-30"
          (Counters.storeAll Scenario.signals Counters.empty) Ex.db)) = false.
Proof.
  apply (dashboard_rates_are_percentages "2023-11-01" "2023-11-30"
           (Counters.storeAll Scenario.signals Counters.empty) Ex.db).
  apply storeAll_counted, empty_counted.
Defined.

(** X26: a business-level duplicate is a request to the dashboard, not a
    duplicate.  A valid POST under a fresh idempotency key whose Event
    document exists is answered 200 [already_processed] and changes no
    session and no event; it sends the [duplicate_event] signal and then
    [event_ingested] with [isDuplicate = false].  Logged on one day, the two
    signals raise the day's [requests] by one and leave its [duplicates]
    count where it was, so the duplicate rate of the dashboard counts replays
    under a known key only; what records the duplicate is one more document
    among the day's [duplicates], which the dashboard does not read. *)
Theorem business_duplicate_is_not_counted (payload validated : IngestRequest.t)
    (w w1 : Db) existing :
  validatePayload payload w = (Ok (None, validated), w1) →
  idempotency w !! IngestRequest.idempotencyKey payload = None →
  events w !! IngestRequest.eventId payload = Some existing →
  ∃ w',
    ingestExerciseEvent "POST" payload w
    = (Ok (mkHttp 200
             (jsonBody (already_processed (IngestRequest.sessionId payload)
                          "Event already processed with different idempotency key"))),
       w') ∧
    sessions w' = sessions w ∧ events w' = events w ∧
    let signals :=
      [duplicate_event (IngestRequest.sessionId payload) (IngestRequest.eventId payload)
         (IngestRequest.eventType payload);
       ingestedSignal validated true] in
    metricsLog w' = metricsLog w ++ signals ∧
    ∀ today t1 t2 (s : Counters.Sink),
      let old := Counters.daily s !! today ≫= Counters.totals in
      let s' := Counters.storeAll [(today, t1, duplicate_event (IngestRequest.sessionId payload)
                                                 (IngestRequest.eventId payload)
                                                 (IngestRequest.eventType payload));
                                   (today, t2, ingestedSignal validated true)] s in
      let new := Counters.daily s' !! today ≫= Counters.totals in
      new ≫= Counters.requests = Some (default 0 (old ≫= Counters.requests) + 1) ∧
      new ≫= Counters.duplicates = Some (default 0 (old ≫= Counters.duplicates)) ∧
      length (Counters.duplicateDocs s') = S (length (Counters.duplicateDocs s)).
Proof.
  intros Hvalid Hkey Hev.
  destruct (sameBut_flags_fields _ _ (validatePayload_fields _ _ _ _ _ Hvalid))
    as (Hsid & _ & Heid & Hty & _).
  pose proof (sameBut_flags_key _ _ (validatePayload_fields _ _ _ _ _ Hvalid)) as Hk.
  destruct (validatePayload_run payload w) as (v & w1' & Hrun & Ht & _).
  rewrite Hvalid in Hrun. injection Hrun as <- <-.
  destruct Ht as (Hi & Hs & He & Hl & _).
  rewrite (ingest_validated _ _ _ _ Hvalid).
  set (key := IngestRequest.idempotencyKey validated).
  set (claimed := claimedWorld key validated w1 1).
  assert (Hev1 : events claimed !! IngestRequest.eventId validated = Some existing).
  { simpl. by rewrite He, Heid. }
  pose proof (processEvent_duplicate validated claimed existing Hev1) as Hproc.
  erewrite (processWithIdempotency_fresh key validated (processEvent validated) w1);
    [| by rewrite Hi; unfold key; rewrite Hk | exact Hproc
     | simpl; apply lookup_insert_eq].
  simpl. eexists. split; [rewrite Hsid; reflexivity|]. simpl.
  split; [done|]. split; [done|].
  split; [by rewrite Hl, ?Hsid, ?Heid, ?Hty, <- app_assoc|].
  intros today t1 t2 s. simpl. rewrite lookup_insert_eq. simpl.
  split_and!; [done| |by rewrite length_app, Nat.add_comm].
  unfold Counters.increment, Counters.oneIf. simpl. f_equal. lia.
Qed.

Lemma business_duplicate_is_not_counted_witness :
  ∃ w',
    ingestExerciseEvent "POST" Ex.retry Scenario.dbStored
    = (Ok (mkHttp 200
             (jsonBody (already_processed "session-1"
                          "Event already processed with different idempotency key"))),
       w').
Proof.
  edestruct (business_duplicate_is_not_counted Ex.retry Ex.retry Scenario.dbStored
               (elapse 1 Scenario.dbStored))
    as (w' & Hrun & _); [reflexivity|reflexivity|reflexivity|].
  by exists w'.
Defined.
